(** * analyzeMFT: the MFT entry parser of [src/parsers/mft.py]

    A shallow embedding of [MFTEntry] and of the functions its [parse]
    method runs, followed by the properties of the decoder that the
    specification states about it.

    Conventions of the embedding.
    - A Python exception is a value of [exn]; a call that can raise
      returns a [result].
    - The [BytesIO] stream over the raw entry is a record of the
      bytes and the position; code that reads it is a function of the
      stream that returns the new stream beside its result.
    - A [while] loop is a [Fixpoint] over a fuel argument; [None] means
      that the fuel ran out before the loop ended.  A statement that the
      code returns is a statement that some fuel gives [Some _].
    - The [construct] declarations of [src.structures.mft] and the class
      [WindowsTime] of [src.utils.time] are imported by [mft.py] and are
      the parameters [Structs] of the development. *)

From Stdlib Require Import ZArith List String Ascii Bool Lia.
From stdpp Require Import base gmap strings list.
Import ListNotations.

Local Open Scope string_scope.
Local Open Scope list_scope.
Local Open Scope Z_scope.

(** ** Python values the parser handles *)

(** The exceptions that the modelled code and the library calls raise. *)
Inductive exn : Type :=
| StreamError          (* construct: the stream holds too few bytes *)
| MappingError         (* construct: a value outside an enumeration *)
| AttributeError
| KeyError
| TypeError
| ValueError
| UnicodeDecodeError
| InvalidTimestamp      (* the decode failure of the timestamp converter *).

Inductive result (A : Type) : Type :=
| Ok (a : A)
| Raise (e : exn).
Arguments Ok {A} a.
Arguments Raise {A} e.

(** The argument of [stream.read]: an [int], or a [float] (of which only
    the integral value is kept, the code builds floats as [n * 2.]). *)
Inductive pynum : Type :=
| PyInt (n : Z)
| PyFloat (x : Z).

(** [n * 2.] for an [int] n: the product of an int and a float literal
    is a float. *)
Definition mul_float (n : Z) (literal : Z) : pynum := PyFloat (n * literal).

(** A decoded Python [str]: its code points. *)
Definition unicode : Type := list Z.

(** [s.lower()] on the names of the enumerations (ASCII). *)
Definition lower_ascii (c : ascii) : ascii :=
  let n := nat_of_ascii c in
  if ((65 <=? n) && (n <=? 90))%nat then ascii_of_nat (n + 32) else c.

Fixpoint lower (s : string) : string :=
  match s with
  | EmptyString => EmptyString
  | String c rest => String (lower_ascii c) (lower rest)
  end.

(** ** io.BytesIO *)

Record BytesIO : Type := mkBytesIO {
  getvalue : list Z;      (* the buffer, one Z in 0..255 per byte *)
  position : Z            (* the stream position, never negative *)
}.

(** A computation over the stream.  [None]: the computation does not
    return within the fuel it was given. *)
Definition io (A : Type) : Type := BytesIO -> option (result A * BytesIO).

Definition ret {A : Type} (a : A) : io A := fun s => Some (Ok a, s).

Definition raise {A : Type} (e : exn) : io A := fun s => Some (Raise e, s).

Definition bind {A B : Type} (c : io A) (k : A -> io B) : io B :=
  fun s =>
    match c s with
    | Some (Ok a, s') => k a s'
    | Some (Raise e, s') => Some (Raise e, s')
    | None => None
    end.

Notation "x <- c ;; k" := (bind c (fun x => k))
  (at level 62, c at next level, right associativity).
Notation "c ;;; k" := (bind c (fun _ => k))
  (at level 62, right associativity).

(** [try: c  except: handler] with a bare [except] (or [except Exception]):
    every exception of [c] is handled. *)
Definition try_except {A : Type} (c : io A) (handler : exn -> io A) : io A :=
  fun s =>
    match c s with
    | Some (Raise e, s') => handler e s'
    | other => other
    end.

(** [try: c  finally: cleanup]: the cleanup runs on both exits; when it
    raises, its exception replaces the outcome of [c]. *)
Definition try_finally {A : Type} (c : io A) (cleanup : io unit) : io A :=
  fun s =>
    match c s with
    | Some (r, s') =>
        match cleanup s' with
        | Some (Ok _, s'') => Some (r, s'')
        | Some (Raise e, s'') => Some (Raise e, s'')
        | None => None
        end
    | None => None
    end.

Definition of_result {A : Type} (r : result A) : io A :=
  fun s => Some (r, s).

(** [stream.tell()] *)
Definition tell : io Z := fun s => Some (Ok (position s), s).

(** [stream.seek(p)]: a negative position raises ValueError, any other
    becomes the position, also past the end of the buffer. *)
Definition seek (p : Z) : io Z :=
  fun s =>
    if p <? 0 then Some (Raise ValueError, s)
    else Some (Ok p, mkBytesIO (getvalue s) p).

(** The bytes of the buffer from position [p] on. *)
Definition bytes_from (p : Z) (buf : list Z) : list Z :=
  if p <? 0 then buf else drop (Z.to_nat p) buf.

(** [stream.read(size)]: at most [size] bytes, fewer at the end of the
    buffer (a short read is no error); a negative size reads to the end;
    a float argument raises TypeError. *)
Definition read (size : pynum) : io (list Z) :=
  fun s =>
    match size with
    | PyFloat _ => Some (Raise TypeError, s)
    | PyInt n =>
        let rest := bytes_from (position s) (getvalue s) in
        let data := if n <? 0 then rest else take (Z.to_nat n) rest in
        Some (Ok data,
              mkBytesIO (getvalue s) (position s + Z.of_nat (length data)))
    end.

(** [bytes.decode('UTF16')]: little-endian code units unless a byte-order
    mark says otherwise; an odd number of bytes or an unpaired surrogate
    raises UnicodeDecodeError. *)
Fixpoint code_units (big_endian : bool) (fuel : nat) (data : list Z)
  : result (list Z) :=
  match fuel, data with
  | _, [] => Ok []
  | _, [_] => Raise UnicodeDecodeError
  | O, _ => Ok []
  | S fuel', b0 :: b1 :: rest =>
      match code_units big_endian fuel' rest with
      | Ok units =>
          Ok ((if big_endian then b0 * 256 + b1 else b1 * 256 + b0) :: units)
      | Raise e => Raise e
      end
  end.

Fixpoint code_points (fuel : nat) (units : list Z) : result unicode :=
  match fuel, units with
  | _, [] => Ok []
  | O, _ => Ok []
  | S fuel', u :: rest =>
      if (0xD800 <=? u) && (u <=? 0xDBFF) then
        match rest with
        | lo :: rest' =>
            if (0xDC00 <=? lo) && (lo <=? 0xDFFF) then
              match code_points fuel' rest' with
              | Ok cps =>
                  Ok ((0x10000 + (u - 0xD800) * 0x400 + (lo - 0xDC00)) :: cps)
              | Raise e => Raise e
              end
            else Raise UnicodeDecodeError
        | [] => Raise UnicodeDecodeError
        end
      else if (0xDC00 <=? u) && (u <=? 0xDFFF) then Raise UnicodeDecodeError
      else
        match code_points fuel' rest with
        | Ok cps => Ok (u :: cps)
        | Raise e => Raise e
        end
  end.

Definition decode_UTF16 (data : list Z) : result unicode :=
  let '(big_endian, payload) :=
    match data with
    | 0xFF :: 0xFE :: rest => (false, rest)
    | 0xFE :: 0xFF :: rest => (true, rest)
    | _ => (false, data)
    end in
  match code_units big_endian (length payload) payload with
  | Ok units => code_points (length units) units
  | Raise e => Raise e
  end.

(** ** The structures of [src.structures.mft]

    The records below are the containers the parser works with: the
    fields [mft.py] and its caller [tasks.py] read, and those the
    specification lists in its data model. *)

(** [datetime.datetime], always in UTC. *)
Record datetime : Type := mkdatetime {
  year : Z; month : Z; day : Z;
  hour : Z; minute : Z; second : Z; microsecond : Z
}.

Record FileReference : Type := mkFileReference {
  SegmentNumber : Z;
  FR_SequenceNumber : Z
}.

(** The fields of the entry header apart from the signature. *)
Record EntryHeaderFields : Type := mkEntryHeaderFields {
  LogFileSequenceNumber : Z;
  SequenceNumber : Z;
  ReferenceCount : Z;
  FirstAttributeOffset : Z;
  ACTIVE : bool;
  HAS_INDEX : bool;
  UsedSize : Z;
  TotalSize : Z;
  BaseFileRecordSegment : FileReference;
  FirstAttributeId : Z;
  MFTRecordNumber : Z
}.

(** What [MFTEntryHeader.parse_stream] yields: the magic number is the
    field [MultiSectorHeader.RawSignature]. *)
Record MFTEntryHeader : Type := mkMFTEntryHeader {
  RawSignature : Z;
  RawFields : EntryHeaderFields
}.

(** What [_parse_entry_header] returns: [Signature] added, the raw magic
    removed by [_clean_transform]. *)
Record EntryHeader : Type := mkEntryHeader {
  Signature : string;
  Fields : EntryHeaderFields
}.

(** The resident form of an attribute header, [header.Form]. *)
Record ResidentForm : Type := mkResidentForm {
  ValueLength : Z;
  ValueOffset : Z;
  ResidentFlags : Z
}.

(** An attribute header.  [TypeCode] is the name of the enumeration
    member ([mft.py] compares it with a string and lower-cases it).
    [Form] is absent for a header that has no resident form. [Name] is
    the field that [_parse_attribute_header] adds. *)
Record AttributeHeader : Type := mkAttributeHeader {
  TypeCode : string;
  RecordLength : Z;
  FormCode : Z;
  NameLength : Z;
  NameOffset : Z;
  AttributeFlags : Z;
  AttributeId : Z;
  Form : option ResidentForm;
  Name : option unicode
}.

Definition with_Name (h : AttributeHeader) (name : option unicode)
  : AttributeHeader :=
  mkAttributeHeader (TypeCode h) (RecordLength h) (FormCode h) (NameLength h)
    (NameOffset h) (AttributeFlags h) (AttributeId h) (Form h) name.

(** [MFTStandardInformationAttribute]: the four raw FILETIME values. *)
Record MFTStandardInformationAttribute : Type := mkMFTStandardInformation {
  SI_RawCreateTime : Z;
  SI_RawLastModifiedTime : Z;
  SI_RawEntryModifiedTime : Z;
  SI_RawLastAccessTime : Z;
  SI_FileAttributeFlags : Z
}.

Record StandardInformation : Type := mkStandardInformation {
  SI_CreateTime : datetime;
  SI_LastModifiedTime : datetime;
  SI_EntryModifiedTime : datetime;
  SI_LastAccessTime : datetime;
  FileAttributeFlags : Z
}.

Record MFTFileNameAttribute : Type := mkMFTFileName {
  FN_ParentDirectory : FileReference;
  FN_RawCreateTime : Z;
  FN_RawLastModifiedTime : Z;
  FN_RawEntryModifiedTime : Z;
  FN_RawLastAccessTime : Z;
  FN_AllocatedSize : Z;
  FN_FileSize : Z;
  FN_Flags : Z;
  FN_FileNameLength : Z;
  FN_Namespace : Z
}.

Record FileNameAttribute : Type := mkFileName {
  ParentDirectory : FileReference;
  CreateTime : datetime;
  LastModifiedTime : datetime;
  EntryModifiedTime : datetime;
  LastAccessTime : datetime;
  AllocatedSize : Z;
  FileSize : Z;
  Flags : Z;
  FileNameLength : Z;
  Namespace : Z;
  FileName : unicode
}.

(** An entry of an attribute list; [AttributeName] is the field that
    [_parse_attribute_list] adds. *)
Record AttributeListEntry : Type := mkAttributeListEntry {
  AttributeTypeCode : string;
  ALE_RecordLength : Z;
  AttributeNameLength : Z;
  AttributeNameOffset : Z;
  LowestVcn : Z;
  SegmentReference : FileReference;
  ALE_AttributeId : Z;
  AttributeName : unicode
}.

Definition with_AttributeName (e : AttributeListEntry) (name : unicode)
  : AttributeListEntry :=
  mkAttributeListEntry (AttributeTypeCode e) (ALE_RecordLength e)
    (AttributeNameLength e) (AttributeNameOffset e) (LowestVcn e)
    (SegmentReference e) (ALE_AttributeId e) name.

Record ObjectID : Type := mkObjectID {
  ObjectIDValue : Z;
  BirthVolumeID : Z;
  BirthObjectID : Z;
  DomainID : Z
}.

Record MFTSecurityDescriptorHeader : Type := mkSecurityDescriptorHeader {
  SDH_Revision : Z;
  SDH_Control : Z;
  OwnerSIDOffset : Z;
  GroupSIDOffset : Z;
  SACLOffset : Z;
  DACLOffset : Z
}.

Record NTFSSID : Type := mkNTFSSID {
  SID_Revision : Z;
  IdentifierAuthority : Z;
  SubAuthorities : list Z
}.

Record MFTACLHeader : Type := mkACLHeader {
  AclRevision : Z;
  AclSize : Z;
  AceCount : Z
}.

Record MFTACEHeader : Type := mkACEHeader {
  AceType : Z;
  AceFlags : Z;
  AceSize : Z
}.

(** [ace = Container(); ace.header = ...; ace.body = None] *)
Record ACE : Type := mkACE {
  ace_header : MFTACEHeader;
  ace_body : option unit
}.

(** The container [acl] that [_parse_access_control_list] fills by
    attribute name; an attribute holds the header or the list of entries. *)
Inductive acl_item : Type :=
| AclHeaderItem (h : MFTACLHeader)
| AclBodyItem (entries : list ACE).

Definition Container (V : Type) : Type := list (string * V).

Definition ACL : Type := Container acl_item.

Record SecurityDescriptor : Type := mkSecurityDescriptor {
  Revision : Z;
  Control : Z;
  OwnerSID : NTFSSID;
  GroupSID : NTFSSID;
  SACL : option ACL;
  DACL : option ACL
}.

Record VolumeInformation : Type := mkVolumeInformation {
  MajorVersion : Z;
  MinorVersion : Z;
  VolumeFlags : Z
}.

(** The body of a decoded attribute, by the structure that parsed it. *)
Inductive Body : Type :=
| BStandardInformation (b : StandardInformation)
| BAttributeList (b : gmap string (list AttributeListEntry))
| BFileName (b : FileNameAttribute)
| BObjectID (b : ObjectID)
| BSecurityDescriptor (b : SecurityDescriptor)
| BVolumeName (b : unicode)
| BVolumeInformation (b : VolumeInformation).

(** [next_attribute]: the container with the keys [header] and [body];
    [body] is None when the body parser returned None. *)
Record Attribute : Type := mkAttribute {
  header : AttributeHeader;
  body : option Body
}.

(** A [construct] declaration, through its [parse_stream]: from the
    buffer and the position to the parsed value (or the exception) and
    the position the stream is left at. *)
Definition parser (A : Type) : Type := list Z -> Z -> result A * Z.

(** What [mft.py] imports from the rest of the repository. *)
Record Structs : Type := mkStructs {
  MFTEntryHeader_parser : parser MFTEntryHeader;
  MFTAttributeTypeCode_parser : parser string;
  MFTAttributeHeader_parser : parser AttributeHeader;
  MFTStandardInformationAttribute_parser :
    parser MFTStandardInformationAttribute;
  MFTFileNameAttribute_parser : parser MFTFileNameAttribute;
  MFTAttributeListEntry_parser : parser AttributeListEntry;
  MFTObjectID_parser : parser ObjectID;
  MFTSecurityDescriptorHeader_parser : parser MFTSecurityDescriptorHeader;
  NTFSSID_parser : parser NTFSSID;
  MFTACLHeader_parser : parser MFTACLHeader;
  MFTACLHeader_sizeof : Z;
  MFTACEHeader_parser : parser MFTACEHeader;
  MFTVolumeInformation_parser : parser VolumeInformation;
  (* WindowsTime(raw).parse() of src.utils.time *)
  WindowsTime_parse : Z -> result datetime
}.

(** [struct.parse_stream(stream)] *)
Definition parse_stream {A : Type} (p : parser A) : io A :=
  fun s =>
    let '(r, q) := p (getvalue s) (position s) in
    Some (r, mkBytesIO (getvalue s) q).

(** Attribute access on a container: a missing key is an AttributeError.
    Keys are case sensitive. *)
Fixpoint lookup_key {V : Type} (c : Container V) (key : string) : option V :=
  match c with
  | [] => None
  | (k, v) :: rest => if String.eqb k key then Some v else lookup_key rest key
  end.

Definition getattr {V : Type} (c : Container V) (key : string) : io V :=
  match lookup_key c key with
  | Some v => ret v
  | None => raise AttributeError
  end.

(** [c.key = v] *)
Fixpoint setattr {V : Type} (c : Container V) (key : string) (v : V)
  : Container V :=
  match c with
  | [] => [(key, v)]
  | (k, w) :: rest =>
      if String.eqb k key then (k, v) :: rest else (k, w) :: setattr rest key v
  end.

(** Attribute access on a value that may be None. *)
Definition not_None {A : Type} (v : option A) : io A :=
  match v with
  | Some a => ret a
  | None => raise AttributeError
  end.

(** [_clean_transform]: drops from a container, recursively, the keys
    that start with [Raw] or [_].  The records above are the containers
    without those keys, so on them it changes nothing. *)
Definition _clean_transform {A : Type} (value : A) : A := value.

(** A loop that is still running when the fuel is used up. *)
Definition out_of_fuel {A : Type} : io A := fun _ => None.

(** ** class MFTEntry *)

(** The object: the ten attribute lists (the keys set by [__init__]),
    and the items [header], [_raw_entry] and [_stream].  [entry_header]
    is None until [parse] has stored the header. *)
Record MFTEntry : Type := mkMFTEntry {
  attributes : gmap string (list Attribute);
  entry_header : option EntryHeader;
  _raw_entry : list Z;
  _stream : option BytesIO
}.

(** The keys that [__init__] binds to [list()]. *)
Definition attribute_keys : list string :=
  [ "standard_information"; "attribute_list"; "file_name"; "object_id";
    "security_descriptor"; "volume_name"; "volume_information"; "data";
    "index_root"; "index_allocation" ].

(** [MFTEntry(raw_entry)] (with [load=False]; [load=True] calls [parse]
    on the object built here). *)
Definition __init__ (raw_entry : list Z) : MFTEntry :=
  mkMFTEntry
    (foldl (fun self attribute => <[attribute := []]> self) ∅ attribute_keys)
    None raw_entry None.

(** [key in self] while [parse] scans: the attribute lists, and the
    three other items of the object, which are keys of the same
    container. *)
Definition contains (self : gmap string (list Attribute)) (key : string)
  : bool :=
  bool_decide (key ∈ dom self)
  || String.eqb key "header" || String.eqb key "_raw_entry"
  || String.eqb key "_stream".

(** ** Equality of the values

    Equality is decidable on every value the parser returns, so an
    equation between closed values is settled by evaluation. *)

#[global] Instance exn_eq_dec : EqDecision exn.
Proof. solve_decision. Defined.

#[global] Instance result_eq_dec {A : Type} `{EqDecision A} :
  EqDecision (result A).
Proof. solve_decision. Defined.

#[global] Instance pynum_eq_dec : EqDecision pynum.
Proof. solve_decision. Defined.

#[global] Instance BytesIO_eq_dec : EqDecision BytesIO.
Proof. solve_decision. Defined.

#[global] Instance datetime_eq_dec : EqDecision datetime.
Proof. solve_decision. Defined.

#[global] Instance FileReference_eq_dec : EqDecision FileReference.
Proof. solve_decision. Defined.

#[global] Instance EntryHeaderFields_eq_dec : EqDecision EntryHeaderFields.
Proof. solve_decision. Defined.

#[global] Instance MFTEntryHeader_eq_dec : EqDecision MFTEntryHeader.
Proof. solve_decision. Defined.

#[global] Instance EntryHeader_eq_dec : EqDecision EntryHeader.
Proof. solve_decision. Defined.

#[global] Instance ResidentForm_eq_dec : EqDecision ResidentForm.
Proof. solve_decision. Defined.

#[global] Instance AttributeHeader_eq_dec : EqDecision AttributeHeader.
Proof. solve_decision. Defined.

#[global] Instance MFTStandardInformationAttribute_eq_dec : EqDecision MFTStandardInformationAttribute.
Proof. solve_decision. Defined.

#[global] Instance StandardInformation_eq_dec : EqDecision StandardInformation.
Proof. solve_decision. Defined.

#[global] Instance MFTFileNameAttribute_eq_dec : EqDecision MFTFileNameAttribute.
Proof. solve_decision. Defined.

#[global] Instance FileNameAttribute_eq_dec : EqDecision FileNameAttribute.
Proof. solve_decision. Defined.

#[global] Instance AttributeListEntry_eq_dec : EqDecision AttributeListEntry.
Proof. solve_decision. Defined.

#[global] Instance ObjectID_eq_dec : EqDecision ObjectID.
Proof. solve_decision. Defined.

#[global] Instance MFTSecurityDescriptorHeader_eq_dec : EqDecision MFTSecurityDescriptorHeader.
Proof. solve_decision. Defined.

#[global] Instance NTFSSID_eq_dec : EqDecision NTFSSID.
Proof. solve_decision. Defined.

#[global] Instance MFTACLHeader_eq_dec : EqDecision MFTACLHeader.
Proof. solve_decision. Defined.

#[global] Instance MFTACEHeader_eq_dec : EqDecision MFTACEHeader.
Proof. solve_decision. Defined.

#[global] Instance ACE_eq_dec : EqDecision ACE.
Proof. solve_decision. Defined.

#[global] Instance acl_item_eq_dec : EqDecision acl_item.
Proof. solve_decision. Defined.

#[global] Instance SecurityDescriptor_eq_dec : EqDecision SecurityDescriptor.
Proof. solve_decision. Defined.

#[global] Instance VolumeInformation_eq_dec : EqDecision VolumeInformation.
Proof. solve_decision. Defined.

#[global] Instance Body_eq_dec : EqDecision Body.
Proof. solve_decision. Defined.

#[global] Instance Attribute_eq_dec : EqDecision Attribute.
Proof. solve_decision. Defined.

#[global] Instance MFTEntry_eq_dec : EqDecision MFTEntry.
Proof. solve_decision. Defined.

(** Proves an equation between closed values by evaluating the
    decision of the equality. *)
Ltac by_decision := apply (bool_decide_unpack _); vm_compute; exact I.

Section Parser.

Variable st : Structs.

(** [parse_structure(structure, *args)]: looks the method
    [_parse_<structure>] up ([None] here: there is no such method, the
    call logs and returns None), notes the position of the stream, calls
    the method with it and turns every exception into None.
    [_prepare_kwargs] adds no argument but [header=self.header] for
    [_parse_next_attribute], which the caller below passes itself. *)
Definition parse_structure {A : Type} (structure_parser : option (Z -> io A))
  : io (option A) :=
  match structure_parser with
  | None => ret None
  | Some method =>
      original_position <- tell ;;
      try_except
        (value <- method original_position ;; ret (Some value))
        (fun _ => ret None)
  end.

Definition _parse_index_allocation (original_position : Z)
  (attribute_header : AttributeHeader) : io (option Body) := ret None.

Definition _parse_index_root (original_position : Z)
  (attribute_header : AttributeHeader) : io (option Body) := ret None.

Definition _parse_data (original_position : Z)
  (attribute_header : AttributeHeader) : io (option Body) := ret None.

Definition _parse_volume_information (original_position : Z)
  (attribute_header : AttributeHeader) : io VolumeInformation :=
  v <- parse_stream (MFTVolumeInformation_parser st) ;;
  ret (_clean_transform v).

Definition _parse_volume_name (original_position : Z)
  (attribute_header : AttributeHeader) : io unicode :=
  form <- not_None (Form attribute_header) ;;
  data <- read (PyInt (ValueLength form)) ;;
  of_result (decode_UTF16 data).

(** The [while] loop of [_parse_access_control_list]; [body] is
    [acl.body]. *)
Fixpoint access_control_entries (fuel : nat) (acl_position acl_size : Z)
  (body : list ACE) : io (list ACE) :=
  position_now <- tell ;;
  if position_now - acl_position <? acl_size then
    match fuel with
    | O => out_of_fuel
    | S fuel' =>
        ace_position <- tell ;;
        step <- try_except
          (ace_h <- parse_stream (MFTACEHeader_parser st) ;;
           let body' := body ++ [mkACE ace_h None] in
           try_except
             (seek (ace_position + AceSize ace_h) ;;; ret (body', true))
             (fun _ => ret (body', false)))
          (fun _ => ret (body, false)) ;;
        let '(body', continue) := step in
        if continue : bool
        then access_control_entries fuel' acl_position acl_size body'
        else ret body'
    end
  else ret body.

Definition _parse_access_control_list (fuel : nat) : io (option ACL) :=
  try_except
    (let acl : ACL := [] in
     acl_h <- parse_stream (MFTACLHeader_parser st) ;;
     let acl := setattr acl "header" (AclHeaderItem acl_h) in
     acl_position <- tell ;;
     item <- getattr acl "Header" ;;
     acl_size <- match item with
                 | AclHeaderItem h => ret (AclSize h - MFTACLHeader_sizeof st)
                 | AclBodyItem _ => raise AttributeError
                 end ;;
     let acl := setattr acl "body" (AclBodyItem []) in
     body <- access_control_entries fuel acl_position acl_size [] ;;
     ret (Some (_clean_transform (setattr acl "body" (AclBodyItem body)))))
    (fun _ => ret None).

Definition _parse_security_descriptor (fuel : nat) (original_position : Z)
  (attribute_header : AttributeHeader) : io SecurityDescriptor :=
  header_position <- tell ;;
  sd_h <- parse_stream (MFTSecurityDescriptorHeader_parser st) ;;
  seek (header_position + OwnerSIDOffset sd_h) ;;;
  owner <- parse_stream (NTFSSID_parser st) ;;
  seek (header_position + GroupSIDOffset sd_h) ;;;
  group <- parse_stream (NTFSSID_parser st) ;;
  seek (header_position + SACLOffset sd_h) ;;;
  sacl <- _parse_access_control_list fuel ;;
  seek (header_position + DACLOffset sd_h) ;;;
  dacl <- _parse_access_control_list fuel ;;
  ret (_clean_transform
         (mkSecurityDescriptor (SDH_Revision sd_h) (SDH_Control sd_h)
            owner group sacl dacl)).

Definition _parse_object_id (original_position : Z)
  (attribute_header : AttributeHeader) : io ObjectID :=
  object_id <- parse_stream (MFTObjectID_parser st) ;;
  ret (_clean_transform object_id).

Definition _parse_file_name (original_position : Z)
  (attribute_header : AttributeHeader) : io FileNameAttribute :=
  file_name <- parse_stream (MFTFileNameAttribute_parser st) ;;
  create <- of_result (WindowsTime_parse st (FN_RawCreateTime file_name)) ;;
  modified <-
    of_result (WindowsTime_parse st (FN_RawLastModifiedTime file_name)) ;;
  entry_modified <-
    of_result (WindowsTime_parse st (FN_RawEntryModifiedTime file_name)) ;;
  access <- of_result (WindowsTime_parse st (FN_RawLastAccessTime file_name)) ;;
  data <- read (PyInt (FN_FileNameLength file_name * 2)) ;;
  name <- of_result (decode_UTF16 data) ;;
  ret (_clean_transform
         (mkFileName (FN_ParentDirectory file_name) create modified
            entry_modified access (FN_AllocatedSize file_name)
            (FN_FileSize file_name) (FN_Flags file_name)
            (FN_FileNameLength file_name) (FN_Namespace file_name) name)).

(** The [try] of the loop of [_parse_attribute_list]: the entry with its
    name, or None when the loop is to [break]. *)
Definition attribute_list_entry (AL_original_position : Z)
  : io (option AttributeListEntry) :=
  try_except
    (entry <- parse_stream (MFTAttributeListEntry_parser st) ;;
     if String.eqb (AttributeTypeCode entry) "END_OF_ATTRIBUTES"
     then ret None
     else
       seek (AL_original_position + AttributeNameOffset entry) ;;;
       data <- read (PyInt (AttributeNameLength entry * 2)) ;;
       name <- of_result (decode_UTF16 data) ;;
       ret (Some (with_AttributeName entry name)))
    (fun _ => ret None).

(** The [while] loop of [_parse_attribute_list]. *)
Fixpoint attribute_list_entries (fuel : nat)
  (attribute_header : AttributeHeader)
  (entries : gmap string (list AttributeListEntry))
  : io (gmap string (list AttributeListEntry)) :=
  position_now <- tell ;;
  form <- not_None (Form attribute_header) ;;
  if position_now <? ValueLength form then
    match fuel with
    | O => out_of_fuel
    | S fuel' =>
        AL_original_position <- tell ;;
        step <- attribute_list_entry AL_original_position ;;
        match step with
        | None => ret entries
        | Some entry =>
            let key := lower (AttributeTypeCode entry) in
            let entries' :=
              <[key := default [] (entries !! key) ++ [entry]]> entries in
            seek (AL_original_position + ALE_RecordLength entry) ;;;
            attribute_list_entries fuel' attribute_header entries'
        end
    end
  else ret entries.

Definition _parse_attribute_list (fuel : nat) (original_position : Z)
  (attribute_header : AttributeHeader)
  : io (gmap string (list AttributeListEntry)) :=
  entries <- attribute_list_entries fuel attribute_header ∅ ;;
  ret (_clean_transform entries).

Definition _parse_standard_information (original_position : Z)
  (attribute_header : AttributeHeader) : io StandardInformation :=
  si <- parse_stream (MFTStandardInformationAttribute_parser st) ;;
  create <- of_result (WindowsTime_parse st (SI_RawCreateTime si)) ;;
  modified <- of_result (WindowsTime_parse st (SI_RawLastModifiedTime si)) ;;
  entry_modified <-
    of_result (WindowsTime_parse st (SI_RawEntryModifiedTime si)) ;;
  access <- of_result (WindowsTime_parse st (SI_RawLastAccessTime si)) ;;
  ret (_clean_transform
         (mkStandardInformation create modified entry_modified access
            (SI_FileAttributeFlags si))).

Definition _parse_attribute_header (original_position : Z)
  : io AttributeHeader :=
  attribute_header <- parse_stream (MFTAttributeHeader_parser st) ;;
  if NameLength attribute_header >? 0 then
    name <- try_except
      (seek (original_position + NameOffset attribute_header) ;;;
       data <- read (mul_float (NameLength attribute_header) 2) ;;
       text <- of_result (decode_UTF16 data) ;;
       ret (Some text))
      (fun _ => ret None) ;;
    ret (_clean_transform (with_Name attribute_header name))
  else
    ret (_clean_transform (with_Name attribute_header None)).

(** [getattr(self, '_parse_' + structure, None)] for the structure named
    by a lower-cased type code, as [parse_structure] calls it with the
    attribute header for argument.  The four other methods of that name
    pattern take no such argument, the call raises TypeError; any other
    name is no method of the class. *)
Definition body_parser (fuel : nat) (structure : string)
  (attribute_header : AttributeHeader) : option (Z -> io (option Body)) :=
  let call {A : Type} (method : Z -> AttributeHeader -> io A)
    (wrap : A -> option Body) : option (Z -> io (option Body)) :=
    Some (fun original_position =>
            value <- method original_position attribute_header ;;
            ret (wrap value)) in
  if String.eqb structure "standard_information" then
    call _parse_standard_information (fun b => Some (BStandardInformation b))
  else if String.eqb structure "attribute_list" then
    call (_parse_attribute_list fuel) (fun b => Some (BAttributeList b))
  else if String.eqb structure "file_name" then
    call _parse_file_name (fun b => Some (BFileName b))
  else if String.eqb structure "object_id" then
    call _parse_object_id (fun b => Some (BObjectID b))
  else if String.eqb structure "security_descriptor" then
    call (_parse_security_descriptor fuel)
      (fun b => Some (BSecurityDescriptor b))
  else if String.eqb structure "volume_name" then
    call _parse_volume_name (fun b => Some (BVolumeName b))
  else if String.eqb structure "volume_information" then
    call _parse_volume_information (fun b => Some (BVolumeInformation b))
  else if String.eqb structure "data" then
    call _parse_data (fun b => b)
  else if String.eqb structure "index_root" then
    call _parse_index_root (fun b => b)
  else if String.eqb structure "index_allocation" then
    call _parse_index_allocation (fun b => b)
  else if String.eqb structure "access_control_list"
       || String.eqb structure "attribute_header"
       || String.eqb structure "next_attribute"
       || String.eqb structure "entry_header" then
    Some (fun _ => raise TypeError)
  else None.

Definition _parse_next_attribute (fuel : nat) (original_position : Z)
  (entry_header : EntryHeader) : io (option string * option Attribute) :=
  type_code <- parse_stream (MFTAttributeTypeCode_parser st) ;;
  if String.eqb type_code "END_OF_ATTRIBUTES" then ret (None, None)
  else
    seek original_position ;;;
    next_attribute_header <-
      parse_structure (Some _parse_attribute_header) ;;
    try_finally
      (try_except
         (h <- not_None next_attribute_header ;;
          if negb (FormCode h =? 0) then ret (Some (TypeCode h), None)
          else
            form <- not_None (Form h) ;;
            seek (original_position + ValueOffset form) ;;;
            next_attribute_body <-
              parse_structure (body_parser fuel (lower (TypeCode h)) h) ;;
            ret (Some (TypeCode h),
                 Some (_clean_transform
                         (mkAttribute h (mjoin next_attribute_body)))))
         (fun _ =>
            h <- not_None next_attribute_header ;;
            ret (Some (TypeCode h), None)))
      (h <- not_None next_attribute_header ;;
       seek (original_position + RecordLength h) ;;;
       ret tt).

Definition _parse_entry_header (original_position : Z) : io EntryHeader :=
  h <- parse_stream (MFTEntryHeader_parser st) ;;
  let signature :=
    if RawSignature h =? 0x454c4946 then "FILE"
    else if RawSignature h =? 0x44414142 then "BAAD"
    else "CRPT" in
  ret (_clean_transform (mkEntryHeader signature (RawFields h))).

(** [get_stream]: a new stream over the raw entry, at position 0. *)
Definition get_stream (self : MFTEntry) : BytesIO :=
  mkBytesIO (_raw_entry self) 0.

(** The [while] loop of [parse]; [self] is the map of the attribute
    lists.  Unpacking the None that [parse_structure] returns when
    [_parse_next_attribute] raised is a TypeError; [append] on an item
    of the object that is no list is an AttributeError. *)
Fixpoint scan_attributes (fuel : nat) (entry_header : EntryHeader)
  (self : gmap string (list Attribute)) : io (gmap string (list Attribute)) :=
  position_now <- tell ;;
  if position_now <? UsedSize (Fields entry_header) then
    match fuel with
    | O => out_of_fuel
    | S fuel' =>
        next <- parse_structure
          (Some (fun original_position =>
                   _parse_next_attribute fuel' original_position
                     entry_header)) ;;
        match next with
        | None => raise TypeError
        | Some (None, _) => ret self
        | Some (Some attribute_type, attribute_data) =>
            let key := lower attribute_type in
            if negb (contains self key) then
              scan_attributes fuel' entry_header self
            else
              match attribute_data with
              | None => scan_attributes fuel' entry_header self
              | Some data =>
                  match self !! key with
                  | Some already =>
                      scan_attributes fuel' entry_header
                        (<[key := already ++ [data]]> self)
                  | None => raise AttributeError
                  end
              end
        end
    end
  else ret self.

(** The body of the [try] of [parse], on the stream. *)
Definition parse_body (fuel : nat) (self : MFTEntry)
  : io (EntryHeader * gmap string (list Attribute)) :=
  parsed_header <- parse_structure (Some _parse_entry_header) ;;
  h <- not_None parsed_header ;;
  seek (FirstAttributeOffset (Fields h)) ;;;
  lists <- scan_attributes fuel h (attributes self) ;;
  ret (h, lists).

(** [parse]: returns the object itself, with the header and the
    attribute lists filled and the stream closed and dropped by the
    [finally]; or raises.  None: the call does not return within the
    fuel. *)
Definition parse (fuel : nat) (self : MFTEntry) : option (result MFTEntry) :=
  match parse_body fuel self (get_stream self) with
  | None => None
  | Some (Ok (h, lists), _) =>
      Some (Ok (mkMFTEntry lists (Some h) (_raw_entry self) None))
  | Some (Raise e, _) => Some (Raise e)
  end.

End Parser.

Arguments parse_structure : simpl never.
Arguments _parse_next_attribute : simpl never.

(** ** The on-disk layouts

    [src/structures/mft.py] and [src/utils/time.py] are not part of the
    sources at hand.  The general theorems below hold for every
    [Structs]; the instance [spec_structs] of this section is what the
    examples on concrete buffers run with. *)

(** An unsigned little-endian integer. *)
Definition le_uint (data : list Z) : Z :=
  foldr (fun b acc => b + 256 * acc) 0 data.

(** An unsigned big-endian integer. *)
Definition be_uint (data : list Z) : Z :=
  foldl (fun acc b => 256 * acc + b) 0 data.

(** The [width] bytes at offset [p] of the buffer, or None when the
    buffer ends before. *)
Definition bytes_at (width : nat) (buf : list Z) (p : Z) : option (list Z) :=
  let data := take width (bytes_from p buf) in
  if (length data =? width)%nat then Some data else None.

Definition uint_at (width : nat) (buf : list Z) (p : Z) : option Z :=
  le_uint <$> bytes_at width buf p.

(** A fixed-size structure as a [parser]: the stream is left behind the
    structure when it parses, and at the end of the buffer when the
    buffer is too short (the read that fails has consumed the rest). *)
Definition fixed_struct {A : Type} (size : Z)
  (decode : list Z -> Z -> option A) : parser A :=
  fun buf p =>
    match decode buf p with
    | Some a => (Ok a, p + size)
    | None => (Raise StreamError, Z.max p (Z.of_nat (length buf)))
    end.

Module Layout.

(** Modelled from the spec: the fixed entry header ([MFTEntryHeader] of
    the missing [src/structures/mft.py]), by the table of section 6 of
    the specification; 48 bytes. *)
Definition entry_header (buf : list Z) (p : Z) : option MFTEntryHeader :=
  magic ← uint_at 4 buf p;
  lsn ← uint_at 8 buf (p + 8);
  sequence_number ← uint_at 2 buf (p + 16);
  reference_count ← uint_at 2 buf (p + 18);
  first_attribute_offset ← uint_at 2 buf (p + 20);
  flags ← uint_at 2 buf (p + 22);
  used_size ← uint_at 4 buf (p + 24);
  total_size ← uint_at 4 buf (p + 28);
  base_segment ← uint_at 6 buf (p + 32);
  base_sequence ← uint_at 2 buf (p + 38);
  first_attribute_id ← uint_at 2 buf (p + 40);
  record_number ← uint_at 4 buf (p + 44);
  Some (mkMFTEntryHeader magic
          (mkEntryHeaderFields lsn sequence_number reference_count
             first_attribute_offset (Z.testbit flags 0) (Z.testbit flags 1)
             used_size total_size (mkFileReference base_segment base_sequence)
             first_attribute_id record_number)).

(** Modelled from the spec: the enumeration [MFTAttributeTypeCode] of
    the missing [src/structures/mft.py]: the closed set of type codes of
    section 3 under their NTFS numbers, the sentinel 0xFFFFFFFF, and
    UNKNOWN for an unmapped value. *)
Definition type_code_name (raw : Z) : string :=
  if raw =? 0x10 then "STANDARD_INFORMATION"
  else if raw =? 0x20 then "ATTRIBUTE_LIST"
  else if raw =? 0x30 then "FILE_NAME"
  else if raw =? 0x40 then "OBJECT_ID"
  else if raw =? 0x50 then "SECURITY_DESCRIPTOR"
  else if raw =? 0x60 then "VOLUME_NAME"
  else if raw =? 0x70 then "VOLUME_INFORMATION"
  else if raw =? 0x80 then "DATA"
  else if raw =? 0x90 then "INDEX_ROOT"
  else if raw =? 0xA0 then "INDEX_ALLOCATION"
  else if raw =? 0xFFFFFFFF then "END_OF_ATTRIBUTES"
  else "UNKNOWN".

Definition type_code (buf : list Z) (p : Z) : option string :=
  type_code_name <$> uint_at 4 buf p.

(** Modelled from the spec: the attribute header ([MFTAttributeHeader]
    of the missing [src/structures/mft.py]), by section 6:
    type_code(4) record_length(4) form_code(1) name_length(1)
    name_offset(2) flags(2) attribute_id(2), then for the resident form
    value_length(4) value_offset(2) resident_flags(1). *)
Definition attribute_header (buf : list Z) (p : Z)
  : option (AttributeHeader * Z) :=
  code ← type_code buf p;
  record_length ← uint_at 4 buf (p + 4);
  form_code ← uint_at 1 buf (p + 8);
  name_length ← uint_at 1 buf (p + 9);
  name_offset ← uint_at 2 buf (p + 10);
  flags ← uint_at 2 buf (p + 12);
  attribute_id ← uint_at 2 buf (p + 14);
  if form_code =? 0 then
    value_length ← uint_at 4 buf (p + 16);
    value_offset ← uint_at 2 buf (p + 20);
    resident_flags ← uint_at 1 buf (p + 22);
    Some (mkAttributeHeader code record_length form_code name_length
            name_offset flags attribute_id
            (Some (mkResidentForm value_length value_offset resident_flags))
            None, 23)
  else
    Some (mkAttributeHeader code record_length form_code name_length
            name_offset flags attribute_id None None, 16).

Definition attribute_header_parser : parser AttributeHeader :=
  fun buf p =>
    match attribute_header buf p with
    | Some (h, size) => (Ok h, p + size)
    | None => (Raise StreamError, Z.max p (Z.of_nat (length buf)))
    end.

(** Modelled from the spec: the bodies of section 3 and 4.4 of the
    specification ([MFTStandardInformationAttribute],
    [MFTFileNameAttribute], [MFTAttributeListEntry], [MFTObjectID],
    [MFTVolumeInformation] of the missing [src/structures/mft.py]), the
    fields in the order of the NTFS on-disk format. *)
Definition standard_information (buf : list Z) (p : Z)
  : option MFTStandardInformationAttribute :=
  create ← uint_at 8 buf p;
  modified ← uint_at 8 buf (p + 8);
  entry_modified ← uint_at 8 buf (p + 16);
  access ← uint_at 8 buf (p + 24);
  file_attributes ← uint_at 4 buf (p + 32);
  Some (mkMFTStandardInformation create modified entry_modified access
          file_attributes).

Definition file_name (buf : list Z) (p : Z) : option MFTFileNameAttribute :=
  parent_segment ← uint_at 6 buf p;
  parent_sequence ← uint_at 2 buf (p + 6);
  create ← uint_at 8 buf (p + 8);
  modified ← uint_at 8 buf (p + 16);
  entry_modified ← uint_at 8 buf (p + 24);
  access ← uint_at 8 buf (p + 32);
  allocated_size ← uint_at 8 buf (p + 40);
  real_size ← uint_at 8 buf (p + 48);
  flags ← uint_at 4 buf (p + 56);
  name_length ← uint_at 1 buf (p + 64);
  namespace ← uint_at 1 buf (p + 65);
  Some (mkMFTFileName (mkFileReference parent_segment parent_sequence)
          create modified entry_modified access allocated_size real_size
          flags name_length namespace).

Definition attribute_list_entry (buf : list Z) (p : Z)
  : option AttributeListEntry :=
  code ← type_code buf p;
  record_length ← uint_at 2 buf (p + 4);
  name_length ← uint_at 1 buf (p + 6);
  name_offset ← uint_at 1 buf (p + 7);
  lowest_vcn ← uint_at 8 buf (p + 8);
  segment ← uint_at 6 buf (p + 16);
  sequence ← uint_at 2 buf (p + 22);
  attribute_id ← uint_at 2 buf (p + 24);
  Some (mkAttributeListEntry code record_length name_length name_offset
          lowest_vcn (mkFileReference segment sequence) attribute_id []).

Definition object_id (buf : list Z) (p : Z) : option ObjectID :=
  object ← uint_at 16 buf p;
  birth_volume ← uint_at 16 buf (p + 16);
  birth_object ← uint_at 16 buf (p + 32);
  domain ← uint_at 16 buf (p + 48);
  Some (mkObjectID object birth_volume birth_object domain).

Definition volume_information (buf : list Z) (p : Z)
  : option VolumeInformation :=
  major ← uint_at 1 buf (p + 8);
  minor ← uint_at 1 buf (p + 9);
  flags ← uint_at 2 buf (p + 10);
  Some (mkVolumeInformation major minor flags).

(** Modelled from the spec: the security descriptor of section 3
    ([MFTSecurityDescriptorHeader], [NTFSSID], [MFTACLHeader],
    [MFTACEHeader] of the missing [src/structures/mft.py]), in the
    self-relative layout of the NTFS on-disk format. *)
Definition security_descriptor_header (buf : list Z) (p : Z)
  : option MFTSecurityDescriptorHeader :=
  revision ← uint_at 1 buf p;
  control ← uint_at 2 buf (p + 2);
  owner ← uint_at 4 buf (p + 4);
  group ← uint_at 4 buf (p + 8);
  sacl ← uint_at 4 buf (p + 12);
  dacl ← uint_at 4 buf (p + 16);
  Some (mkSecurityDescriptorHeader revision control owner group sacl dacl).

Fixpoint sub_authorities (count : nat) (buf : list Z) (p : Z)
  : option (list Z) :=
  match count with
  | O => Some []
  | S count' =>
      first ← uint_at 4 buf p;
      rest ← sub_authorities count' buf (p + 4);
      Some (first :: rest)
  end.

Definition sid_parser : parser NTFSSID :=
  fun buf p =>
    match
      (revision ← uint_at 1 buf p;
       count ← uint_at 1 buf (p + 1);
       authority ← be_uint <$> bytes_at 6 buf (p + 2);
       subs ← sub_authorities (Z.to_nat count) buf (p + 8);
       Some (mkNTFSSID revision authority subs, 8 + 4 * count))
    with
    | Some (sid, size) => (Ok sid, p + size)
    | None => (Raise StreamError, Z.max p (Z.of_nat (length buf)))
    end.

Definition acl_header (buf : list Z) (p : Z) : option MFTACLHeader :=
  revision ← uint_at 1 buf p;
  size ← uint_at 2 buf (p + 2);
  count ← uint_at 2 buf (p + 4);
  Some (mkACLHeader revision size count).

Definition ace_header (buf : list Z) (p : Z) : option MFTACEHeader :=
  type ← uint_at 1 buf p;
  flags ← uint_at 1 buf (p + 1);
  size ← uint_at 2 buf (p + 2);
  Some (mkACEHeader type flags size).

End Layout.

(** ** The timestamp converter *)

Module WindowsTime.

Definition MICROSECONDS_PER_DAY : Z := 86400000000.

(** The last year of the calendar of [datetime]. *)
Definition MAXYEAR : Z := 9999.

Definition is_leap (y : Z) : bool :=
  (y mod 4 =? 0) && (negb (y mod 100 =? 0) || (y mod 400 =? 0)).

Definition days_in_month (leap : bool) (m : Z) : Z :=
  if m =? 2 then (if leap then 29 else 28)
  else if (m =? 4) || (m =? 6) || (m =? 9) || (m =? 11) then 30
  else 31.

(** The year that holds the day [n] days after 1601-01-01, and the
    number of that day within the year, from 0.  1601 opens a cycle of
    400 years of the Gregorian calendar: 146097 days, in centuries of
    36524 days (the fourth one day longer), in groups of four years of
    1461 days (the years of 365 days, the fourth one day longer). *)
Definition year_of_days (n : Z) : Z * Z :=
  let n400 := n / 146097 in
  let r400 := n mod 146097 in
  let n100 := Z.min (r400 / 36524) 3 in
  let r100 := r400 - n100 * 36524 in
  let n4 := r100 / 1461 in
  let r4 := r100 mod 1461 in
  let n1 := Z.min (r4 / 365) 3 in
  (1601 + 400 * n400 + 100 * n100 + 4 * n4 + n1, r4 - n1 * 365).

(** The number of days of a year before its month [m]. *)
Definition days_before_month (leap : bool) (m : Z) : Z :=
  nth (Z.to_nat (m - 1))
    [0; 31; 59; 90; 120; 151; 181; 212; 243; 273; 304; 334] 0
  + (if leap && (2 <? m) then 1 else 0).

(** The month that holds the day number [doy] (from 0) of a year: the
    last month that starts on or before that day. *)
Definition month_of_day (leap : bool) (doy : Z) : Z :=
  match
    find (fun m => days_before_month leap m <=? doy)
      [12; 11; 10; 9; 8; 7; 6; 5; 4; 3; 2]
  with
  | Some m => m
  | None => 1
  end.

(** Modelled from the spec: [WindowsTime(raw).parse()] of the missing
    [src/utils/time.py], by section 4.1 of the specification: the raw
    value counts intervals of 100 nanoseconds since
    1601-01-01T00:00:00 UTC; the result is the epoch plus that
    duration, truncated to microseconds, in UTC; a value beyond the
    last year of the calendar is the decode failure InvalidTimestamp. *)
Definition parse (raw : Z) : result datetime :=
  let us := raw / 10 in
  let days := us / MICROSECONDS_PER_DAY in
  let rest := us mod MICROSECONDS_PER_DAY in
  let '(y, doy) := year_of_days days in
  if y >? MAXYEAR then Raise InvalidTimestamp
  else
    let m := month_of_day (is_leap y) doy in
    let d := doy - days_before_month (is_leap y) m + 1 in
    Ok (mkdatetime y m d
          (rest / 3600000000) (rest / 60000000 mod 60)
          (rest / 1000000 mod 60) (rest mod 1000000)).

(** The instant a [datetime] denotes, in microseconds since
    1601-01-01T00:00:00 UTC. *)
Definition days_before_year (y : Z) : Z :=
  let k := y - 1601 in 365 * k + k / 4 - k / 100 + k / 400.

Definition microseconds_since_1601 (t : datetime) : Z :=
  (((days_before_year (year t)
     + days_before_month (is_leap (year t)) (month t)
     + (day t - 1)) * 24 + hour t) * 60 + minute t) * 60000000
  + second t * 1000000 + microsecond t.

End WindowsTime.

(** The structures as the specification lays them out. *)
Definition spec_structs : Structs :=
  mkStructs
    (fixed_struct 48 Layout.entry_header)
    (fixed_struct 4 Layout.type_code)
    Layout.attribute_header_parser
    (fixed_struct 36 Layout.standard_information)
    (fixed_struct 66 Layout.file_name)
    (fixed_struct 26 Layout.attribute_list_entry)
    (fixed_struct 64 Layout.object_id)
    (fixed_struct 20 Layout.security_descriptor_header)
    Layout.sid_parser
    (fixed_struct 8 Layout.acl_header)
    8
    (fixed_struct 4 Layout.ace_header)
    (fixed_struct 12 Layout.volume_information)
    WindowsTime.parse.

(** * The notions of the properties *)

(** [refines c1 c2]: whatever [c1] returns, [c2] returns too.  It
    relates a loop to the same loop with more fuel. *)
Definition refines {A : Type} (c1 c2 : io A) : Prop :=
  forall s r, c1 s = Some r -> c2 s = Some r.

(** [stable c]: [c] leaves the bytes of the stream as they are. *)
Definition stable {A : Type} (c : io A) : Prop :=
  forall s r s', c s = Some (r, s') -> getvalue s' = getvalue s.

(** [returns c]: [c] comes back from every state of the stream, with a
    value or an exception. *)
Definition returns {A : Type} (c : io A) : Prop :=
  forall s, exists r s', c s = Some (r, s').

(** One turn of the loop of [parse], by the outcome of
    [parse_structure('next_attribute')]. *)
Definition scan_step (st : Structs) (fuel : nat) (eh : EntryHeader) (s : BytesIO)
  : option (result (option (option string * option Attribute)) * BytesIO) :=
  parse_structure
    (Some (fun original_position =>
             _parse_next_attribute st fuel original_position eh)) s.

(** The header of the attribute at the position of the stream, as
    [_parse_next_attribute] reads it, and the stream behind the header.
    None: the type code is the end marker, or the type code or the
    header cannot be read. *)
Definition header_at (st : Structs) (s : BytesIO)
  : option (AttributeHeader * BytesIO) :=
  match
    (type_code <- parse_stream (MFTAttributeTypeCode_parser st) ;;
     if String.eqb type_code "END_OF_ATTRIBUTES" then ret None
     else
       seek (position s) ;;;
       parse_structure (Some (_parse_attribute_header st))) s
  with
  | Some (Ok (Some h), s') => Some (h, s')
  | _ => None
  end.

(** Whether the type code at the position of the stream is the end
    marker, as [_parse_next_attribute] tests it first. *)
Definition at_end_marker (st : Structs) (s : BytesIO) : bool :=
  match parse_stream (MFTAttributeTypeCode_parser st) s with
  | Some (Ok type_code, _) => String.eqb type_code "END_OF_ATTRIBUTES"
  | _ => false
  end.

(** The positions the scan of a buffer comes to when it starts at
    [first]: behind each attribute header it can read, the scan goes on
    at the start of the attribute plus the record length. *)
Inductive scanned (st : Structs) (buf : list Z) (first : Z) : Z -> Prop :=
| scanned_first : scanned st buf first first
| scanned_next (p : Z) (h : AttributeHeader) (s2 : BytesIO) :
    scanned st buf first p ->
    header_at st (mkBytesIO buf p) = Some (h, s2) ->
    scanned st buf first (p + RecordLength h).

(** The entries of an attribute list are filed by type: a key of the
    mapping holds a list that is not empty, of entries whose type code,
    in lower case, is that key. *)
Definition filed_by_type (m : gmap string (list AttributeListEntry)) : Prop :=
  forall key l,
    m !! key = Some l ->
    l <> [] /\ Forall (fun e => lower (AttributeTypeCode e) = key) l.

(** What [_parse_next_attribute] does behind a header that it could
    read: the [try] with its [except] and [finally]. *)
Definition decode_attribute (st : Structs) (fuel : nat) (original_position : Z)
  (h : AttributeHeader) : io (option string * option Attribute) :=
  try_finally
    (try_except
       (if negb (FormCode h =? 0) then ret (Some (TypeCode h), None)
        else
          form <- not_None (Form h) ;;
          seek (original_position + ValueOffset form) ;;;
          next_attribute_body <-
            parse_structure (body_parser st fuel (lower (TypeCode h)) h) ;;
          ret (Some (TypeCode h),
               Some (_clean_transform
                       (mkAttribute h (mjoin next_attribute_body)))))
       (fun _ => ret (Some (TypeCode h), None)))
    (seek (original_position + RecordLength h) ;;; ret tt).

(** ** Buffers for the examples *)

Module Example.

(** The [width] bytes of [v], little-endian. *)
Fixpoint le_bytes (width : nat) (v : Z) : list Z :=
  match width with
  | O => []
  | S width' => v mod 256 :: le_bytes width' (v / 256)
  end.

(** [data] cut or filled with zero bytes to [size] bytes. *)
Definition padded (size : nat) (data : list Z) : list Z :=
  take size (data ++ repeat 0 size).

(** An entry header with the magic FILE, for an entry of 1024 bytes. *)
Definition entry_header_bytes (first_attribute_offset used_size : Z)
  : list Z :=
  le_bytes 4 0x454c4946 ++ le_bytes 2 48 ++ le_bytes 2 3
  ++ le_bytes 8 0x2A ++ le_bytes 2 1 ++ le_bytes 2 1
  ++ le_bytes 2 first_attribute_offset ++ le_bytes 2 1
  ++ le_bytes 4 used_size ++ le_bytes 4 1024
  ++ le_bytes 8 0 ++ le_bytes 2 0 ++ le_bytes 2 0 ++ le_bytes 4 7.

(** The header of a resident attribute, 24 bytes. *)
Definition resident_header_bytes (type_code record_length name_length
  name_offset value_length value_offset : Z) : list Z :=
  le_bytes 4 type_code ++ le_bytes 4 record_length ++ le_bytes 1 0
  ++ le_bytes 1 name_length ++ le_bytes 2 name_offset ++ le_bytes 2 0
  ++ le_bytes 2 0 ++ le_bytes 4 value_length ++ le_bytes 2 value_offset
  ++ le_bytes 1 0 ++ [0].

(** 2009-07-14T04:40:52.540076Z as a FILETIME. *)
Definition filetime_2009 : Z := 128920200525400760.

Definition standard_information_bytes : list Z :=
  le_bytes 8 filetime_2009 ++ le_bytes 8 filetime_2009
  ++ le_bytes 8 filetime_2009 ++ le_bytes 8 0 ++ le_bytes 4 0x20.

(** A STANDARD_INFORMATION attribute of 64 bytes. *)
Definition standard_information_attribute : list Z :=
  padded 64 (resident_header_bytes 0x10 64 0 0 36 24
             ++ standard_information_bytes).

(** The UTF-16 name [a.txt]. *)
Definition name_a_txt : list Z :=
  [0x61; 0; 0x2E; 0; 0x74; 0; 0x78; 0; 0x74; 0].

Definition file_name_bytes (name_length : Z) : list Z :=
  le_bytes 6 5 ++ le_bytes 2 5
  ++ le_bytes 8 filetime_2009 ++ le_bytes 8 filetime_2009
  ++ le_bytes 8 filetime_2009 ++ le_bytes 8 filetime_2009
  ++ le_bytes 8 4096 ++ le_bytes 8 1234 ++ le_bytes 4 0x20 ++ le_bytes 4 0
  ++ le_bytes 1 name_length ++ le_bytes 1 1 ++ name_a_txt.

(** A FILE_NAME attribute of 104 bytes. *)
Definition file_name_attribute : list Z :=
  padded 104 (resident_header_bytes 0x30 104 0 0 76 24 ++ file_name_bytes 5).

Definition end_of_attributes : list Z := le_bytes 4 0xFFFFFFFF ++ le_bytes 4 0.

(** A whole entry: the header, the attributes from offset 56 on, the
    end marker, filled to 1024 bytes. *)
Definition entry (used_size : Z) (attribute_records : list Z) : list Z :=
  padded 1024 (padded 56 (entry_header_bytes 56 used_size)
               ++ attribute_records ++ end_of_attributes).

(** STANDARD_INFORMATION, FILE_NAME, end marker. *)
Definition well_formed_entry : list Z :=
  entry 232 (standard_information_attribute ++ file_name_attribute).

(** The entry header that [_parse_entry_header] returns for [entry]. *)
Definition header_of (first_attribute_offset used_size : Z) : EntryHeader :=
  mkEntryHeader "FILE"
    (mkEntryHeaderFields 42 1 1 first_attribute_offset true false used_size
       1024 (mkFileReference 0 0) 0 7).

(** A buffer of 64 bytes: the entry header and the end marker. *)
Definition short_entry : list Z :=
  padded 64 (padded 56 (entry_header_bytes 56 64) ++ end_of_attributes).

(** 1024 bytes whose first attribute starts 12 bytes before the end of
    the buffer: the type code is there, the rest of the header is not. *)
Definition truncated_attribute_entry : list Z :=
  padded 1024 (padded 1012 (entry_header_bytes 1012 1024)
               ++ le_bytes 4 0x10 ++ le_bytes 4 64 ++ le_bytes 4 0).

(** A STANDARD_INFORMATION attribute whose value offset points behind
    the end of the buffer, followed by the end marker. *)
Definition failing_body_entry : list Z :=
  entry 128 (padded 64 (resident_header_bytes 0x10 64 0 0 36 2000
                        ++ standard_information_bytes)).

(** STANDARD_INFORMATION, then a FILE_NAME attribute whose header has
    the record length 0. *)
Definition zero_record_length_entry : list Z :=
  entry 232 (standard_information_attribute
             ++ padded 104 (resident_header_bytes 0x30 0 0 0 76 24
                            ++ file_name_bytes 5)).

(** An entry of an attribute list, without a name; 32 bytes. *)
Definition list_entry_bytes (type_code record_length name_length : Z)
  : list Z :=
  padded 32 (le_bytes 4 type_code ++ le_bytes 2 record_length
             ++ le_bytes 1 name_length ++ le_bytes 1 26 ++ le_bytes 8 0
             ++ le_bytes 6 9 ++ le_bytes 2 1 ++ le_bytes 2 0).

(** An ATTRIBUTE_LIST attribute of six entries (216 bytes; the value has
    192 bytes and starts at offset 24), followed by a
    STANDARD_INFORMATION attribute.  [first_record_length] is the
    record length of the first entry of the list: 32 in a sound list. *)
Definition attribute_list_entry_with (first_record_length : Z) : list Z :=
  entry 344
    (padded 216
       (resident_header_bytes 0x20 216 0 0 192 24
        ++ list_entry_bytes 0x10 first_record_length 0
        ++ list_entry_bytes 0x30 32 0 ++ list_entry_bytes 0x30 32 0
        ++ list_entry_bytes 0x80 32 0 ++ list_entry_bytes 0x80 32 0
        ++ list_entry_bytes 0x80 32 0)
     ++ standard_information_attribute).

(** An ATTRIBUTE_LIST attribute of three entries in a value of 78
    bytes; the name of the third entry would run past the value. *)
Definition three_entries_attribute : list Z :=
  padded 104
    (resident_header_bytes 0x20 104 0 0 78 24
     ++ take 26 (list_entry_bytes 0x10 26 0)
     ++ take 26 (list_entry_bytes 0x30 26 0)
     ++ take 26 (list_entry_bytes 0x80 26 40)).

Definition three_entries_entry : list Z := entry 168 three_entries_attribute.

(** The header of [three_entries_attribute]. *)
Definition three_entries_header : AttributeHeader :=
  mkAttributeHeader "ATTRIBUTE_LIST" 104 0 0 0 0 0
    (Some (mkResidentForm 78 24 0)) None.







(** The UTF-16 name [$I30]. *)
Definition name_I30 : list Z := [0x24; 0; 0x49; 0; 0x33; 0; 0x30; 0].

(** An INDEX_ROOT attribute with the name [$I30] at offset 24 of the
    attribute and the value at offset 32. *)
Definition named_attribute_entry : list Z :=
  entry 128 (padded 64 (resident_header_bytes 0x90 64 4 24 16 32
                        ++ name_I30)).

(** The header of the attribute of [failing_body_entry], and the entry
    that [parse] returns for it. *)
Definition failing_header : AttributeHeader :=
  mkAttributeHeader "STANDARD_INFORMATION" 64 0 0 0 0 0
    (Some (mkResidentForm 36 2000 0)) None.

Definition failing_body_lists : gmap string (list Attribute) :=
  <["standard_information" := [mkAttribute failing_header None]]>
    (attributes (__init__ failing_body_entry)).

Definition failing_body_parsed : MFTEntry :=
  mkMFTEntry failing_body_lists (Some (header_of 56 128)) failing_body_entry
    None.


(** The header of a non-resident attribute, 16 bytes. *)
Definition non_resident_header_bytes (type_code record_length : Z)
  : list Z :=
  le_bytes 4 type_code ++ le_bytes 4 record_length ++ le_bytes 1 1
  ++ le_bytes 1 0 ++ le_bytes 2 0 ++ le_bytes 2 0 ++ le_bytes 2 0.

(** A non-resident DATA attribute of 72 bytes, then the end marker. *)
Definition non_resident_entry : list Z :=
  entry 136 (padded 72 (non_resident_header_bytes 0x80 72)).

Definition non_resident_header : AttributeHeader :=
  mkAttributeHeader "DATA" 72 1 0 0 0 0 None None.

(** The header of the attribute of [named_attribute_entry]. *)
Definition named_attribute_header : AttributeHeader :=
  mkAttributeHeader "INDEX_ROOT" 64 0 4 24 0 0
    (Some (mkResidentForm 16 32 0)) None.

(** The entry header of an entry that is marked BAAD and not in use. *)
Definition baad_header_of (first_attribute_offset used_size : Z)
  : EntryHeader :=
  mkEntryHeader "BAAD"
    (mkEntryHeaderFields 0 9 0 first_attribute_offset false true used_size
       4096 (mkFileReference 3 3) 5 0).

(** The headers of the two attributes of [well_formed_entry]. *)
Definition standard_information_header : AttributeHeader :=
  mkAttributeHeader "STANDARD_INFORMATION" 64 0 0 0 0 0
    (Some (mkResidentForm 36 24 0)) None.

Definition file_name_header : AttributeHeader :=
  mkAttributeHeader "FILE_NAME" 104 0 0 0 0 0
    (Some (mkResidentForm 76 24 0)) None.

(** The first 150 bytes of an entry that holds a FILE_NAME attribute:
    the buffer ends behind the second of the five characters of the
    name. *)
Definition cut_name_entry : list Z := take 150 (entry 168 file_name_attribute).

(** 2009-07-14T04:40:52.540076Z *)
Definition datetime_2009 : datetime := mkdatetime 2009 7 14 4 40 52 540076.

(** The FILE_NAME attribute of [cut_name_entry], as it is decoded. *)
Definition cut_file_name : FileNameAttribute :=
  mkFileName (mkFileReference 5 5) datetime_2009 datetime_2009 datetime_2009
    datetime_2009 4096 1234 0x20 5 1 [0x61; 0x2E].

(** An entry of the list of [attribute_list_entry_with], as it is
    decoded. *)
Definition list_entry_of (type_code : string) : AttributeListEntry :=
  mkAttributeListEntry type_code 32 0 26 0 (mkFileReference 9 1) 0 [].

(** The header of the attribute list of [attribute_list_entry_with]. *)
Definition six_entries_header : AttributeHeader :=
  mkAttributeHeader "ATTRIBUTE_LIST" 216 0 0 0 0 0
    (Some (mkResidentForm 192 24 0)) None.

(** What [_parse_attribute_list] returns for the sound list of
    [attribute_list_entry_with]: the four entries that start below the
    offset 192 of the entry. *)
Definition four_entries : gmap string (list AttributeListEntry) :=
  <["data" := [list_entry_of "DATA"]]>
    (<["file_name" := [list_entry_of "FILE_NAME"; list_entry_of "FILE_NAME"]]>
       (<["standard_information" := [list_entry_of "STANDARD_INFORMATION"]]>
          ∅)).

End Example.

(** * The keyword arguments of the structure parsers

    [_prepare_kwargs] of [MFTEntry], which [parse_structure] calls
    before every structure parser.  It works on every value alike:
    [V] is the type of the values of the keywords, [D] that of the
    defaults. *)

Module PrepareKwargs.

(** What [inspect.getargspec] gives of a method: the names of its
    parameters, [self] first, and the defaults of the last of them,
    None when no parameter has a default. *)
Record ArgSpec (D : Type) : Type := mkArgSpec {
  args : list string;
  defaults : option (list D)
}.
Arguments mkArgSpec {D} args defaults.
Arguments args {D} _.
Arguments defaults {D} _.

(** The two exceptions of the function: [len(None)] on a method without
    defaults, and the [Exception] it raises itself for a key. *)
Inductive error : Type :=
| LenOfNone
| NotProvided (key : string).

(** [l[k:]] *)
Definition slice_from {A : Type} (k : Z) (l : list A) : list A :=
  if k <? 0 then drop (Z.to_nat (Z.of_nat (length l) + k)) l
  else drop (Z.to_nat k) l.

(** [argspec.args[(len(argspec.args) - len(argspec.defaults))+1:]] *)
Definition kwargs_keys {D : Type} (argspec : ArgSpec D)
  : error + list string :=
  match defaults argspec with
  | None => inl LenOfNone
  | Some values =>
      inr (slice_from
             (Z.of_nat (length (args argspec))
              - Z.of_nat (length values) + 1)
             (args argspec))
  end.

(** [key if key != 'stream' else '_stream'] *)
Definition attribute_of (key : string) : string :=
  if negb (String.eqb key "stream") then key else "_stream".

(** The [for] loop.  [kwargs] maps a keyword that was given to its
    value, None for the value None; [self] is [getattr(self, name,
    None)]; the prepared dictionary has None where that gave None. *)
Fixpoint prepare {V : Type} (keys : list string)
  (kwargs : gmap string (option V)) (self : string -> option V)
  (prepared_kwargs : gmap string (option V))
  : error + gmap string (option V) :=
  match keys with
  | [] => inr prepared_kwargs
  | key :: rest =>
      match kwargs !! key with
      | Some None =>
          match self (attribute_of key) with
          | None => inl (NotProvided key)
          | Some v =>
              prepare rest kwargs self (<[key := Some v]> prepared_kwargs)
          end
      | Some (Some v) =>
          prepare rest kwargs self (<[key := Some v]> prepared_kwargs)
      | None =>
          prepare rest kwargs self
            (<[key := self (attribute_of key)]> prepared_kwargs)
      end
  end.

Definition _prepare_kwargs {D V : Type} (argspec : ArgSpec D)
  (kwargs : gmap string (option V)) (self : string -> option V)
  : error + gmap string (option V) :=
  match kwargs_keys argspec with
  | inl e => inl e
  | inr keys => prepare keys kwargs self ∅
  end.

(** The value the function prepares for a key it does not fail on. *)
Definition prepared_value {V : Type} (kwargs : gmap string (option V))
  (self : string -> option V) (key : string) : option V :=
  match kwargs !! key with
  | Some (Some v) => Some v
  | _ => self (attribute_of key)
  end.

(** The signatures of the structure parsers of [MFTEntry]; every
    default is None.  The body parsers are
    [(self, original_position, attribute_header, stream=None)],
    [_parse_attribute_header] and [_parse_entry_header] are
    [(self, original_position, stream=None)], [_parse_next_attribute] is
    [(self, original_position, stream=None, header=None)] and
    [_parse_access_control_list] is [(self, stream=None)]. *)
Definition body_parser_argspec : ArgSpec (option unit) :=
  mkArgSpec ["self"; "original_position"; "attribute_header"; "stream"]
    (Some [None]).

Definition header_parser_argspec : ArgSpec (option unit) :=
  mkArgSpec ["self"; "original_position"; "stream"] (Some [None]).

Definition next_attribute_argspec : ArgSpec (option unit) :=
  mkArgSpec ["self"; "original_position"; "stream"; "header"]
    (Some [None; None]).

Definition access_control_list_argspec : ArgSpec (option unit) :=
  mkArgSpec ["self"; "stream"] (Some [None]).

End PrepareKwargs.

(** * The directives of [src/main/directives.py]

    [BaseParseFileOutputDirective.run] cuts the source files into
    records and hands each record to the worker pool.  The pool, of
    [src.utils.parallel], is not part of the sources at hand: the model
    keeps the calls of [add_task], in their order.  The file system is
    the parameter of the section. *)

Module Directives.

(** [BaseDirective.MFT_RECORD_SIZE] *)
Definition MFT_RECORD_SIZE : Z := 1024.

(** The two types of value that the loop of [run] compares. *)
Inductive pyvalue : Type :=
| PyBytes (data : list Z)
| PyStr (text : string).

(** [a != b]: values of the two types are never equal, whatever they
    hold; there is no conversion between [bytes] and [str]. *)
Definition py_ne (a b : pyvalue) : bool :=
  match a, b with
  | PyBytes x, PyBytes y => negb (bool_decide (x = y))
  | PyStr x, PyStr y => negb (String.eqb x y)
  | _, _ => true
  end.

(** [worker_pool.add_task(nodeidx, recordidx, mft_record)] *)
Record Task : Type := mkTask {
  nodeidx : Z;
  recordidx : Z;
  mft_record : list Z
}.

#[global] Instance Task_eq_dec : EqDecision Task.
Proof. solve_decision. Defined.

(** What [run] has done when it is over. *)
Inductive outcome : Type :=
| Finished (tasks : list Task)
| AssertionFailed
| OpenFailed (node : string) (tasks : list Task)
| Raised (e : exn) (tasks : list Task).

(** The [while] loop over the records of one file; the stream is the
    file, opened in mode [rb]. *)
Fixpoint read_records (fuel : nat) (count nodeidx recordidx : Z)
  (mft_record : list Z) (record_count : Z) (tasks : list Task)
  : io (Z * list Task) :=
  if py_ne (PyBytes mft_record) (PyStr "") && (record_count <? count) then
    match fuel with
    | O => out_of_fuel
    | S fuel' =>
        let tasks := tasks ++ [mkTask nodeidx recordidx mft_record] in
        mft_record <- read (PyInt MFT_RECORD_SIZE) ;;
        read_records fuel' count nodeidx (recordidx + 1) mft_record
          (record_count + 1) tasks
    end
  else ret (record_count, tasks).

(** The body of the [try] of [run], on one open file. *)
Definition read_file (fuel : nat) (count nodeidx record_count : Z)
  (tasks : list Task) : io (Z * list Task) :=
  let recordidx := 0 in
  mft_record <- read (PyInt MFT_RECORD_SIZE) ;;
  read_records fuel count nodeidx recordidx mft_record record_count tasks.

(** [enumerate(l)], from [start]. *)
Fixpoint enumerate {A : Type} (start : Z) (l : list A) : list (Z * A) :=
  match l with
  | [] => []
  | a :: rest => (start, a) :: enumerate (start + 1) rest
  end.

Section Run.

(** [os.path.abspath], [os.path.isfile], [os.path.isdir]; for a
    directory [src], [glob(path.join(src, '*'))]; and what
    [open(node, 'rb')] gives: the bytes of the file, or None when the
    call raises. *)
Variable abspath : string -> string.
Variable isfile isdir : string -> bool.
Variable glob : string -> list string.
Variable open_rb : string -> option (list Z).

(** [get_frontier(sources)]: the list behind the count that the
    generator yields first. *)
Definition get_frontier (sources : list string) : list string :=
  foldl
    (fun frontier src =>
       let src := abspath src in
       if isfile src then frontier ++ [src]
       else if isdir src then frontier ++ glob src
       else frontier)
    [] sources.

(** The [for] loop of [run] over the nodes of the frontier. *)
Fixpoint read_nodes (fuel : nat) (count : Z) (nodes : list (Z * string))
  (record_count : Z) (tasks : list Task) : option outcome :=
  match nodes with
  | [] => Some (Finished tasks)
  | (nodeidx, node) :: rest =>
      match open_rb node with
      | None => Some (OpenFailed node tasks)
      | Some content =>
          match
            read_file fuel count nodeidx record_count tasks
              (mkBytesIO content 0)
          with
          | None => None
          | Some (Raise e, _) => Some (Raised e tasks)
          | Some (Ok (record_count, tasks), _) =>
              if record_count >=? count then Some (Finished tasks)
              else read_nodes fuel count rest record_count tasks
          end
      end
  end.

(** [BaseParseFileOutputDirective.run]; [target_in_directory] is the
    condition of its [assert], [task_class] whether [_TASK_CLASS] is
    set. *)
Definition run (fuel : nat) (target_in_directory : bool)
  (sources : list string) (count : Z) (task_class : bool)
  : option outcome :=
  if negb target_in_directory then Some AssertionFailed
  else
    let frontier := get_frontier sources in
    let frontier_count := Z.of_nat (length frontier) in
    if (frontier_count >? 0) && (count >? 0) && task_class then
      let record_count := 0 in
      read_nodes fuel count (enumerate 0 frontier) record_count []
    else Some (Finished []).

End Run.

(** The record number [i] of a file: its bytes from [1024 * i] on, at
    most 1024 of them; none behind the end of the file. *)
Definition record_at (content : list Z) (i : Z) : list Z :=
  take (Z.to_nat MFT_RECORD_SIZE)
    (drop (Z.to_nat (MFT_RECORD_SIZE * i)) content).

(** The tasks for the first [n] records of a file. *)
Definition tasks_of (nodeidx : Z) (content : list Z) (n : nat)
  : list Task :=
  map (fun i => mkTask nodeidx (Z.of_nat i) (record_at content (Z.of_nat i)))
    (seq 0 n).

End Directives.

(** * The tasks of [src/main/tasks.py]

    A task builds an [MFTEntry] from its record, calls [parse], reads
    the parsed entry and appends lines to the target file.  The model
    follows each [__call__] up to the first item it reads of the
    parsed entry; the statements behind that read are parameters of the
    section, functions of the item that was read. *)

Module Tasks.

(** What an object of the class [MFTEntry] holds under a name. *)
Inductive item : Type :=
| AttributeList (l : list Attribute)
| Header (h : EntryHeader)
| RawEntry (raw : list Z)
| Stream (s : option BytesIO).

(** [mft_entry.name], for a name that is no method of the class: the
    item of that name of the container, which [__init__] or [parse] has
    stored ([self[attribute]], [self._raw_entry], [self._stream],
    [self.header]); any other name raises AttributeError.  Names are
    case sensitive. *)
Definition entry_getattr (e : MFTEntry) (name : string) : result item :=
  match attributes e !! name with
  | Some l => Ok (AttributeList l)
  | None =>
      if String.eqb name "header" then
        match entry_header e with
        | Some h => Ok (Header h)
        | None => Raise AttributeError
        end
      else if String.eqb name "_raw_entry" then Ok (RawEntry (_raw_entry e))
      else if String.eqb name "_stream" then Ok (Stream (_stream e))
      else Raise AttributeError
  end.

Definition result_bind {A B : Type} (r : result A) (k : A -> result B)
  : result B :=
  match r with
  | Ok a => k a
  | Raise e => Raise e
  end.

(** What a call of a task has done: the exception that left it, the
    lines it has appended to the target file, and the number of its
    calls of [Logger.error]. *)
Record outcome : Type := mkOutcome {
  raised : option exn;
  written : list string;
  errors : nat
}.

#[global] Instance outcome_eq_dec : EqDecision outcome.
Proof. solve_decision. Defined.

Section Tasks.

Variable st : Structs.

(** Whether [open(target_file, 'a')] succeeds, and whether [f.write]
    of a line does. *)
Variable open_append : bool.
Variable write : string -> bool.

(** The statements of [ParseCSVTask.__call__] behind the read of
    [mft_entry.Header]: the row of the summary.  Those of
    [ParseBODYTask.__call__] and of [ParseJSONTask.__call__] behind the
    read of [mft_entry.Attributes]: the rows of the body file, and the
    JSON text. *)
Variable summary_row : Z -> Z -> item -> MFTEntry -> result (list string).
Variable body_rows :
  Z -> Z -> list Z -> item -> MFTEntry -> result (list (list string)).
Variable json_text : Z -> Z -> bool -> item -> MFTEntry -> result string.

(** The line feed, ['\n']. *)
Definition newline : string := String (ascii_of_nat 10) EmptyString.

(** [sep.join(result) + '\n'] *)
Definition joined (sep : string) (fields : list string) : string :=
  (String.concat sep fields ++ newline)%string.

(** The loop of [ParseCSVTask] over the lines: a write that fails ends
    it.  The lines written, and whether a write failed. *)
Fixpoint write_until_failure (lines : list string) : list string * bool :=
  match lines with
  | [] => ([], false)
  | line :: rest =>
      if write line then
        let '(done, failed) := write_until_failure rest in
        (line :: done, failed)
      else ([], true)
  end.

(** The loop of the two other tasks: a write that fails is logged, the
    loop goes on.  The lines written, and the number of failures. *)
Fixpoint write_each (lines : list string) : list string * nat :=
  match lines with
  | [] => ([], O)
  | line :: rest =>
      let '(done, failures) := write_each rest in
      if write line then (line :: done, failures) else (done, S failures)
  end.

(** The last [try] of [ParseCSVTask.__call__]. *)
Definition append_rows (sep : string) (result_set : list (list string))
  (errors : nat) : outcome :=
  if (0 <? length result_set)%nat then
    if open_append then
      let '(done, failed) := write_until_failure (joined sep <$> result_set) in
      mkOutcome None done (if failed then S errors else errors)
    else mkOutcome None [] (S errors)
  else mkOutcome None [] errors.

(** The last [try] of the two other tasks, on the lines to write. *)
Definition append_lines (lines : list string) (errors : nat) : outcome :=
  if (0 <? length lines)%nat then
    if open_append then
      let '(done, failures) := write_each lines in
      mkOutcome None done (failures + errors)
    else mkOutcome None [] (S errors)
  else mkOutcome None [] errors.

(** [ParseCSVTask.__call__].  The [except] of [parse] raises the
    exception again; an exception of the [else] block leaves the call. *)
Definition ParseCSVTask_call (fuel : nat) (nodeidx recordidx : Z)
  (info_type : string) (mft_record : list Z) (sep : string)
  : option outcome :=
  let mft_entry := __init__ mft_record in
  if String.eqb info_type "summary" then
    match parse st fuel mft_entry with
    | None => None
    | Some (Raise e) => Some (mkOutcome (Some e) [] 0)
    | Some (Ok mft_entry) =>
        match
          result_bind (entry_getattr mft_entry "Header")
            (fun header => summary_row nodeidx recordidx header mft_entry)
        with
        | Raise e => Some (mkOutcome (Some e) [] 0)
        | Ok row => Some (append_rows sep [row] 0)
        end
    end
  else Some (append_rows sep [] 0).

(** [ParseBODYTask.__call__].  The [except] of [parse] logs the
    exception; an exception of the [else] block leaves the call. *)
Definition ParseBODYTask_call (fuel : nat) (nodeidx recordidx : Z)
  (mft_record : list Z) (sep : string) : option outcome :=
  let mft_entry := __init__ mft_record in
  match parse st fuel mft_entry with
  | None => None
  | Some (Raise e) => Some (append_lines [] 1)
  | Some (Ok mft_entry) =>
      match
        result_bind (entry_getattr mft_entry "Attributes")
          (fun attributes =>
             body_rows nodeidx recordidx mft_record attributes mft_entry)
      with
      | Raise e => Some (mkOutcome (Some e) [] 0)
      | Ok result_set => Some (append_lines (joined sep <$> result_set) 0)
      end
  end.

(** [ParseJSONTask.__call__].  [parse] and the statements behind it are
    in one [try], whose [except] logs the exception. *)
Definition ParseJSONTask_call (fuel : nat) (nodeidx recordidx : Z)
  (mft_record : list Z) (pretty : bool) : option outcome :=
  let mft_entry := __init__ mft_record in
  match parse st fuel mft_entry with
  | None => None
  | Some parsed =>
      match
        result_bind parsed
          (fun mft_entry =>
             result_bind (entry_getattr mft_entry "Attributes")
               (fun attributes =>
                  json_text nodeidx recordidx pretty attributes mft_entry))
      with
      | Raise e => Some (append_lines [] 1)
      | Ok result => Some (append_lines [(result ++ newline)%string] 0)
      end
  end.

End Tasks.

End Tasks.

(** * Properties *)

(** ** The stream computations *)

Section Io.

Context {A B : Type}.

Lemma bind_Ok (c : io A) (k : A -> io B) s a s' :
  c s = Some (Ok a, s') -> bind c k s = k a s'.
Proof. intros H. unfold bind. now rewrite H. Qed.

Lemma bind_Raise (c : io A) (k : A -> io B) s e s' :
  c s = Some (Raise e, s') -> bind c k s = Some (Raise e, s').
Proof. intros H. unfold bind. now rewrite H. Qed.

Lemma bind_None (c : io A) (k : A -> io B) s :
  c s = None -> bind c k s = None.
Proof. intros H. unfold bind. now rewrite H. Qed.

Lemma bind_Ok_inv (c : io A) (k : A -> io B) s b s' :
  bind c k s = Some (Ok b, s') ->
  exists a s1, c s = Some (Ok a, s1) /\ k a s1 = Some (Ok b, s').
Proof.
  unfold bind. destruct (c s) as [[[a|e] s1]|]; try discriminate.
  intros H. now exists a, s1.
Qed.

Lemma try_except_None (c : io A) (handler : exn -> io A) s :
  c s = None -> try_except c handler s = None.
Proof. intros H. unfold try_except. now rewrite H. Qed.

Lemma try_except_Ok (c : io A) (handler : exn -> io A) s a s' :
  c s = Some (Ok a, s') -> try_except c handler s = Some (Ok a, s').
Proof. intros H. unfold try_except. now rewrite H. Qed.

Lemma try_except_Raise (c : io A) (handler : exn -> io A) s e s' :
  c s = Some (Raise e, s') -> try_except c handler s = handler e s'.
Proof. intros H. unfold try_except. now rewrite H. Qed.

Lemma try_finally_None (c : io A) (cleanup : io unit) s :
  c s = None -> try_finally c cleanup s = None.
Proof. intros H. unfold try_finally. now rewrite H. Qed.

End Io.

Lemma refines_refl {A : Type} (c : io A) : refines c c.
Proof. intros s r H. exact H. Qed.

Lemma refines_out_of_fuel {A : Type} (c : io A) : refines out_of_fuel c.
Proof. intros s r H. discriminate H. Qed.

Lemma refines_bind {A B : Type} (c1 c2 : io A) (k1 k2 : A -> io B) :
  refines c1 c2 -> (forall a, refines (k1 a) (k2 a)) ->
  refines (bind c1 k1) (bind c2 k2).
Proof.
  intros Hc Hk s r. unfold bind.
  destruct (c1 s) as [[[a|e] s1]|] eqn:E1; try discriminate.
  - rewrite (Hc _ _ E1). apply Hk.
  - rewrite (Hc _ _ E1). auto.
Qed.

Lemma refines_try_except {A : Type} (c1 c2 : io A) (h1 h2 : exn -> io A) :
  refines c1 c2 -> (forall e, refines (h1 e) (h2 e)) ->
  refines (try_except c1 h1) (try_except c2 h2).
Proof.
  intros Hc Hh s r. unfold try_except.
  destruct (c1 s) as [[[a|e] s1]|] eqn:E1; try discriminate.
  - rewrite (Hc _ _ E1). auto.
  - rewrite (Hc _ _ E1). apply Hh.
Qed.

Lemma refines_try_finally {A : Type} (c1 c2 : io A) (f1 f2 : io unit) :
  refines c1 c2 -> refines f1 f2 ->
  refines (try_finally c1 f1) (try_finally c2 f2).
Proof.
  intros Hc Hf s r. unfold try_finally.
  destruct (c1 s) as [[r1 s1]|] eqn:E1; try discriminate.
  rewrite (Hc _ _ E1).
  destruct (f1 s1) as [[[u|e] s2]|] eqn:E2; try discriminate;
    rewrite (Hf _ _ E2); auto.
Qed.

Create HintDb fuel discriminated.
#[local] Hint Resolve refines_refl refines_out_of_fuel : fuel.

Section Fuel.

Variable st : Structs.

Lemma refines_parse_structure {A : Type} (m1 m2 : option (Z -> io A)) :
  match m1, m2 with
  | Some f1, Some f2 => forall p, refines (f1 p) (f2 p)
  | None, None => True
  | _, _ => False
  end ->
  refines (parse_structure m1) (parse_structure m2).
Proof.
  destruct m1 as [f1|], m2 as [f2|]; intros H; try contradiction;
    unfold parse_structure; auto with fuel.
  apply refines_bind; auto with fuel. intros p.
  apply refines_try_except; auto with fuel.
  apply refines_bind; auto with fuel.
Qed.

Lemma access_control_entries_fuel fuel fuel' acl_position acl_size body :
  (fuel <= fuel')%nat ->
  refines (access_control_entries st fuel acl_position acl_size body)
          (access_control_entries st fuel' acl_position acl_size body).
Proof.
  revert fuel' body. induction fuel as [|n IH]; intros fuel' body Hle.
  - destruct fuel'; simpl; apply refines_bind; auto with fuel.
    intros p. destruct (_ <? _); auto with fuel.
  - destruct fuel' as [|n']; [lia|]. simpl.
    apply refines_bind; auto with fuel. intros p.
    destruct (_ <? _); auto with fuel.
    apply refines_bind; auto with fuel. intros q.
    apply refines_bind; auto with fuel. intros [body' continue].
    destruct continue; auto with fuel. apply IH. lia.
Qed.

Lemma _parse_access_control_list_fuel fuel fuel' :
  (fuel <= fuel')%nat ->
  refines (_parse_access_control_list st fuel)
          (_parse_access_control_list st fuel').
Proof.
  (* the lookup of [Header] raises before the loop is reached *)
  intros _. apply refines_refl.
Qed.

Lemma _parse_security_descriptor_fuel fuel fuel' p h :
  (fuel <= fuel')%nat ->
  refines (_parse_security_descriptor st fuel p h)
          (_parse_security_descriptor st fuel' p h).
Proof.
  intros Hle. unfold _parse_security_descriptor.
  repeat (apply refines_bind; auto using _parse_access_control_list_fuel
            with fuel; intros ?).
Qed.

Lemma attribute_list_entries_fuel fuel fuel' h entries :
  (fuel <= fuel')%nat ->
  refines (attribute_list_entries st fuel h entries)
          (attribute_list_entries st fuel' h entries).
Proof.
  revert fuel' entries. induction fuel as [|n IH]; intros fuel' entries Hle.
  - destruct fuel'; simpl; repeat (apply refines_bind; auto with fuel; intros ?);
      destruct (_ <? _); auto with fuel.
  - destruct fuel' as [|n']; [lia|]. simpl.
    repeat (apply refines_bind; auto with fuel; intros ?).
    destruct (_ <? _); auto with fuel.
    repeat (apply refines_bind; auto with fuel; intros ?).
    match goal with |- context [match ?x with _ => _ end] => destruct x end;
      auto with fuel.
    apply refines_bind; auto with fuel. intros _. apply IH. lia.
Qed.

Lemma _parse_attribute_list_fuel fuel fuel' p h :
  (fuel <= fuel')%nat ->
  refines (_parse_attribute_list st fuel p h)
          (_parse_attribute_list st fuel' p h).
Proof.
  intros Hle. unfold _parse_attribute_list.
  apply refines_bind; auto using attribute_list_entries_fuel with fuel.
Qed.

Lemma body_parser_fuel fuel fuel' structure h :
  (fuel <= fuel')%nat ->
  match body_parser st fuel structure h, body_parser st fuel' structure h with
  | Some f1, Some f2 => forall p, refines (f1 p) (f2 p)
  | None, None => True
  | _, _ => False
  end.
Proof.
  intros Hle. unfold body_parser.
  repeat match goal with
         | |- context [if ?b then _ else _] => destruct b
         end; auto with fuel; intros p;
    apply refines_bind;
    auto using _parse_attribute_list_fuel, _parse_security_descriptor_fuel
      with fuel.
Qed.

Lemma _parse_next_attribute_fuel fuel fuel' p eh :
  (fuel <= fuel')%nat ->
  refines (_parse_next_attribute st fuel p eh)
          (_parse_next_attribute st fuel' p eh).
Proof.
  intros Hle. unfold _parse_next_attribute.
  apply refines_bind; auto with fuel. intros type_code.
  destruct (String.eqb _ _); auto with fuel.
  apply refines_bind; auto with fuel. intros _.
  apply refines_bind; auto with fuel. intros next_header.
  apply refines_try_finally; auto with fuel.
  apply refines_try_except; auto with fuel.
  apply refines_bind; auto with fuel. intros h.
  destruct (negb _); auto with fuel.
  apply refines_bind; auto with fuel. intros form.
  apply refines_bind; auto with fuel. intros _.
  apply refines_bind; auto with fuel.
  apply refines_parse_structure. now apply body_parser_fuel.
Qed.

Lemma scan_attributes_fuel fuel fuel' eh self :
  (fuel <= fuel')%nat ->
  refines (scan_attributes st fuel eh self)
          (scan_attributes st fuel' eh self).
Proof.
  revert fuel' self. induction fuel as [|n IH]; intros fuel' self Hle.
  - destruct fuel'; simpl; apply refines_bind; auto with fuel;
      intros p; destruct (_ <? _); auto with fuel.
  - destruct fuel' as [|n']; [lia|]. simpl.
    apply refines_bind; auto with fuel. intros p.
    destruct (_ <? _); auto with fuel.
    apply refines_bind.
    + apply refines_parse_structure. intros q.
      apply _parse_next_attribute_fuel. lia.
    + intros [[[attribute_type|] attribute_data]|]; auto with fuel.
      destruct (negb _); [apply IH; lia|].
      destruct attribute_data; [|apply IH; lia].
      destruct (self !! _); auto with fuel. apply IH. lia.
Qed.

(** More fuel does not change what [parse] returns. *)
Lemma parse_fuel fuel fuel' self r :
  (fuel <= fuel')%nat ->
  parse st fuel self = Some r -> parse st fuel' self = Some r.
Proof.
  intros Hle. unfold parse.
  destruct (parse_body st fuel self (get_stream self)) as [o|] eqn:E;
    [|discriminate].
  assert (R : refines (parse_body st fuel self) (parse_body st fuel' self)).
  { unfold parse_body. apply refines_bind; auto with fuel. intros ph.
    apply refines_bind; auto with fuel. intros h.
    apply refines_bind; auto with fuel. intros _.
    apply refines_bind; auto with fuel.
    now apply scan_attributes_fuel. }
  rewrite (R _ _ E). auto.
Qed.

End Fuel.

(** ** The scan of the attributes *)

Section Scan.

Variable st : Structs.

Lemma scan_attributes_O eh self s :
  scan_attributes st 0 eh self s =
  if position s <? UsedSize (Fields eh) then None else Some (Ok self, s).
Proof.
  simpl. unfold bind, tell.
  now destruct (position s <? UsedSize (Fields eh)).
Qed.

Lemma scan_attributes_S fuel eh self s :
  scan_attributes st (S fuel) eh self s =
  if position s <? UsedSize (Fields eh) then
    match scan_step st fuel eh s with
    | None => None
    | Some (Raise e, s1) => Some (Raise e, s1)
    | Some (Ok None, s1) => Some (Raise TypeError, s1)
    | Some (Ok (Some (None, _)), s1) => Some (Ok self, s1)
    | Some (Ok (Some (Some attribute_type, attribute_data)), s1) =>
        let key := lower attribute_type in
        if negb (contains self key) then scan_attributes st fuel eh self s1
        else
          match attribute_data with
          | None => scan_attributes st fuel eh self s1
          | Some data =>
              match self !! key with
              | Some already =>
                  scan_attributes st fuel eh
                    (<[key := already ++ [data]]> self) s1
              | None => Some (Raise AttributeError, s1)
              end
          end
    end
  else Some (Ok self, s).
Proof.
  unfold scan_step. simpl. unfold bind at 1. simpl.
  destruct (position s <? UsedSize (Fields eh)); [|reflexivity].
  unfold bind at 1.
  destruct (parse_structure _ s) as [[[[[[t|] d]|]|e] s1]|]; try reflexivity.
  simpl. destruct (negb _); [reflexivity|].
  destruct d; [|reflexivity]. destruct (self !! _); reflexivity.
Qed.

(** The scan keeps the keys of the object and only appends to its
    lists. *)
Lemma scan_attributes_appends fuel eh self s final s' :
  scan_attributes st fuel eh self s = Some (Ok final, s') ->
  dom final = dom self
  /\ forall key l, self !! key = Some l ->
       exists l', final !! key = Some (l ++ l').
Proof.
  revert self s. induction fuel as [|n IH]; intros self s.
  - rewrite scan_attributes_O. destruct (_ <? _); [discriminate|].
    intros [= <- <-]. split; [reflexivity|]. intros key l Hl.
    exists []. now rewrite app_nil_r.
  - rewrite scan_attributes_S. destruct (_ <? _).
    2:{ intros [= <- <-]. split; [reflexivity|]. intros key l Hl.
        exists []. now rewrite app_nil_r. }
    destruct (scan_step st n eh s) as [[[[[[t|] d]|]|e] s1]|]; try discriminate.
    2:{ intros [= <- <-]. split; [reflexivity|]. intros key l Hl.
        exists []. now rewrite app_nil_r. }
    cbv zeta. destruct (negb _); [apply IH|].
    destruct d as [data|]; [|apply IH].
    destruct (self !! lower t) as [already|] eqn:Hk; [|discriminate].
    intros H. apply IH in H. destruct H as [Hdom Happ]. split.
    + rewrite Hdom, dom_insert_L.
      apply subseteq_union_1_L, singleton_subseteq_l, elem_of_dom. eauto.
    + intros key l Hl. destruct (decide (key = lower t)) as [->|Hne].
      * rewrite Hk in Hl. injection Hl as <-.
        destruct (Happ (lower t) (already ++ [data])) as [l' Hl'];
          [apply lookup_insert_eq|].
        exists (data :: l'). rewrite Hl'. now rewrite <- app_assoc.
      * apply Happ. now rewrite lookup_insert_ne.
Qed.


End Scan.

(** ** The result of [parse] *)

Section Parse.

Variable st : Structs.

(** What a call of [parse] that returns has done: it has read the entry
    header, moved to the first attribute and scanned the attributes
    into the lists of the object. *)
Lemma parse_Ok_inv fuel self e :
  parse st fuel self = Some (Ok e) ->
  exists h s0 s1 s2,
    parse_structure (Some (_parse_entry_header st)) (get_stream self)
      = Some (Ok (Some h), s0)
    /\ seek (FirstAttributeOffset (Fields h)) s0
       = Some (Ok (FirstAttributeOffset (Fields h)), s1)
    /\ scan_attributes st fuel h (attributes self) s1
       = Some (Ok (attributes e), s2)
    /\ e = mkMFTEntry (attributes e) (Some h) (_raw_entry self) None.
Proof.
  unfold parse.
  destruct (parse_body _ _ _ _) as [[[[h lists]|e0] s3]|] eqn:E;
    try discriminate.
  intros [= <-]. unfold parse_body in E.
  apply bind_Ok_inv in E as (parsed & s0 & E1 & E).
  apply bind_Ok_inv in E as (h' & s0' & E2 & E).
  destruct parsed as [h0|]; [|discriminate].
  injection E2 as ? ?. subst h' s0'.
  apply bind_Ok_inv in E as (p & s1 & E3 & E).
  apply bind_Ok_inv in E as (lists' & s2 & E4 & E).
  injection E as ? ? ?. subst h0 lists' s2.
  assert (p = FirstAttributeOffset (Fields h)) as ->.
  { unfold seek in E3. destruct (_ <? 0); [discriminate|].
    now injection E3 as <- _. }
  exists h, s0, s1, s3. auto.
Qed.

End Parse.

(** The object that [__init__] builds has the ten keys, each bound to
    an empty list. *)
Lemma init_attributes raw :
  dom (attributes (__init__ raw)) = list_to_set attribute_keys
  /\ forall key, key ∈ attribute_keys ->
       attributes (__init__ raw) !! key = Some [].
Proof.
  split.
  - unfold __init__, attribute_keys. simpl.
    rewrite !dom_insert_L, dom_empty_L. set_solver.
  - intros key Hkey. unfold __init__, attribute_keys in *. simpl.
    repeat (apply elem_of_cons in Hkey as [->|Hkey]; [reflexivity|]).
    now apply elem_of_nil in Hkey.
Qed.


(** ** The buffer is never written *)

Lemma stable_ret {A : Type} (a : A) : stable (ret a).
Proof. intros s r s' [= _ <-]. reflexivity. Qed.

Lemma stable_raise {A : Type} (e : exn) : stable (@raise A e).
Proof. intros s r s' [= _ <-]. reflexivity. Qed.

Lemma stable_out_of_fuel {A : Type} : stable (@out_of_fuel A).
Proof. intros s r s' H. discriminate H. Qed.

Lemma stable_of_result {A : Type} (r : result A) : stable (of_result r).
Proof. intros s r' s' [= _ <-]. reflexivity. Qed.

Lemma stable_not_None {A : Type} (v : option A) : stable (not_None v).
Proof. destruct v; [apply stable_ret|apply stable_raise]. Qed.

Lemma stable_tell : stable tell.
Proof. intros s r s' [= _ <-]. reflexivity. Qed.

Lemma stable_seek p : stable (seek p).
Proof.
  intros s r s'. unfold seek. destruct (p <? 0); intros [= _ <-]; reflexivity.
Qed.

Lemma stable_read size : stable (read size).
Proof.
  intros s r s'. unfold read. destruct size; intros [= _ <-]; reflexivity.
Qed.

Lemma stable_parse_stream {A : Type} (p : parser A) : stable (parse_stream p).
Proof.
  intros s r s'. unfold parse_stream.
  destruct (p _ _) as [r0 q]. intros [= _ <-]. reflexivity.
Qed.

Lemma stable_getattr {V : Type} (c : Container V) key : stable (getattr c key).
Proof.
  unfold getattr. destruct (lookup_key c key);
    [apply stable_ret|apply stable_raise].
Qed.

Lemma stable_bind {A B : Type} (c : io A) (k : A -> io B) :
  stable c -> (forall a, stable (k a)) -> stable (bind c k).
Proof.
  intros Hc Hk s r s'. unfold bind.
  destruct (c s) as [[[a|e] s1]|] eqn:E; try discriminate.
  - intros H. rewrite (Hk _ _ _ _ H). eapply Hc, E.
  - intros [= _ <-]. eapply Hc, E.
Qed.

Lemma stable_try_except {A : Type} (c : io A) (handler : exn -> io A) :
  stable c -> (forall e, stable (handler e)) -> stable (try_except c handler).
Proof.
  intros Hc Hh s r s'. unfold try_except.
  destruct (c s) as [[[a|e] s1]|] eqn:E; try discriminate.
  - intros [= _ <-]. eapply Hc, E.
  - intros H. rewrite (Hh _ _ _ _ H). eapply Hc, E.
Qed.

Lemma stable_try_finally {A : Type} (c : io A) (cleanup : io unit) :
  stable c -> stable cleanup -> stable (try_finally c cleanup).
Proof.
  intros Hc Hf s r s'. unfold try_finally.
  destruct (c s) as [[r1 s1]|] eqn:E; try discriminate.
  destruct (cleanup s1) as [[[u|e] s2]|] eqn:E2; try discriminate;
    intros [= _ <-]; rewrite (Hf _ _ _ E2); eapply Hc, E.
Qed.

Lemma stable_parse_structure {A : Type} (m : option (Z -> io A)) :
  (forall f, m = Some f -> forall p, stable (f p)) ->
  stable (parse_structure m).
Proof.
  intros H. unfold parse_structure. destruct m as [f|]; [|apply stable_ret].
  apply stable_bind; [apply stable_tell|]. intros p.
  apply stable_try_except; [|intros; apply stable_ret].
  apply stable_bind; [now apply H|]. intros; apply stable_ret.
Qed.

Create HintDb stable discriminated.
#[local] Hint Resolve stable_ret stable_raise stable_out_of_fuel
  stable_of_result stable_not_None stable_tell stable_seek stable_read
  stable_parse_stream stable_getattr : stable.

(** Applies the rules above through a computation. *)
Ltac stable_step :=
  first
    [ solve [auto with stable]
    | apply stable_bind; [|intros ?]
    | apply stable_try_except; [|intros ?]
    | apply stable_try_finally
    | match goal with
      | |- stable (if ?b then _ else _) => destruct b
      | |- stable (match ?x with _ => _ end) => destruct x
      | |- stable (let '(_, _) := ?x in _) => destruct x
      end ].

Section Stable.

Variable st : Structs.

Lemma stable_access_control_entries fuel acl_position acl_size body :
  stable (access_control_entries st fuel acl_position acl_size body).
Proof.
  revert body. induction fuel as [|n IH]; intros body; simpl;
    repeat stable_step; auto.
Qed.
#[local] Hint Resolve stable_access_control_entries : stable.

Lemma stable__parse_access_control_list fuel :
  stable (_parse_access_control_list st fuel).
Proof. unfold _parse_access_control_list. repeat stable_step. Qed.
#[local] Hint Resolve stable__parse_access_control_list : stable.

Lemma stable__parse_security_descriptor fuel p h :
  stable (_parse_security_descriptor st fuel p h).
Proof. unfold _parse_security_descriptor. repeat stable_step. Qed.
#[local] Hint Resolve stable__parse_security_descriptor : stable.

Lemma stable_attribute_list_entry p : stable (attribute_list_entry st p).
Proof. unfold attribute_list_entry. repeat stable_step. Qed.
#[local] Hint Resolve stable_attribute_list_entry : stable.

Lemma stable_attribute_list_entries fuel h entries :
  stable (attribute_list_entries st fuel h entries).
Proof.
  revert entries. induction fuel as [|n IH]; intros entries; simpl;
    repeat stable_step; auto.
Qed.
#[local] Hint Resolve stable_attribute_list_entries : stable.

Lemma stable__parse_attribute_header p :
  stable (_parse_attribute_header st p).
Proof. unfold _parse_attribute_header. repeat stable_step. Qed.
#[local] Hint Resolve stable__parse_attribute_header : stable.

Lemma stable_body_parser fuel structure h f :
  body_parser st fuel structure h = Some f -> forall p, stable (f p).
Proof.
  unfold body_parser. cbv zeta.
  repeat match goal with
         | |- context [if ?b then _ else _] => destruct b
         end; intros H p; try discriminate H; injection H as Hf; subst f;
    unfold _parse_standard_information,
    _parse_attribute_list, _parse_file_name, _parse_object_id,
    _parse_volume_name, _parse_volume_information, _parse_data,
    _parse_index_root, _parse_index_allocation;
    repeat stable_step.
Qed.

Lemma stable__parse_next_attribute fuel p eh :
  stable (_parse_next_attribute st fuel p eh).
Proof.
  unfold _parse_next_attribute. repeat stable_step.
  apply stable_parse_structure. apply stable_body_parser.
Qed.

Lemma stable_scan_step fuel eh s r s' :
  scan_step st fuel eh s = Some (r, s') -> getvalue s' = getvalue s.
Proof.
  apply stable_parse_structure. intros f [= <-] p.
  apply stable__parse_next_attribute.
Qed.

End Stable.

(** ** One attribute *)

Lemma parse_structure_Ok {A : Type} (m : Z -> io A) s v s' :
  m (position s) s = Some (Ok v, s') ->
  parse_structure (Some m) s = Some (Ok (Some v), s').
Proof.
  intros H. unfold parse_structure, bind at 1, tell, try_except, bind.
  now rewrite H.
Qed.

Lemma parse_structure_Raise {A : Type} (m : Z -> io A) s e s' :
  m (position s) s = Some (Raise e, s') ->
  parse_structure (Some m) s = Some (Ok None, s').
Proof.
  intros H. unfold parse_structure, bind at 1, tell, try_except, bind.
  now rewrite H.
Qed.

Lemma parse_structure_None {A : Type} (m : Z -> io A) s :
  m (position s) s = None -> parse_structure (Some m) s = None.
Proof.
  intros H. unfold parse_structure, bind at 1, tell, try_except, bind.
  now rewrite H.
Qed.

(** [parse_structure] absorbs every exception. *)
Lemma parse_structure_never_raises {A : Type} (m : option (Z -> io A)) s e s' :
  parse_structure m s <> Some (Raise e, s').
Proof.
  destruct m as [f|]; [|discriminate].
  unfold parse_structure, bind at 1, tell, try_except, bind.
  destruct (f (position s) s) as [[[v|e0] s1]|]; discriminate.
Qed.

Section NextAttribute.

Variable st : Structs.

Lemma _parse_next_attribute_header fuel eh s h s2 :
  header_at st s = Some (h, s2) ->
  _parse_next_attribute st fuel (position s) eh s
  = decode_attribute st fuel (position s) h s2.
Proof.
  unfold header_at.
  destruct (bind _ _ s) as [[[[h'|]|e] s2']|] eqn:E; try discriminate.
  intros [= -> ->].
  apply bind_Ok_inv in E as (type_code & s1 & E1 & E).
  destruct (String.eqb type_code _) eqn:Eend; [discriminate|].
  apply bind_Ok_inv in E as (q & s1' & E2 & E3).
  unfold _parse_next_attribute.
  rewrite (bind_Ok _ _ _ _ _ E1), Eend.
  rewrite (bind_Ok _ _ _ _ _ E2), (bind_Ok _ _ _ _ _ E3).
  reflexivity.
Qed.

(** Behind a header it could read, [_parse_next_attribute] returns the
    type code of that header and leaves the stream at the position of
    the header plus its record length, whatever the body parser
    returned or raised. *)
Lemma decode_attribute_advances fuel p h s2 r s' :
  0 <= p + RecordLength h ->
  decode_attribute st fuel p h s2 = Some (r, s') ->
  position s' = p + RecordLength h
  /\ exists data, r = Ok (Some (TypeCode h), data).
Proof.
  intros Hpos. unfold decode_attribute, try_finally.
  destruct (try_except _ _ s2) as [[r1 s3]|] eqn:E; [|discriminate].
  assert (Hr1 : exists data, r1 = Ok (Some (TypeCode h), data)).
  { unfold try_except in E.
    match type of E with
    | match ?c with _ => _ end = _ =>
        destruct c as [[[v|e] s4]|] eqn:Ec; try discriminate
    end.
    - injection E as <- <-.
      destruct (negb _).
      + injection Ec as <- _. eauto.
      + apply bind_Ok_inv in Ec as (form & ? & _ & Ec).
        apply bind_Ok_inv in Ec as (? & ? & _ & Ec).
        apply bind_Ok_inv in Ec as (? & ? & _ & Ec).
        injection Ec as <- _. eauto.
    - injection E as <- _. eauto. }
  unfold bind, seek. apply Z.ltb_ge in Hpos. rewrite Hpos. simpl.
  intros [= <- <-]. auto.
Qed.

(** A resident attribute: the outcome of [_parse_next_attribute] by the
    outcome of the body parser. *)
Lemma decode_attribute_resident fuel p h s2 form :
  FormCode h = 0 -> Form h = Some form ->
  0 <= p + ValueOffset form -> 0 <= p + RecordLength h ->
  decode_attribute st fuel p h s2 =
  match
    parse_structure (body_parser st fuel (lower (TypeCode h)) h)
      (mkBytesIO (getvalue s2) (p + ValueOffset form))
  with
  | Some (Ok parsed, s3) =>
      Some (Ok (Some (TypeCode h), Some (mkAttribute h (mjoin parsed))),
            mkBytesIO (getvalue s3) (p + RecordLength h))
  | Some (Raise e, s3) =>
      Some (Ok (Some (TypeCode h), None),
            mkBytesIO (getvalue s3) (p + RecordLength h))
  | None => None
  end.
Proof.
  intros Hcode Hform Hvalue Hrecord.
  apply Z.ltb_ge in Hvalue, Hrecord.
  unfold decode_attribute. rewrite Hcode, Hform.
  change (negb (0 =? 0)) with false. cbv iota.
  unfold try_finally, try_except, bind, not_None, ret, seek.
  rewrite Hvalue.
  destruct (parse_structure _ _) as [[[parsed|e] s3]|]; try reflexivity;
    now rewrite Hrecord.
Qed.

End NextAttribute.

(** ** The decoders that have no loop return *)

Lemma returns_ret {A : Type} (a : A) : returns (ret a).
Proof. intros s. unfold ret. eauto. Qed.

Lemma returns_raise {A : Type} (e : exn) : returns (raise (A := A) e).
Proof. intros s. unfold raise. eauto. Qed.

Lemma returns_tell : returns tell.
Proof. intros s. unfold tell. eauto. Qed.

Lemma returns_seek p : returns (seek p).
Proof. intros s. unfold seek. destruct (p <? 0); eauto. Qed.

Lemma returns_read size : returns (read size).
Proof. intros s. unfold read. destruct size; eauto. Qed.

Lemma returns_of_result {A : Type} (r : result A) : returns (of_result r).
Proof. intros s. unfold of_result. eauto. Qed.

Lemma returns_not_None {A : Type} (v : option A) : returns (not_None v).
Proof. destruct v; [apply returns_ret|apply returns_raise]. Qed.

Lemma returns_parse_stream {A : Type} (p : parser A) :
  returns (parse_stream p).
Proof.
  intros s. unfold parse_stream.
  destruct (p (getvalue s) (position s)). eauto.
Qed.

Lemma returns_bind {A B : Type} (c : io A) (k : A -> io B) :
  returns c -> (forall a, returns (k a)) -> returns (bind c k).
Proof.
  intros Hc Hk s. unfold bind.
  destruct (Hc s) as ([a|e] & s' & ->); [apply Hk|eauto].
Qed.

Lemma returns_try_except {A : Type} (c : io A) (handler : exn -> io A) :
  returns c -> (forall e, returns (handler e)) ->
  returns (try_except c handler).
Proof.
  intros Hc Hh s. unfold try_except.
  destruct (Hc s) as ([a|e] & s' & ->); [eauto|apply Hh].
Qed.

Lemma returns_try_finally {A : Type} (c : io A) (cleanup : io unit) :
  returns c -> returns cleanup -> returns (try_finally c cleanup).
Proof.
  intros Hc Hf s. unfold try_finally.
  destruct (Hc s) as (r & s' & ->).
  destruct (Hf s') as ([[]|e] & s'' & ->); eauto.
Qed.

Lemma returns_parse_structure {A : Type} (m : option (Z -> io A)) :
  (forall f, m = Some f -> forall p, returns (f p)) ->
  returns (parse_structure m).
Proof.
  intros Hm. destruct m as [f|]; simpl; [|apply returns_ret].
  unfold parse_structure.
  apply returns_bind; [apply returns_tell|]. intros p.
  apply returns_try_except; [|intros; apply returns_ret].
  apply returns_bind; [now apply Hm|]. intros; apply returns_ret.
Qed.

Create HintDb returns discriminated.
#[local] Hint Resolve returns_ret returns_raise returns_tell returns_seek
  returns_read returns_of_result returns_not_None returns_parse_stream
  : returns.

(** One step through a computation made of [bind], [try] and the
    stream operations. *)
Ltac returns_step :=
  repeat first
    [ solve [auto with returns]
    | apply returns_bind; [|intros ?]
    | apply returns_try_except; [|intros ?]
    | apply returns_try_finally ].

Section Returns.

Variable st : Structs.

Lemma returns__parse_access_control_list fuel :
  returns (_parse_access_control_list st fuel).
Proof.
  intros s.
  unfold _parse_access_control_list, try_except, bind, parse_stream.
  destruct (MFTACLHeader_parser st _ _) as [[acl_h|e] q]; simpl; eauto.
Qed.

#[local] Hint Resolve returns__parse_access_control_list : returns.

Lemma returns__parse_security_descriptor fuel p h :
  returns (_parse_security_descriptor st fuel p h).
Proof. unfold _parse_security_descriptor. returns_step. Qed.

Lemma returns__parse_standard_information p h :
  returns (_parse_standard_information st p h).
Proof. unfold _parse_standard_information. returns_step. Qed.

Lemma returns__parse_file_name p h : returns (_parse_file_name st p h).
Proof. unfold _parse_file_name. returns_step. Qed.

Lemma returns__parse_object_id p h : returns (_parse_object_id st p h).
Proof. unfold _parse_object_id. returns_step. Qed.

Lemma returns__parse_volume_name p h : returns (_parse_volume_name p h).
Proof. unfold _parse_volume_name. returns_step. Qed.

Lemma returns__parse_volume_information p h :
  returns (_parse_volume_information st p h).
Proof. unfold _parse_volume_information. returns_step. Qed.

(** Every body decoder but the one of the attribute list returns, on
    every buffer and whatever the fuel. *)
Lemma returns_body_parser fuel structure h f :
  structure <> "attribute_list" ->
  body_parser st fuel structure h = Some f ->
  forall p, returns (f p).
Proof.
  intros Hlist. unfold body_parser. cbv zeta.
  repeat
    match goal with
    | |- (if String.eqb structure ?name then _ else _) = _ -> _ =>
        destruct (String.eqb structure name) eqn:?
    | |- (if ?b then _ else _) = _ -> _ => destruct b
    end;
    try discriminate;
    try (exfalso; apply Hlist; now apply String.eqb_eq);
    intros [= <-] p;
    try apply returns_raise;
    (apply returns_bind; [|intros; apply returns_ret]).
  - apply returns__parse_standard_information.
  - apply returns__parse_file_name.
  - apply returns__parse_object_id.
  - apply returns__parse_security_descriptor.
  - apply returns__parse_volume_name.
  - apply returns__parse_volume_information.
  - apply returns_ret.
  - apply returns_ret.
  - apply returns_ret.
Qed.

Lemma returns_decode_attribute fuel p h :
  lower (TypeCode h) <> "attribute_list" ->
  returns (decode_attribute st fuel p h).
Proof.
  intros Hlist. unfold decode_attribute.
  apply returns_try_finally; [|returns_step].
  apply returns_try_except; [|intros; apply returns_ret].
  destruct (negb _); [apply returns_ret|].
  apply returns_bind; [apply returns_not_None|]. intros form.
  apply returns_bind; [apply returns_seek|]. intros _.
  apply returns_bind; [|intros; apply returns_ret].
  apply returns_parse_structure. intros f Hf.
  exact (returns_body_parser fuel _ h f Hlist Hf).
Qed.

End Returns.

(** The isolation of one attribute from the next.  Behind an attribute
    header that could be read, and for every attribute type but
    ATTRIBUTE_LIST, [_parse_next_attribute] returns, whatever the fuel
    and whatever the body decoder does on the bytes of the body: it
    returns the type code of the header, and it leaves the stream at the
    start of the attribute plus the record length of its header. *)
Theorem next_attribute_advances (st : Structs) (fuel : nat)
  (eh : EntryHeader) (s : BytesIO) (h : AttributeHeader) (s2 : BytesIO) :
  header_at st s = Some (h, s2) ->
  0 <= position s + RecordLength h ->
  lower (TypeCode h) <> "attribute_list" ->
  exists data s',
    _parse_next_attribute st fuel (position s) eh s
    = Some (Ok (Some (TypeCode h), data), s')
    /\ position s' = position s + RecordLength h.
Proof.
  intros Hheader Hpos Hlist.
  rewrite (_parse_next_attribute_header st fuel eh s h s2 Hheader).
  destruct (returns_decode_attribute st fuel (position s) h Hlist s2)
    as (r & s' & E).
  destruct (decode_attribute_advances st fuel _ h s2 r s' Hpos E)
    as (Hs' & data & ->).
  eauto.
Qed.

(** C8.  An attribute that is in the record (its header is read, it is
    resident, its type is a key of the object) and whose body parser
    raises is appended to the list of its type as the header with the
    body None: the list of the parsed entry holds it, behind what the
    list held before.  An attribute that is not in the record adds
    nothing to a list. *)
Theorem body_failure_is_recorded (st : Structs) (fuel : nat)
  (eh : EntryHeader) (self : gmap string (list Attribute)) (s : BytesIO)
  (h : AttributeHeader) (s2 : BytesIO) (form : ResidentForm)
  (m : Z -> io (option Body)) (e : exn) (s3 : BytesIO)
  (already : list Attribute) (final : gmap string (list Attribute))
  (s_end : BytesIO) :
  position s < UsedSize (Fields eh) ->
  header_at st s = Some (h, s2) ->
  FormCode h = 0 -> Form h = Some form ->
  0 <= position s + ValueOffset form -> 0 <= position s + RecordLength h ->
  body_parser st fuel (lower (TypeCode h)) h = Some m ->
  m (position s + ValueOffset form)
    (mkBytesIO (getvalue s2) (position s + ValueOffset form))
    = Some (Raise e, s3) ->
  self !! lower (TypeCode h) = Some already ->
  scan_attributes st (S fuel) eh self s = Some (Ok final, s_end) ->
  exists later,
    final !! lower (TypeCode h) = Some (already ++ mkAttribute h None :: later).
Proof.
  intros Hused Hheader Hcode Hform Hvalue Hrecord Hparser Hraise Hlist Hscan.
  rewrite scan_attributes_S in Hscan.
  apply Z.ltb_lt in Hused. rewrite Hused in Hscan.
  assert (Hstep : scan_step st fuel eh s
                  = Some (Ok (Some (Some (TypeCode h),
                                    Some (mkAttribute h None))),
                          mkBytesIO (getvalue s3)
                            (position s + RecordLength h))).
  { unfold scan_step. apply parse_structure_Ok.
    rewrite (_parse_next_attribute_header st fuel eh s h s2 Hheader).
    rewrite (decode_attribute_resident st fuel _ h s2 form
               Hcode Hform Hvalue Hrecord).
    rewrite Hparser.
    now rewrite (parse_structure_Raise m
                   (mkBytesIO (getvalue s2) (position s + ValueOffset form))
                   e s3 Hraise). }
  rewrite Hstep in Hscan. cbv zeta in Hscan.
  assert (Hin : contains self (lower (TypeCode h)) = true).
  { unfold contains. rewrite bool_decide_eq_true_2; [reflexivity|].
    apply elem_of_dom. eauto. }
  rewrite Hin, Hlist in Hscan. simpl negb in Hscan. cbv iota in Hscan.
  apply scan_attributes_appends in Hscan as [_ Happ].
  destruct (Happ (lower (TypeCode h)) (already ++ [mkAttribute h None]))
    as [later Hlater]; [apply lookup_insert_eq|].
  exists later. now rewrite Hlater, <- app_assoc.
Qed.


(** C3, as the code has it.  When the structure of the entry header
    cannot be read from the raw entry, [parse] raises (the
    AttributeError of the access to [FirstAttributeOffset] on the None
    that [parse_structure] returned) and returns no entry.  The length
    of the buffer is not looked at otherwise. *)
Theorem unreadable_entry_header (st : Structs) (fuel : nat) (self : MFTEntry)
  (e : exn) (q : Z) :
  MFTEntryHeader_parser st (_raw_entry self) 0 = (Raise e, q) ->
  parse st fuel self = Some (Raise AttributeError).
Proof.
  intros H. unfold parse, parse_body.
  assert (Hh : parse_structure (Some (_parse_entry_header st))
                 (get_stream self)
               = Some (Ok None, mkBytesIO (_raw_entry self) q)).
  { apply parse_structure_Raise with (e := e).
    unfold _parse_entry_header, bind, parse_stream, get_stream. simpl.
    now rewrite H. }
  now rewrite (bind_Ok _ _ _ _ _ Hh).
Qed.

(** ** The security descriptor *)

Section SecurityDescriptor.

Variable st : Structs.

(** [_parse_access_control_list] stores the header under [header] and
    reads it back as [Header]: the access raises, the [except] returns
    None.  The function returns None on every input. *)
Lemma _parse_access_control_list_None fuel s :
  exists s', _parse_access_control_list st fuel s = Some (Ok None, s')
             /\ getvalue s' = getvalue s.
Proof.
  unfold _parse_access_control_list, try_except, bind, parse_stream.
  destruct (MFTACLHeader_parser st _ _) as [[acl_h|e] q]; simpl;
    eexists; split; reflexivity.
Qed.

Lemma seek_Ok p s :
  0 <= p -> seek p s = Some (Ok p, mkBytesIO (getvalue s) p).
Proof. intros H. unfold seek. apply Z.ltb_ge in H. now rewrite H. Qed.



End SecurityDescriptor.

(** ** The attribute header *)

(** C7, as the code has it: the count of bytes to read for the name is
    the float [NameLength * 2.], [read] raises TypeError, the [except]
    sets the name to None.  A header that is returned has the name
    None, whatever the buffer holds. *)
Theorem attribute_name_is_never_read (st : Structs) (p : Z) (s : BytesIO) :
  match _parse_attribute_header st p s with
  | Some (Ok h, _) => Name h = None
  | Some (Raise _, _) => True
  | None => False
  end.
Proof.
  unfold _parse_attribute_header, bind at 1.
  destruct (parse_stream _ s) as [[[h|e] s1]|] eqn:E.
  - destruct (NameLength h >? 0); [|reflexivity].
    unfold try_except, bind, seek, read, mul_float.
    destruct (_ <? 0); reflexivity.
  - exact I.
  - unfold parse_stream in E. destruct (MFTAttributeHeader_parser _ _ _).
    discriminate E.
Qed.

(** ** The loops *)

Section Loops.

Variable st : Structs.

(** C5, as the code has it: the loop of [_parse_attribute_list] runs
    while the position of the stream in the whole entry is below the
    length of the value.  A list whose body starts at or behind that
    offset of the entry is returned empty, and nothing of it is read. *)
Theorem attribute_list_guard_is_absolute (fuel : nat) (p : Z)
  (h : AttributeHeader) (form : ResidentForm) (s : BytesIO) :
  Form h = Some form ->
  ValueLength form <= position s ->
  _parse_attribute_list st fuel p h s = Some (Ok ∅, s).
Proof.
  intros Hform Hle. apply Z.ltb_ge in Hle.
  unfold _parse_attribute_list, bind.
  destruct fuel; simpl; unfold bind, tell, not_None; rewrite Hform;
    unfold ret; now rewrite Hle.
Qed.

(** An entry of the list with the record length 0 keeps the loop of
    [_parse_attribute_list] at the same position for ever. *)
Lemma attribute_list_entries_hangs h form s entry s1 :
  Form h = Some form ->
  position s < ValueLength form ->
  0 <= position s ->
  attribute_list_entry st (position s) s = Some (Ok (Some entry), s1) ->
  ALE_RecordLength entry = 0 ->
  forall fuel entries, attribute_list_entries st fuel h entries s = None.
Proof.
  intros Hform Hlt Hpos Hentry Hzero.
  assert (Hback : seek (position s + ALE_RecordLength entry) s1
                  = Some (Ok (position s + 0), s)).
  { rewrite Hzero, seek_Ok by lia.
    rewrite (stable_attribute_list_entry st _ _ _ _ Hentry).
    destruct s. simpl. now rewrite Z.add_0_r. }
  apply Z.ltb_lt in Hlt.
  induction fuel as [|n IH]; intros entries; simpl;
    unfold bind at 1; unfold tell; unfold bind at 1; rewrite Hform;
    simpl not_None; unfold ret at 1; rewrite Hlt; [reflexivity|].
  unfold bind at 1. rewrite (bind_Ok _ _ _ _ _ Hentry).
  rewrite (bind_Ok _ _ _ _ _ Hback). apply IH.
Qed.

Lemma scan_step_fuel fuel fuel' eh s r :
  (fuel <= fuel')%nat ->
  scan_step st fuel eh s = Some r -> scan_step st fuel' eh s = Some r.
Proof.
  intros Hle. unfold scan_step.
  apply (refines_parse_structure
           (Some (fun p => _parse_next_attribute st fuel p eh))
           (Some (fun p => _parse_next_attribute st fuel' p eh))).
  intros p. now apply _parse_next_attribute_fuel.
Qed.

(** An attribute that leaves the stream where it found it keeps the
    loop of [parse] at the same position for ever. *)
Lemma scan_attributes_hangs eh s attribute_type attribute_data :
  position s < UsedSize (Fields eh) ->
  scan_step st 0 eh s
    = Some (Ok (Some (Some attribute_type, attribute_data)), s) ->
  contains ∅ (lower attribute_type) = false ->
  forall fuel self, scan_attributes st fuel eh self s = None.
Proof.
  intros Hlt Hstep Hkey. apply Z.ltb_lt in Hlt.
  induction fuel as [|n IH]; intros self.
  - now rewrite scan_attributes_O, Hlt.
  - rewrite scan_attributes_S, Hlt.
    rewrite (scan_step_fuel 0 n eh s _ ltac:(lia) Hstep). cbv zeta.
    destruct (contains self (lower attribute_type)) eqn:Hin; [|apply IH].
    simpl negb. cbv iota. destruct attribute_data; [|apply IH].
    destruct (self !! lower attribute_type) eqn:Hl; [apply IH|].
    exfalso. unfold contains in Hin, Hkey.
    rewrite dom_empty_L in Hkey.
    rewrite bool_decide_eq_false_2 in Hkey by apply not_elem_of_empty.
    apply not_elem_of_dom in Hl.
    rewrite bool_decide_eq_false_2 in Hin by exact Hl.
    simpl in Hkey, Hin. congruence.
Qed.

End Loops.

(** [parse] behind an entry header that it could read: the outcome of
    the scan that starts at the first attribute. *)
Lemma parse_scan (st : Structs) fuel self h s0 :
  parse_structure (Some (_parse_entry_header st)) (get_stream self)
    = Some (Ok (Some h), s0) ->
  0 <= FirstAttributeOffset (Fields h) ->
  parse st fuel self =
  match
    scan_attributes st fuel h (attributes self)
      (mkBytesIO (getvalue s0) (FirstAttributeOffset (Fields h)))
  with
  | None => None
  | Some (Ok lists, _) =>
      Some (Ok (mkMFTEntry lists (Some h) (_raw_entry self) None))
  | Some (Raise e, _) => Some (Raise e)
  end.
Proof.
  intros Hh Hfirst. unfold parse, parse_body.
  rewrite (bind_Ok _ _ _ _ _ Hh).
  rewrite (bind_Ok _ _ _ _ _ (eq_refl : not_None (Some h) s0 = _)).
  rewrite (bind_Ok _ _ _ _ _ (seek_Ok _ s0 Hfirst)).
  unfold bind.
  destruct (scan_attributes _ _ _ _ _) as [[[lists|e] s2]|]; reflexivity.
Qed.

(** ** Entries that never finish *)

(** C2, as the code has it.  The entry [zero_record_length_entry] holds
    a STANDARD_INFORMATION attribute and behind it a FILE_NAME attribute
    whose header has the record length 0, both below the used size.
    The [finally] of [_parse_next_attribute] seeks to the start of that
    attribute plus 0, the loop of [parse] meets the same attribute
    again: no amount of fuel lets [parse] return. *)
Theorem zero_record_length_never_returns (fuel : nat) :
  parse spec_structs fuel (__init__ Example.zero_record_length_entry) = None.
Proof.
  rewrite (parse_scan spec_structs fuel _ (Example.header_of 56 232)
             (mkBytesIO Example.zero_record_length_entry 48));
    [|vm_compute; reflexivity|vm_compute; discriminate].
  change (mkBytesIO _ (FirstAttributeOffset _))
    with (mkBytesIO Example.zero_record_length_entry 56).
  destruct fuel as [|n]; [reflexivity|].
  rewrite scan_attributes_S.
  change (position _ <? UsedSize _) with true. cbv iota.
  assert (exists data,
    scan_step spec_structs 0 (Example.header_of 56 232)
      (mkBytesIO Example.zero_record_length_entry 56)
    = Some (Ok (Some (Some "STANDARD_INFORMATION", Some data)),
            mkBytesIO Example.zero_record_length_entry 120)) as [data H1].
  { eexists. vm_compute. reflexivity. }
  rewrite (scan_step_fuel spec_structs 0 n _ _ _ ltac:(lia) H1).
  cbv zeta.
  change (contains _ _) with true. cbv iota. simpl negb. cbv iota.
  change (attributes (__init__ Example.zero_record_length_entry)
            !! lower "STANDARD_INFORMATION") with (Some (@nil Attribute)).
  cbv iota.
  assert (Hhang : forall fuel self,
             scan_attributes spec_structs fuel (Example.header_of 56 232) self
               (mkBytesIO Example.zero_record_length_entry 120) = None).
  { eapply scan_attributes_hangs with (attribute_type := "FILE_NAME");
      [reflexivity|vm_compute; reflexivity|reflexivity]. }
  now rewrite Hhang.
Qed.

(** C1, as the code has it.  The two entries [attribute_list_entry_with]
    hold an ATTRIBUTE_LIST attribute and behind it a STANDARD_INFORMATION
    attribute.  They differ in two bytes of the body of the list, the
    record length of its first entry; the headers of the list attribute
    are the same.  With the record length 32 the entry is parsed and
    STANDARD_INFORMATION is decoded.  With the record length 0 the loop
    of [_parse_attribute_list] stays on that entry: the scan does not
    advance past the list attribute and [parse] never returns, so
    STANDARD_INFORMATION is not decoded. *)
Theorem attribute_list_entry_of_length_zero_never_returns :
  (exists e standard_information,
      parse spec_structs 5 (__init__ (Example.attribute_list_entry_with 32))
        = Some (Ok e)
      /\ attributes e !! "standard_information" = Some [standard_information])
  /\ fst <$> header_at spec_structs
               (mkBytesIO (Example.attribute_list_entry_with 0) 56)
     = fst <$> header_at spec_structs
                 (mkBytesIO (Example.attribute_list_entry_with 32) 56)
  /\ forall fuel,
       parse spec_structs fuel (__init__ (Example.attribute_list_entry_with 0))
       = None.
Proof.
  split; [|split].
  - do 2 eexists. split; vm_compute; reflexivity.
  - vm_compute. reflexivity.
  - intros fuel.
    set (buf := Example.attribute_list_entry_with 0).
    set (eh := Example.header_of 56 344).
    rewrite (parse_scan spec_structs fuel _ eh (mkBytesIO buf 48));
      [|vm_compute; reflexivity|vm_compute; discriminate].
    change (mkBytesIO _ (FirstAttributeOffset _)) with (mkBytesIO buf 56).
    destruct fuel as [|n]; [reflexivity|].
    rewrite scan_attributes_S.
    change (position _ <? UsedSize _) with true. cbv iota.
    set (h := mkAttributeHeader "ATTRIBUTE_LIST" 216 0 0 0 0 0
                (Some (mkResidentForm 192 24 0)) None).
    assert (Hheader : header_at spec_structs (mkBytesIO buf 56)
                      = Some (h, mkBytesIO buf 79))
      by (vm_compute; reflexivity).
    assert (Hstep : scan_step spec_structs n eh (mkBytesIO buf 56) = None).
    { unfold scan_step. apply parse_structure_None.
      rewrite (_parse_next_attribute_header spec_structs n eh _ h _ Hheader).
      rewrite (decode_attribute_resident spec_structs n _ h _
                 (mkResidentForm 192 24 0) eq_refl eq_refl);
        [|vm_compute; discriminate|vm_compute; discriminate].
      change (body_parser spec_structs n (lower (TypeCode h)) h)
        with (Some (fun original_position =>
                      value <- _parse_attribute_list spec_structs n
                                 original_position h ;;
                      ret (Some (BAttributeList value)))).
      rewrite parse_structure_None; [reflexivity|].
      apply bind_None. unfold _parse_attribute_list. apply bind_None.
      eapply attribute_list_entries_hangs;
        [reflexivity|reflexivity|vm_compute; discriminate
        |vm_compute; reflexivity|reflexivity]. }
    now rewrite Hstep.
Qed.

(** ** The theorems at concrete entries *)


(** The STANDARD_INFORMATION attribute of [failing_body_entry] has its
    value offset behind the end of the buffer: the body parser raises
    StreamError, and the scan records the header with the body None. *)
Lemma body_failure_is_recorded_witness :
  scan_attributes spec_structs 3 (Example.header_of 56 128)
    (attributes (__init__ Example.failing_body_entry))
    (mkBytesIO Example.failing_body_entry 56)
  = Some (Ok Example.failing_body_lists,
          mkBytesIO Example.failing_body_entry 124)
  /\ exists later,
       Example.failing_body_lists !! "standard_information"
       = Some ([] ++ mkAttribute Example.failing_header None :: later).
Proof.
  split; [by_decision|].
  apply (body_failure_is_recorded spec_structs 2 (Example.header_of 56 128)
           (attributes (__init__ Example.failing_body_entry))
           (mkBytesIO Example.failing_body_entry 56)
           Example.failing_header
           (mkBytesIO Example.failing_body_entry 79)
           (mkResidentForm 36 2000 0)
           (fun original_position =>
              value <- _parse_standard_information spec_structs
                         original_position Example.failing_header ;;
              ret (Some (BStandardInformation value)))
           StreamError
           (mkBytesIO Example.failing_body_entry 2056)
           []
           Example.failing_body_lists
           (mkBytesIO Example.failing_body_entry 124)).
  - reflexivity.
  - by_decision.
  - reflexivity.
  - reflexivity.
  - vm_compute. discriminate.
  - vm_compute. discriminate.
  - reflexivity.
  - by_decision.
  - by_decision.
  - by_decision.
Defined.


(** The first 47 bytes of an entry do not hold the entry header of 48
    bytes. *)
Lemma unreadable_entry_header_witness :
  length (take 47 Example.well_formed_entry) = 47%nat
  /\ parse spec_structs 5 (__init__ (take 47 Example.well_formed_entry))
     = Some (Raise AttributeError).
Proof.
  split; [reflexivity|].
  apply (unreadable_entry_header spec_structs 5
           (__init__ (take 47 Example.well_formed_entry)) StreamError 47).
  by_decision.
Defined.

(** Against C3 as stated.  A buffer of 64 bytes, shorter than 1024,
    with an entry header and the end marker is parsed and an entry is
    returned.  And an entry of 1024 bytes whose entry header is read
    makes [parse] raise and return no entry, when the header of its
    first attribute runs past the end of the buffer. *)
Lemma short_buffer_is_decoded :
  length Example.short_entry = 64%nat
  /\ parse spec_structs 1 (__init__ Example.short_entry)
     = Some (Ok (mkMFTEntry (attributes (__init__ Example.short_entry))
                   (Some (Example.header_of 56 64)) Example.short_entry None))
  /\ length Example.truncated_attribute_entry = 1024%nat
  /\ parse_structure (Some (_parse_entry_header spec_structs))
       (get_stream (__init__ Example.truncated_attribute_entry))
     = Some (Ok (Some (Example.header_of 1012 1024)),
             mkBytesIO Example.truncated_attribute_entry 48)
  /\ parse spec_structs 1 (__init__ Example.truncated_attribute_entry)
     = Some (Raise TypeError).
Proof. repeat split; by_decision. Qed.

(** The attribute list of [three_entries_entry] starts at offset 80 of
    the entry and its value has 78 bytes.  Its first two entries parse
    where they stand, but the loop of [_parse_attribute_list] does not
    read them: 80 is not below 78, the list is returned empty. *)
Lemma attribute_list_guard_is_absolute_witness :
  header_at spec_structs (mkBytesIO Example.three_entries_entry 56)
    = Some (Example.three_entries_header,
            mkBytesIO Example.three_entries_entry 79)
  /\ attribute_list_entry spec_structs 80
       (mkBytesIO Example.three_entries_entry 80)
     = Some (Ok (Some (mkAttributeListEntry "STANDARD_INFORMATION" 26 0 26 0
                         (mkFileReference 9 1) 0 [])),
             mkBytesIO Example.three_entries_entry 106)
  /\ attribute_list_entry spec_structs 106
       (mkBytesIO Example.three_entries_entry 106)
     = Some (Ok (Some (mkAttributeListEntry "FILE_NAME" 26 0 26 0
                         (mkFileReference 9 1) 0 [])),
             mkBytesIO Example.three_entries_entry 132)
  /\ _parse_attribute_list spec_structs 5 80 Example.three_entries_header
       (mkBytesIO Example.three_entries_entry 80)
     = Some (Ok ∅, mkBytesIO Example.three_entries_entry 80).
Proof.
  split; [by_decision|]. split; [by_decision|]. split; [by_decision|].
  apply (attribute_list_guard_is_absolute spec_structs 5 80
           Example.three_entries_header (mkResidentForm 78 24 0)
           (mkBytesIO Example.three_entries_entry 80)).
  - reflexivity.
  - vm_compute. discriminate.
Defined.



(** The attribute of [named_attribute_entry] has the name [$I30], four
    UTF-16 code units at offset 24 of the attribute, which decode; the
    header that [_parse_attribute_header] returns has the name None. *)
Lemma named_attribute_has_no_name :
  decode_UTF16 (take 8 (drop 80 Example.named_attribute_entry))
    = Ok [0x24; 0x49; 0x33; 0x30]
  /\ _parse_attribute_header spec_structs 56
       (mkBytesIO Example.named_attribute_entry 56)
     = Some (Ok (mkAttributeHeader "INDEX_ROOT" 64 0 4 24 0 0
                   (Some (mkResidentForm 16 32 0)) None),
             mkBytesIO Example.named_attribute_entry 80).
Proof. split; by_decision. Qed.

Lemma next_attribute_advances_witness :
  header_at spec_structs (mkBytesIO Example.failing_body_entry 56)
  = Some (Example.failing_header, mkBytesIO Example.failing_body_entry 79)
  /\ exists data s',
       _parse_next_attribute spec_structs 0 56 (Example.header_of 56 128)
         (mkBytesIO Example.failing_body_entry 56)
       = Some (Ok (Some "STANDARD_INFORMATION", data), s')
       /\ position s' = 56 + 64.
Proof.
  split; [by_decision|].
  apply (next_attribute_advances spec_structs 0 (Example.header_of 56 128)
           (mkBytesIO Example.failing_body_entry 56)
           Example.failing_header
           (mkBytesIO Example.failing_body_entry 79)).
  - by_decision.
  - vm_compute. discriminate.
  - vm_compute. discriminate.
Defined.

(** ** The timestamp converter *)

Module WindowsTimeFacts.

Import WindowsTime.

Lemma is_leap_true y : is_leap y = true <->
  y mod 4 = 0 /\ (y mod 100 <> 0 \/ y mod 400 = 0).
Proof.
  unfold is_leap.
  rewrite andb_true_iff, orb_true_iff, negb_true_iff, !Z.eqb_eq, Z.eqb_neq.
  reflexivity.
Qed.

Lemma year_of_days_spec n :
  0 <= n ->
  1601 <= fst (year_of_days n)
  /\ 0 <= snd (year_of_days n)
     < (if is_leap (fst (year_of_days n)) then 366 else 365)
  /\ days_before_year (fst (year_of_days n)) + snd (year_of_days n) = n.
Proof.
  intros Hn. unfold year_of_days, days_before_year. cbn [fst snd].
  set (n400 := n / 146097). set (r400 := n mod 146097).
  assert (H400 : n = 146097 * n400 + r400 /\ 0 <= r400 < 146097 /\ 0 <= n400).
  { subst n400 r400. pose proof (Z.div_mod n 146097 ltac:(lia)).
    pose proof (Z.mod_pos_bound n 146097 ltac:(lia)).
    pose proof (Z.div_pos n 146097 Hn ltac:(lia)). lia. }
  clearbody n400 r400.
  set (n100 := Z.min (r400 / 36524) 3).
  assert (H100 : 0 <= n100 <= 3 /\ 0 <= r400 - n100 * 36524
                 /\ (n100 < 3 -> r400 - n100 * 36524 < 36524)
                 /\ r400 - n100 * 36524 <= 36524).
  { subst n100. pose proof (Z.div_mod r400 36524 ltac:(lia)).
    pose proof (Z.mod_pos_bound r400 36524 ltac:(lia)). lia. }
  clearbody n100. set (r100 := r400 - n100 * 36524) in *.
  assert (Hr100 : r400 = r100 + n100 * 36524) by (subst r100; lia).
  clearbody r100.
  set (n4 := r100 / 1461). set (r4 := r100 mod 1461).
  assert (H4 : r100 = 1461 * n4 + r4 /\ 0 <= r4 < 1461 /\ 0 <= n4 <= 24).
  { subst n4 r4. pose proof (Z.div_mod r100 1461 ltac:(lia)).
    pose proof (Z.mod_pos_bound r100 1461 ltac:(lia)). lia. }
  clearbody n4 r4.
  set (n1 := Z.min (r4 / 365) 3).
  assert (H1 : 0 <= n1 <= 3 /\ 0 <= r4 - n1 * 365
               /\ (n1 < 3 -> r4 - n1 * 365 < 365)).
  { subst n1. pose proof (Z.div_mod r4 365 ltac:(lia)).
    pose proof (Z.mod_pos_bound r4 365 ltac:(lia)). lia. }
  clearbody n1.
  set (y := 1601 + 400 * n400 + 100 * n100 + 4 * n4 + n1).
  assert (Hk : y - 1601 = 400 * n400 + 100 * n100 + 4 * n4 + n1)
    by (subst y; lia).
  assert (Hk4 : (y - 1601) / 4 = 100 * n400 + 25 * n100 + n4).
  { symmetry. apply (Z.div_unique _ 4 _ n1); lia. }
  assert (Hk100 : (y - 1601) / 100 = 4 * n400 + n100).
  { symmetry. apply (Z.div_unique _ 100 _ (4 * n4 + n1)); lia. }
  assert (Hk400 : (y - 1601) / 400 = n400).
  { symmetry. apply (Z.div_unique _ 400 _ (100 * n100 + 4 * n4 + n1)); lia. }
  assert (Hy4 : y mod 4 = (n1 + 1) mod 4).
  { subst y.
    replace (1601 + 400 * n400 + 100 * n100 + 4 * n4 + n1)
      with (n1 + 1 + (400 + 100 * n400 + 25 * n100 + n4) * 4) by lia.
    apply Z.mod_add. lia. }
  assert (Hy100 : y mod 100 = (4 * n4 + n1 + 1) mod 100).
  { subst y.
    replace (1601 + 400 * n400 + 100 * n100 + 4 * n4 + n1)
      with (4 * n4 + n1 + 1 + (16 + 4 * n400 + n100) * 100) by lia.
    apply Z.mod_add. lia. }
  assert (Hy400 : y mod 400 = (100 * n100 + 4 * n4 + n1 + 1) mod 400).
  { subst y.
    replace (1601 + 400 * n400 + 100 * n100 + 4 * n4 + n1)
      with (100 * n100 + 4 * n4 + n1 + 1 + (4 + n400) * 400) by lia.
    apply Z.mod_add. lia. }
  rewrite Hk4, Hk100, Hk400. split; [lia|]. split; [|lia].
  destruct (is_leap y) eqn:Hleap.
  - lia.
  - assert (Hnot : ~ (y mod 4 = 0 /\ (y mod 100 <> 0 \/ y mod 400 = 0))).
    { rewrite <- is_leap_true. congruence. }
    rewrite Hy4, Hy100, Hy400 in Hnot.
    destruct (Z.eq_dec n1 3) as [->|Hn1]; [|lia].
    destruct (Z.eq_dec n4 24) as [->|Hn4].
    + destruct (Z.eq_dec n100 3) as [->|Hn100]; [|lia].
      exfalso. apply Hnot. split; [reflexivity|]. right. reflexivity.
    + exfalso. apply Hnot. split; [reflexivity|]. left.
      rewrite Z.mod_small by lia. lia.
Qed.

Ltac table_values :=
  repeat match goal with
         | |- context [days_before_month ?leap (Z.pos ?m)] =>
             let v := eval vm_compute in (days_before_month leap (Z.pos m)) in
             change (days_before_month leap (Z.pos m)) with v
         | |- context [days_in_month ?leap (Z.pos ?m)] =>
             let v := eval vm_compute in (days_in_month leap (Z.pos m)) in
             change (days_in_month leap (Z.pos m)) with v
         end.

Lemma month_of_day_spec (leap : bool) (doy : Z) :
  0 <= doy < (if leap then 366 else 365) ->
  1 <= month_of_day leap doy <= 12
  /\ 1 <= doy - days_before_month leap (month_of_day leap doy) + 1
     <= days_in_month leap (month_of_day leap doy)
  /\ days_before_month leap (month_of_day leap doy)
     + (doy - days_before_month leap (month_of_day leap doy) + 1 - 1) = doy.
Proof.
  intros Hdoy. unfold month_of_day.
  destruct leap; cbn [find]; table_values;
    repeat match goal with
           | |- context [if ?a <=? ?b then _ else _] =>
               destruct (Z.leb_spec a b)
           end; table_values; lia.
Qed.

Lemma time_of_day_spec (rest : Z) :
  0 <= rest < MICROSECONDS_PER_DAY ->
  0 <= rest / 3600000000 < 24
  /\ 0 <= rest / 60000000 mod 60 < 60
  /\ 0 <= rest / 1000000 mod 60 < 60
  /\ 0 <= rest mod 1000000 < 1000000
  /\ ((rest / 3600000000) * 60 + rest / 60000000 mod 60) * 60000000
     + (rest / 1000000 mod 60) * 1000000 + rest mod 1000000 = rest.
Proof.
  unfold MICROSECONDS_PER_DAY. intros H.
  Z.to_euclidean_division_equations. lia.
Qed.

Lemma days_before_year_10000 (y : Z) :
  10000 <= y -> 3067671 <= days_before_year y.
Proof.
  unfold days_before_year. intros H.
  Z.to_euclidean_division_equations. lia.
Qed.

(** C4.  The converter returns the epoch 1601-01-01T00:00:00 for the
    raw value 0.  For every raw value of 64 bits it returns either a
    timestamp of the calendar (a valid date up to the year 9999 and a
    valid time of day) that denotes the instant [raw / 10] microseconds
    after the epoch, which is the epoch plus [raw] times 100 ns cut to
    microseconds, or the failure InvalidTimestamp, and that only for an
    instant in the year 10000 or later. *)
Theorem timestamp_conversion (raw : Z) :
  0 <= raw < 2 ^ 64 ->
  parse 0 = Ok (mkdatetime 1601 1 1 0 0 0 0)
  /\ parse Example.filetime_2009 = Ok (mkdatetime 2009 7 14 4 40 52 540076)
  /\ match parse raw with
     | Ok t =>
         microseconds_since_1601 t = raw / 10
         /\ 1601 <= year t <= MAXYEAR
         /\ 1 <= month t <= 12
         /\ 1 <= day t <= days_in_month (is_leap (year t)) (month t)
         /\ 0 <= hour t < 24 /\ 0 <= minute t < 60 /\ 0 <= second t < 60
         /\ 0 <= microsecond t < 1000000
     | Raise e =>
         e = InvalidTimestamp
         /\ days_before_year 10000 * MICROSECONDS_PER_DAY <= raw / 10
     end.
Proof.
  intros Hraw. split; [reflexivity|]. split; [reflexivity|].
  unfold parse.
  set (us := raw / 10).
  assert (Hus : 0 <= us) by (subst us; apply Z.div_pos; lia).
  set (days := us / MICROSECONDS_PER_DAY).
  set (rest := us mod MICROSECONDS_PER_DAY).
  assert (Hsplit : us = MICROSECONDS_PER_DAY * days + rest
                   /\ 0 <= rest < MICROSECONDS_PER_DAY /\ 0 <= days).
  { subst days rest. unfold MICROSECONDS_PER_DAY.
    pose proof (Z.div_mod us 86400000000 ltac:(lia)).
    pose proof (Z.mod_pos_bound us 86400000000 ltac:(lia)).
    pose proof (Z.div_pos us 86400000000 Hus ltac:(lia)). lia. }
  destruct Hsplit as (Hsum & Hrest & Hdays). clearbody days rest.
  pose proof (year_of_days_spec days Hdays) as (Hy & Hdoy & Hyear).
  destruct (year_of_days days) as [y doy]. cbn [fst snd] in *.
  destruct (Z.gtb_spec y MAXYEAR) as [Hmax|Hmax].
  - split; [reflexivity|]. unfold MAXYEAR in Hmax.
    pose proof (days_before_year_10000 y ltac:(lia)).
    change (days_before_year 10000) with 3067671.
    unfold MICROSECONDS_PER_DAY in *. lia.
  - pose proof (month_of_day_spec (is_leap y) doy Hdoy) as (Hm & Hd & Hmonth).
    pose proof (time_of_day_spec rest Hrest) as (Hh & Hmi & Hs & Hmu & Htime).
    cbv zeta. unfold microseconds_since_1601. cbn [year month day hour minute
      second microsecond].
    repeat split; try lia.
    set (dbm := days_before_month (is_leap y) (month_of_day (is_leap y) doy))
      in *.
    set (hh := rest / 3600000000) in *.
    set (mm := rest / 60000000 mod 60) in *.
    set (ss := rest / 1000000 mod 60) in *.
    set (uu := rest mod 1000000) in *.
    clearbody dbm hh mm ss uu. unfold MICROSECONDS_PER_DAY in *. lia.
Qed.

(** The timestamp 2009-07-14T04:40:52.540076Z. *)
Lemma timestamp_conversion_witness :
  0 <= Example.filetime_2009 < 2 ^ 64
  /\ parse 0 = Ok (mkdatetime 1601 1 1 0 0 0 0)
  /\ parse Example.filetime_2009 = Ok (mkdatetime 2009 7 14 4 40 52 540076)
  /\ match parse Example.filetime_2009 with
     | Ok t =>
         microseconds_since_1601 t = Example.filetime_2009 / 10
         /\ 1601 <= year t <= MAXYEAR
         /\ 1 <= month t <= 12
         /\ 1 <= day t <= days_in_month (is_leap (year t)) (month t)
         /\ 0 <= hour t < 24 /\ 0 <= minute t < 60 /\ 0 <= second t < 60
         /\ 0 <= microsecond t < 1000000
     | Raise e =>
         e = InvalidTimestamp
         /\ days_before_year 10000 * MICROSECONDS_PER_DAY
            <= Example.filetime_2009 / 10
     end.
Proof.
  assert (H : 0 <= Example.filetime_2009 < 2 ^ 64)
    by (unfold Example.filetime_2009; lia).
  split; [exact H|]. exact (timestamp_conversion Example.filetime_2009 H).
Defined.

End WindowsTimeFacts.

(** * The scan, attribute by attribute *)

Section Attributes.

Variable st : Structs.

Lemma returns__parse_attribute_header p :
  returns (_parse_attribute_header st p).
Proof.
  unfold _parse_attribute_header.
  apply returns_bind; [apply returns_parse_stream|]. intros h.
  destruct (NameLength h >? 0); returns_step.
Qed.

Lemma returns__parse_entry_header p : returns (_parse_entry_header st p).
Proof.
  unfold _parse_entry_header.
  apply returns_bind; [apply returns_parse_stream|]. intros h.
  apply returns_ret.
Qed.

(** [parse_structure] on a method that returns gives a value, None
    when the method raised. *)
Lemma parse_structure_value {A : Type} (m : Z -> io A) s :
  (forall p, returns (m p)) ->
  exists v s', parse_structure (Some m) s = Some (Ok v, s').
Proof.
  intros Hm. destruct (Hm (position s) s) as ([v|e] & s' & E).
  - exists (Some v), s'. now apply parse_structure_Ok.
  - exists None, s'. now apply (parse_structure_Raise m s e).
Qed.

Lemma header_at_stable s h s2 :
  header_at st s = Some (h, s2) -> getvalue s2 = getvalue s.
Proof.
  unfold header_at.
  destruct (bind _ _ s) as [[[[h'|]|e] s2']|] eqn:E; try discriminate.
  intros [= _ <-]. revert E. apply stable_bind.
  - apply stable_parse_stream.
  - intros code. destruct (String.eqb code _); [apply stable_ret|].
    apply stable_bind; [apply stable_seek|]. intros _.
    apply stable_parse_structure. intros f [= <-] p.
    apply stable__parse_attribute_header.
Qed.

(** Where [_parse_next_attribute] finds no header: at the end marker it
    returns the pair of None; else it raises, the exception of the type
    code, or the AttributeError of reading a field of the None that it
    got for the header. *)
Lemma _parse_next_attribute_without_header fuel eh s :
  header_at st s = None -> 0 <= position s ->
  exists r s',
    _parse_next_attribute st fuel (position s) eh s = Some (r, s')
    /\ if at_end_marker st s then r = Ok (None, None)
       else exists e, r = Raise e.
Proof.
  intros Hnone Hpos. unfold header_at in Hnone.
  unfold _parse_next_attribute, at_end_marker.
  destruct (parse_stream (MFTAttributeTypeCode_parser st) s)
    as [[[code|e] s1]|] eqn:E.
  - rewrite (bind_Ok _ _ _ _ _ E) in Hnone. rewrite (bind_Ok _ _ _ _ _ E).
    destruct (String.eqb code "END_OF_ATTRIBUTES"); [eauto|].
    assert (Eseek : seek (position s) s1
                    = Some (Ok (position s),
                            mkBytesIO (getvalue s1) (position s))).
    { unfold seek. apply Z.ltb_ge in Hpos. now rewrite Hpos. }
    rewrite (bind_Ok _ _ _ _ _ Eseek) in Hnone.
    rewrite (bind_Ok _ _ _ _ _ Eseek).
    destruct (parse_structure_value (_parse_attribute_header st)
                (mkBytesIO (getvalue s1) (position s))
                returns__parse_attribute_header) as (nah & s2 & Eh).
    rewrite Eh in Hnone. destruct nah as [h|]; [discriminate|].
    rewrite (bind_Ok _ _ _ _ _ Eh).
    exists (Raise AttributeError), s2. split; [reflexivity|eauto].
  - rewrite (bind_Raise _ _ _ _ _ E). eauto.
  - unfold parse_stream in E.
    destruct (MFTAttributeTypeCode_parser st _ _); discriminate.
Qed.

(** The turn of the loop behind a header that could be read, for every
    attribute type but the attribute list. *)
Lemma scan_step_advances fuel eh s h s2 :
  header_at st s = Some (h, s2) ->
  0 <= position s + RecordLength h ->
  lower (TypeCode h) <> "attribute_list" ->
  exists data s',
    scan_step st fuel eh s = Some (Ok (Some (Some (TypeCode h), data)), s')
    /\ position s' = position s + RecordLength h
    /\ getvalue s' = getvalue s.
Proof.
  intros Hheader Hpos Hlist.
  destruct (returns_decode_attribute st fuel (position s) h Hlist s2)
    as (r & s' & E).
  destruct (decode_attribute_advances st fuel _ h s2 r s' Hpos E)
    as (Hs' & data & ->).
  rewrite <- (_parse_next_attribute_header st fuel eh s h s2 Hheader) in E.
  assert (Hstep : scan_step st fuel eh s
                  = Some (Ok (Some (Some (TypeCode h), data)), s')).
  { unfold scan_step. now apply parse_structure_Ok. }
  exists data, s'. split; [exact Hstep|]. split; [exact Hs'|].
  exact (stable_scan_step st fuel eh s _ s' Hstep).
Qed.

(** What the lists of one object get appended by the scan, the lists of
    another object with the same keys get appended too. *)
Lemma scan_attributes_appends_the_same fuel eh self1 self2 s final1 s' :
  dom self1 = dom self2 ->
  scan_attributes st fuel eh self1 s = Some (Ok final1, s') ->
  exists final2,
    scan_attributes st fuel eh self2 s = Some (Ok final2, s')
    /\ dom final1 = dom final2
    /\ forall key l1 l2,
         self1 !! key = Some l1 -> self2 !! key = Some l2 ->
         exists added,
           final1 !! key = Some (l1 ++ added)
           /\ final2 !! key = Some (l2 ++ added).
Proof.
  revert self1 self2 s. induction fuel as [|n IH]; intros self1 self2 s Hdom.
  - rewrite !scan_attributes_O. destruct (_ <? _); [discriminate|].
    intros [= <- <-]. exists self2. split; [reflexivity|].
    split; [exact Hdom|]. intros key l1 l2 H1 H2. exists [].
    now rewrite !app_nil_r.
  - rewrite !scan_attributes_S. destruct (_ <? _).
    2:{ intros [= <- <-]. exists self2. split; [reflexivity|].
        split; [exact Hdom|]. intros key l1 l2 H1 H2. exists [].
        now rewrite !app_nil_r. }
    destruct (scan_step st n eh s) as [[[[[[t|] d]|]|e] s1]|];
      try discriminate.
    2:{ intros [= <- <-]. exists self2. split; [reflexivity|].
        split; [exact Hdom|]. intros key l1 l2 H1 H2. exists [].
        now rewrite !app_nil_r. }
    cbv zeta.
    assert (Hcontains : contains self1 (lower t) = contains self2 (lower t)).
    { unfold contains. now rewrite Hdom. }
    rewrite <- Hcontains. destruct (negb _); [now apply IH|].
    destruct d as [data|]; [|now apply IH].
    destruct (self1 !! lower t) as [already1|] eqn:H1; [|discriminate].
    assert (H2 : exists already2, self2 !! lower t = Some already2).
    { apply elem_of_dom. rewrite <- Hdom. apply elem_of_dom. eauto. }
    destruct H2 as [already2 H2]. rewrite H2. intros Hscan.
    apply (IH _ (<[lower t := already2 ++ [data]]> self2)) in Hscan.
    2:{ now rewrite !dom_insert_L, Hdom. }
    destruct Hscan as (final2 & Hscan & Hdomf & Happ).
    exists final2. split; [exact Hscan|]. split; [exact Hdomf|].
    intros key l1 l2 Hl1 Hl2.
    destruct (decide (key = lower t)) as [->|Hne].
    + rewrite H1 in Hl1. rewrite H2 in Hl2.
      injection Hl1 as <-. injection Hl2 as <-.
      destruct (Happ (lower t) (already1 ++ [data]) (already2 ++ [data]))
        as (added & Hf1 & Hf2); try apply lookup_insert_eq.
      exists (data :: added). rewrite Hf1, Hf2.
      now rewrite <- !app_assoc.
    + apply Happ; now rewrite lookup_insert_ne.
Qed.

Lemma scanned_trans buf first p q :
  scanned st buf first p -> scanned st buf p q -> scanned st buf first q.
Proof.
  intros Hp Hq. induction Hq as [|q h s2 _ IH Hh]; [exact Hp|].
  now apply (scanned_next st buf first q h s2).
Qed.

(** The loop of [parse] ends when every attribute it comes to has a
    record length above 0 and is no attribute list. *)
Lemma scan_attributes_returns n eh self s :
  0 <= position s ->
  UsedSize (Fields eh) - position s <= Z.of_nat n ->
  (forall p h s2,
      scanned st (getvalue s) (position s) p ->
      p < UsedSize (Fields eh) ->
      header_at st (mkBytesIO (getvalue s) p) = Some (h, s2) ->
      0 < RecordLength h /\ lower (TypeCode h) <> "attribute_list") ->
  exists r s', scan_attributes st n eh self s = Some (r, s').
Proof.
  revert self s. induction n as [|n IH]; intros self s Hpos Hfuel Hsound.
  - rewrite scan_attributes_O.
    destruct (position s <? UsedSize (Fields eh)) eqn:Hlt; [|eauto].
    apply Z.ltb_lt in Hlt. lia.
  - rewrite scan_attributes_S.
    destruct (position s <? UsedSize (Fields eh)) eqn:Hlt; [|eauto].
    apply Z.ltb_lt in Hlt.
    destruct (header_at st s) as [[h s2]|] eqn:Hheader.
    + destruct s as [buf p]. cbn [getvalue position] in *.
      destruct (Hsound p h s2 (scanned_first st buf p) Hlt Hheader)
        as [Hlength Hlist].
      destruct (scan_step_advances n eh (mkBytesIO buf p) h s2 Hheader)
        as (data & s' & Hstep & Hs' & Hbuf);
        [cbn; lia|exact Hlist|].
      cbn [getvalue position] in Hs', Hbuf. rewrite Hstep. cbv zeta.
      assert (Hnext : forall self', exists r s'',
                 scan_attributes st n eh self' s' = Some (r, s'')).
      { intros self'. apply IH; [lia|lia|].
        rewrite Hbuf, Hs'. intros q h' s2' Hq. apply Hsound.
        apply (scanned_trans buf p (p + RecordLength h) q); [|exact Hq].
        apply (scanned_next st buf p p h s2); [constructor|exact Hheader]. }
      destruct (negb _); [apply Hnext|].
      destruct data as [data|]; [|apply Hnext].
      destruct (self !! lower (TypeCode h)); [apply Hnext|eauto].
    + destruct (_parse_next_attribute_without_header n eh s Hheader Hpos)
        as (r & s' & E & Hr).
      unfold scan_step.
      destruct (at_end_marker st s).
      * subst r. rewrite (parse_structure_Ok _ _ _ _ E). eauto.
      * destruct Hr as [e ->].
        rewrite (parse_structure_Raise _ _ _ _ E). eauto.
Qed.

End Attributes.

(** Where the scan finds no attribute header below the used size, it
    ends in one of two ways.  At the END_OF_ATTRIBUTES type code it
    returns the lists as they are.  Anywhere else (the type code or the
    header cannot be read) [parse_structure] returns None for the
    attribute, unpacking it raises TypeError, and the lists decoded so
    far are lost with the exception. *)
Theorem scan_without_attribute_header (st : Structs) (fuel : nat)
  (eh : EntryHeader) (self : gmap string (list Attribute)) (s : BytesIO) :
  position s < UsedSize (Fields eh) ->
  0 <= position s ->
  header_at st s = None ->
  exists s',
    scan_attributes st (S fuel) eh self s
    = Some (if at_end_marker st s then Ok self else Raise TypeError, s').
Proof.
  intros Hlt Hpos Hheader. rewrite scan_attributes_S.
  apply Z.ltb_lt in Hlt. rewrite Hlt.
  destruct (_parse_next_attribute_without_header st fuel eh s Hheader Hpos)
    as (r & s' & E & Hr).
  unfold scan_step. destruct (at_end_marker st s).
  - subst r. rewrite (parse_structure_Ok _ _ _ _ E). eauto.
  - destruct Hr as [e ->]. rewrite (parse_structure_Raise _ _ _ _ E). eauto.
Qed.

(** An attribute that is not resident (its form code is not 0) is not
    recorded, whatever its type: the turn of the loop leaves the lists
    as they are and moves the stream to the start of the attribute plus
    its record length. *)
Theorem non_resident_attribute_is_not_recorded (st : Structs) (fuel : nat)
  (eh : EntryHeader) (self : gmap string (list Attribute)) (s : BytesIO)
  (h : AttributeHeader) (s2 : BytesIO) :
  position s < UsedSize (Fields eh) ->
  header_at st s = Some (h, s2) ->
  FormCode h <> 0 ->
  0 <= position s + RecordLength h ->
  scan_attributes st (S fuel) eh self s
  = scan_attributes st fuel eh self
      (mkBytesIO (getvalue s) (position s + RecordLength h)).
Proof.
  intros Hlt Hheader Hform Hpos.
  assert (E : _parse_next_attribute st fuel (position s) eh s
              = Some (Ok (Some (TypeCode h), None),
                      mkBytesIO (getvalue s) (position s + RecordLength h))).
  { rewrite (_parse_next_attribute_header st fuel eh s h s2 Hheader).
    rewrite <- (header_at_stable st s h s2 Hheader).
    unfold decode_attribute, try_finally, try_except, bind, seek, ret.
    apply Z.eqb_neq in Hform. rewrite Hform. cbn [negb].
    apply Z.ltb_ge in Hpos. now rewrite Hpos. }
  rewrite scan_attributes_S. apply Z.ltb_lt in Hlt. rewrite Hlt.
  unfold scan_step. rewrite (parse_structure_Ok _ _ _ _ E). cbv zeta.
  now destruct (negb _).
Qed.

(** A resident DATA, INDEX_ROOT or INDEX_ALLOCATION attribute is
    returned with its header and without a body, whatever its value
    holds: the three methods return None. *)
Theorem attribute_without_decoder_has_no_body (st : Structs) (fuel : nat)
  (eh : EntryHeader) (s : BytesIO) (h : AttributeHeader) (s2 : BytesIO)
  (form : ResidentForm) :
  header_at st s = Some (h, s2) ->
  FormCode h = 0 -> Form h = Some form ->
  0 <= position s + ValueOffset form ->
  0 <= position s + RecordLength h ->
  lower (TypeCode h) ∈ ["data"; "index_root"; "index_allocation"] ->
  _parse_next_attribute st fuel (position s) eh s
  = Some (Ok (Some (TypeCode h), Some (mkAttribute h None)),
          mkBytesIO (getvalue s) (position s + RecordLength h)).
Proof.
  intros Hheader Hcode Hform Hvalue Hrecord Htype.
  rewrite (_parse_next_attribute_header st fuel eh s h s2 Hheader).
  rewrite (decode_attribute_resident st fuel (position s) h s2 form
             Hcode Hform Hvalue Hrecord).
  rewrite (header_at_stable st s h s2 Hheader).
  repeat (apply elem_of_cons in Htype as [->|Htype]; [reflexivity|]).
  now apply elem_of_nil in Htype.
Qed.

(** No access control list is ever decoded.  [_parse_security_descriptor]
    returns on every input and for every fuel, and a descriptor that it
    returns has neither SACL nor DACL: [_parse_access_control_list]
    stores the header of the list under [header], reads it back under
    [Header], and returns None from its [except]. *)
Theorem access_control_lists_are_never_decoded (st : Structs) (fuel : nat)
  (p : Z) (h : AttributeHeader) (s : BytesIO) :
  exists r s',
    _parse_security_descriptor st fuel p h s = Some (r, s')
    /\ forall sd, r = Ok sd -> SACL sd = None /\ DACL sd = None.
Proof.
  destruct (returns__parse_security_descriptor st fuel p h s)
    as (r & s' & E).
  exists r, s'. split; [exact E|]. intros sd ->.
  unfold _parse_security_descriptor in E.
  apply bind_Ok_inv in E as (header_position & s1 & _ & E).
  apply bind_Ok_inv in E as (sd_h & s2 & _ & E).
  apply bind_Ok_inv in E as (? & s3 & _ & E).
  apply bind_Ok_inv in E as (owner & s4 & _ & E).
  apply bind_Ok_inv in E as (? & s5 & _ & E).
  apply bind_Ok_inv in E as (group & s6 & _ & E).
  apply bind_Ok_inv in E as (? & s7 & _ & E).
  apply bind_Ok_inv in E as (sacl & s8 & Esacl & E).
  apply bind_Ok_inv in E as (? & s9 & _ & E).
  apply bind_Ok_inv in E as (dacl & s10 & Edacl & E).
  destruct (_parse_access_control_list_None st fuel s7) as (? & E7 & _).
  destruct (_parse_access_control_list_None st fuel s9) as (? & E9 & _).
  rewrite E7 in Esacl. rewrite E9 in Edacl.
  injection Esacl as <- _. injection Edacl as <- _.
  injection E as <- _. split; reflexivity.
Qed.

(** The scan uses of the entry header its used size, and nothing else:
    the signature (FILE, BAAD or CRPT), the flags, the sequence numbers
    and the total size of an entry have no part in what is decoded. *)
Theorem scan_reads_used_size_only (st : Structs) (fuel : nat)
  (eh1 eh2 : EntryHeader) (self : gmap string (list Attribute))
  (s : BytesIO) :
  UsedSize (Fields eh1) = UsedSize (Fields eh2) ->
  scan_attributes st fuel eh1 self s = scan_attributes st fuel eh2 self s.
Proof.
  intros Hsize. revert self s. induction fuel as [|n IH]; intros self s.
  - rewrite !scan_attributes_O. now rewrite Hsize.
  - rewrite !scan_attributes_S. rewrite Hsize.
    change (scan_step st n eh1 s) with (scan_step st n eh2 s).
    destruct (_ <? _); [|reflexivity].
    destruct (scan_step st n eh2 s) as [[[[[[t|] d]|]|e] s1]|];
      try reflexivity.
    cbv zeta. destruct (negb _); [apply IH|].
    destruct d; [|apply IH]. destruct (self !! _); [apply IH|reflexivity].
Qed.

(** [parse] returns (an entry or an exception) on every buffer in which
    each attribute the scan comes to below the used size has a record
    length above 0 and is no attribute list; from some fuel on the
    result is the same. *)
Theorem parse_returns (st : Structs) (self : MFTEntry) :
  (forall eh s0 p h s2,
      parse_structure (Some (_parse_entry_header st))
        (mkBytesIO (_raw_entry self) 0) = Some (Ok (Some eh), s0) ->
      scanned st (_raw_entry self) (FirstAttributeOffset (Fields eh)) p ->
      p < UsedSize (Fields eh) ->
      header_at st (mkBytesIO (_raw_entry self) p) = Some (h, s2) ->
      0 < RecordLength h /\ lower (TypeCode h) <> "attribute_list") ->
  exists fuel r,
    forall fuel', (fuel <= fuel')%nat -> parse st fuel' self = Some r.
Proof.
  intros Hsound.
  assert (H : exists fuel r, parse st fuel self = Some r).
  { unfold parse, parse_body, get_stream.
    destruct (parse_structure_value (_parse_entry_header st)
                (mkBytesIO (_raw_entry self) 0)
                (returns__parse_entry_header st)) as (parsed & s0 & Eh).
    assert (Hbuf : getvalue s0 = _raw_entry self).
    { revert Eh. apply stable_parse_structure. intros f [= <-] p.
      unfold _parse_entry_header.
      apply stable_bind; [apply stable_parse_stream|].
      intros; apply stable_ret. }
    destruct parsed as [eh|].
    2:{ exists 0%nat. eexists.
        rewrite (bind_Ok _ _ _ _ _ Eh). cbn. reflexivity. }
    destruct (FirstAttributeOffset (Fields eh) <? 0) eqn:Hneg.
    { exists 0%nat. eexists.
      rewrite (bind_Ok _ _ _ _ _ Eh). cbn.
      unfold bind at 1, seek. rewrite Hneg. reflexivity. }
    set (first := FirstAttributeOffset (Fields eh)) in *.
    set (n := Z.to_nat (UsedSize (Fields eh) - first)).
    destruct (scan_attributes_returns st n eh (attributes self)
                (mkBytesIO (getvalue s0) first)) as (r & s' & Escan).
    - cbn. apply Z.ltb_ge in Hneg. exact Hneg.
    - cbn. subst n. lia.
    - cbn [getvalue position]. rewrite Hbuf. intros p h s2.
      now apply (Hsound eh s0).
    - exists n. rewrite (bind_Ok _ _ _ _ _ Eh). cbn.
      unfold bind at 1, seek. fold first. rewrite Hneg.
      unfold bind at 1. rewrite Escan. destruct r; eauto. }
  destruct H as (fuel & r & H). exists fuel, r.
  intros fuel' Hle. exact (parse_fuel st fuel fuel' self r Hle H).
Qed.

(** [parse] does not start from empty lists: called on the entry that a
    first call returned, it scans the buffer again and appends every
    attribute a second time. *)
Theorem parse_twice_records_twice (st : Structs) (fuel : nat)
  (raw : list Z) (e : MFTEntry) :
  parse st fuel (__init__ raw) = Some (Ok e) ->
  exists e2,
    parse st fuel e = Some (Ok e2)
    /\ forall key l,
         attributes e !! key = Some l ->
         attributes e2 !! key = Some (l ++ l).
Proof.
  intros H.
  destruct (parse_Ok_inv st _ _ _ H) as (h & s0 & s1 & s2 & Eh & Es & Escan & He).
  cbn [_raw_entry attributes __init__] in *.
  destruct (scan_attributes_appends st _ _ _ _ _ _ Escan) as [Hdom _].
  destruct (scan_attributes_appends_the_same st fuel h _ (attributes e)
              s1 _ s2 (eq_sym Hdom) Escan) as (final2 & Escan2 & _ & Happ).
  exists (mkMFTEntry final2 (Some h) raw None). split.
  - rewrite He. unfold parse, parse_body, get_stream.
    cbn [_raw_entry attributes].
    unfold get_stream in Eh. cbn [_raw_entry] in Eh.
    rewrite (bind_Ok _ _ _ _ _ Eh). cbn [not_None].
    unfold bind at 1, ret. rewrite (bind_Ok _ _ _ _ _ Es).
    unfold bind. now rewrite Escan2.
  - intros key l Hl. cbn [attributes].
    assert (Hin : exists l0,
               foldl (fun self attribute => <[attribute := []]> self)
                 (∅ : gmap string (list Attribute)) attribute_keys !! key
               = Some l0).
    { apply elem_of_dom. rewrite <- Hdom. apply elem_of_dom. eauto. }
    destruct Hin as [l0 Hl0].
    destruct (Happ key l0 l Hl0 Hl) as (added & Hf1 & Hf2).
    assert (l0 = []) as ->.
    { destruct (init_attributes raw) as [_ Hinit].
      assert (Hkey : key ∈ attribute_keys).
      { apply (elem_of_list_to_set (C := gset string)).
        rewrite <- (proj1 (init_attributes raw)). apply elem_of_dom.
        cbn [attributes __init__]. eauto. }
      specialize (Hinit key Hkey). cbn [attributes __init__] in Hinit.
      congruence. }
    rewrite Hf1 in Hl. injection Hl as <-. exact Hf2.
Qed.

Lemma scan_without_attribute_header_witness :
  (exists s',
      scan_attributes spec_structs 1 (Example.header_of 56 64)
        (attributes (__init__ Example.short_entry))
        (mkBytesIO Example.short_entry 56)
      = Some (Ok (attributes (__init__ Example.short_entry)), s'))
  /\ exists s',
       scan_attributes spec_structs 1 (Example.header_of 1012 1024)
         (attributes (__init__ Example.truncated_attribute_entry))
         (mkBytesIO Example.truncated_attribute_entry 1012)
       = Some (Raise TypeError, s').
Proof.
  split.
  - apply (scan_without_attribute_header spec_structs 0
             (Example.header_of 56 64)
             (attributes (__init__ Example.short_entry))
             (mkBytesIO Example.short_entry 56)).
    + reflexivity.
    + vm_compute. discriminate.
    + by_decision.
  - apply (scan_without_attribute_header spec_structs 0
             (Example.header_of 1012 1024)
             (attributes (__init__ Example.truncated_attribute_entry))
             (mkBytesIO Example.truncated_attribute_entry 1012)).
    + reflexivity.
    + vm_compute. discriminate.
    + by_decision.
Defined.

Lemma non_resident_attribute_is_not_recorded_witness :
  scan_attributes spec_structs 2 (Example.header_of 56 136)
    (attributes (__init__ Example.non_resident_entry))
    (mkBytesIO Example.non_resident_entry 56)
  = scan_attributes spec_structs 1 (Example.header_of 56 136)
      (attributes (__init__ Example.non_resident_entry))
      (mkBytesIO Example.non_resident_entry (56 + 72))
  /\ parse spec_structs 2 (__init__ Example.non_resident_entry)
     = Some (Ok (mkMFTEntry
                   (attributes (__init__ Example.non_resident_entry))
                   (Some (Example.header_of 56 136))
                   Example.non_resident_entry None)).
Proof.
  split; [|by_decision].
  apply (non_resident_attribute_is_not_recorded spec_structs 1
           (Example.header_of 56 136)
           (attributes (__init__ Example.non_resident_entry))
           (mkBytesIO Example.non_resident_entry 56)
           Example.non_resident_header
           (mkBytesIO Example.non_resident_entry 72)).
  - reflexivity.
  - by_decision.
  - vm_compute. discriminate.
  - vm_compute. discriminate.
Defined.

Lemma attribute_without_decoder_has_no_body_witness :
  decode_UTF16 (take 8 (drop 80 Example.named_attribute_entry))
    = Ok [0x24; 0x49; 0x33; 0x30]
  /\ _parse_next_attribute spec_structs 0 56 (Example.header_of 56 128)
       (mkBytesIO Example.named_attribute_entry 56)
     = Some (Ok (Some "INDEX_ROOT",
                 Some (mkAttribute Example.named_attribute_header None)),
             mkBytesIO Example.named_attribute_entry (56 + 64)).
Proof.
  split; [by_decision|].
  apply (attribute_without_decoder_has_no_body spec_structs 0
           (Example.header_of 56 128)
           (mkBytesIO Example.named_attribute_entry 56)
           Example.named_attribute_header
           (mkBytesIO Example.named_attribute_entry 80)
           (mkResidentForm 16 32 0)).
  - by_decision.
  - reflexivity.
  - reflexivity.
  - vm_compute. discriminate.
  - vm_compute. discriminate.
  - vm_compute. set_solver.
Defined.

Lemma scan_reads_used_size_only_witness :
  scan_attributes spec_structs 3 (Example.header_of 56 232)
    (attributes (__init__ Example.well_formed_entry))
    (mkBytesIO Example.well_formed_entry 56)
  = scan_attributes spec_structs 3 (Example.baad_header_of 0 232)
      (attributes (__init__ Example.well_formed_entry))
      (mkBytesIO Example.well_formed_entry 56).
Proof.
  apply (scan_reads_used_size_only spec_structs 3
           (Example.header_of 56 232) (Example.baad_header_of 0 232)).
  reflexivity.
Defined.

Lemma parse_twice_records_twice_witness :
  parse spec_structs 3 (__init__ Example.failing_body_entry)
    = Some (Ok Example.failing_body_parsed)
  /\ exists e2,
       parse spec_structs 3 Example.failing_body_parsed = Some (Ok e2)
       /\ forall key l,
            attributes Example.failing_body_parsed !! key = Some l ->
            attributes e2 !! key = Some (l ++ l).
Proof.
  split; [by_decision|].
  apply (parse_twice_records_twice spec_structs 3
           Example.failing_body_entry Example.failing_body_parsed).
  by_decision.
Defined.

Lemma parse_returns_witness :
  exists fuel r,
    forall fuel', (fuel <= fuel')%nat ->
      parse spec_structs fuel' (__init__ Example.well_formed_entry) = Some r.
Proof.
  apply (parse_returns spec_structs (__init__ Example.well_formed_entry)).
  cbn [_raw_entry __init__].
  assert (E0 : parse_structure (Some (_parse_entry_header spec_structs))
                 (mkBytesIO Example.well_formed_entry 0)
               = Some (Ok (Some (Example.header_of 56 232)),
                       mkBytesIO Example.well_formed_entry 48))
    by by_decision.
  assert (E56 : header_at spec_structs (mkBytesIO Example.well_formed_entry 56)
                = Some (Example.standard_information_header,
                        mkBytesIO Example.well_formed_entry 79))
    by by_decision.
  assert (E120 : header_at spec_structs
                   (mkBytesIO Example.well_formed_entry 120)
                 = Some (Example.file_name_header,
                         mkBytesIO Example.well_formed_entry 143))
    by by_decision.
  assert (E224 : header_at spec_structs
                   (mkBytesIO Example.well_formed_entry 224) = None)
    by by_decision.
  intros eh s0 p h s2 Hh Hscanned _ Hheader.
  rewrite E0 in Hh. injection Hh as <- _.
  change (FirstAttributeOffset (Fields (Example.header_of 56 232)))
    with 56 in Hscanned.
  assert (Hp : p = 56 \/ p = 120 \/ p = 224).
  { clear Hheader. induction Hscanned as [|q h' s2' _ IH Hh']; [auto|].
    destruct IH as [-> | [-> | ->]].
    - rewrite E56 in Hh'. injection Hh' as <- _. auto.
    - rewrite E120 in Hh'. injection Hh' as <- _. auto.
    - rewrite E224 in Hh'. discriminate. }
  destruct Hp as [-> | [-> | ->]].
  - rewrite E56 in Hheader. injection Hheader as <- _.
    split; [reflexivity|vm_compute; discriminate].
  - rewrite E120 in Hheader. injection Hheader as <- _.
    split; [reflexivity|vm_compute; discriminate].
  - rewrite E224 in Hheader. discriminate.
Defined.

(** * The keyword arguments that [parse_structure] prepares *)

Module PrepareKwargsFacts.

Import PrepareKwargs.

Section Prepare.

Context {V : Type}.

Variable kwargs : gmap string (option V).
Variable self : string -> option V.

(** The loop binds each of its keys to the prepared value and leaves
    the other keys of the dictionary as they are. *)
Lemma prepare_inr keys acc prepared :
  prepare keys kwargs self acc = inr prepared ->
  (forall key, key ∈ keys ->
     prepared !! key = Some (prepared_value kwargs self key))
  /\ (forall key, key ∉ keys -> prepared !! key = acc !! key).
Proof.
  revert acc. induction keys as [|k rest IH]; intros acc; simpl.
  - intros [= <-]. split; [|reflexivity].
    intros key Hkey. now apply elem_of_nil in Hkey.
  - intros H.
    assert (Hrest : prepare rest kwargs self
                      (<[k := prepared_value kwargs self k]> acc)
                    = inr prepared).
    { unfold prepared_value.
      destruct (kwargs !! k) as [[v|]|]; [exact H| |exact H].
      destruct (self (attribute_of k)); [exact H|discriminate]. }
    destruct (IH _ Hrest) as [Hin Hout]. split.
    + intros key Hkey. apply elem_of_cons in Hkey as [->|Hkey].
      * destruct (decide (k ∈ rest)) as [Hk|Hk]; [now apply Hin|].
        rewrite (Hout k Hk). apply lookup_insert_eq.
      * now apply Hin.
    + intros key Hkey. apply not_elem_of_cons in Hkey as [Hne Hkey].
      rewrite (Hout key Hkey). now apply lookup_insert_ne.
Qed.

(** The loop fails on the first key that was given as None and that
    the object has no value for, and on nothing else. *)
Lemma prepare_inl keys acc :
  (exists e, prepare keys kwargs self acc = inl e)
  <-> exists key,
        key ∈ keys /\ kwargs !! key = Some None
        /\ self (attribute_of key) = None.
Proof.
  revert acc. induction keys as [|k rest IH]; intros acc; simpl.
  - split; [intros [e H]; discriminate|].
    intros (key & Hkey & _). now apply elem_of_nil in Hkey.
  - destruct (kwargs !! k) as [[v|]|] eqn:Hk.
    + rewrite IH. split; intros (key & Hkey & Hnone & Hself).
      * exists key. split; [now right|auto].
      * apply elem_of_cons in Hkey as [->|Hkey]; [congruence|eauto].
    + destruct (self (attribute_of k)) as [v|] eqn:Hv.
      * rewrite IH. split; intros (key & Hkey & Hnone & Hself).
        -- exists key. split; [now right|auto].
        -- apply elem_of_cons in Hkey as [->|Hkey]; [congruence|eauto].
      * split; [|eauto]. intros _. exists k. split; [now left|auto].
    + rewrite IH. split; intros (key & Hkey & Hnone & Hself).
      * exists key. split; [now right|auto].
      * apply elem_of_cons in Hkey as [->|Hkey]; [congruence|eauto].
Qed.

End Prepare.

(** What [_prepare_kwargs] returns.  Its keys are the parameters of the
    method behind the first one that has a default, and no other: a
    keyword that was given and is no such parameter is dropped, and the
    first parameter with a default (the stream, in every structure
    parser) is never among them.  A key has the value that was given
    for it, or, when none or None was given, the attribute of that name
    of the object ([_stream] for the key [stream]), None when the
    object has none. *)
Theorem prepared_kwargs_are_the_late_keywords {D V : Type}
  (argspec : ArgSpec D) (kwargs : gmap string (option V))
  (self : string -> option V) (prepared : gmap string (option V)) :
  _prepare_kwargs argspec kwargs self = inr prepared ->
  exists values,
    defaults argspec = Some values
    /\ let keys :=
         slice_from (Z.of_nat (length (args argspec))
                     - Z.of_nat (length values) + 1) (args argspec) in
       dom prepared = list_to_set keys
       /\ forall key, key ∈ keys ->
            prepared !! key = Some (prepared_value kwargs self key).
Proof.
  unfold _prepare_kwargs, kwargs_keys.
  destruct (defaults argspec) as [values|]; [|discriminate].
  intros H. exists values. split; [reflexivity|]. cbv zeta.
  destruct (prepare_inr kwargs self _ _ _ H) as [Hin Hout]. split; [|exact Hin].
  apply set_eq. intros key. rewrite elem_of_dom, elem_of_list_to_set.
  split.
  - intros [v Hv].
    destruct (decide (key ∈ slice_from
                (Z.of_nat (length (args argspec))
                 - Z.of_nat (length values) + 1) (args argspec)))
      as [Hkey|Hkey]; [exact Hkey|].
    rewrite (Hout key Hkey), lookup_empty in Hv. discriminate.
  - intros Hkey. rewrite (Hin key Hkey). eauto.
Qed.

(** When [_prepare_kwargs] raises.  For a method with defaults it
    raises if and only if one of its keys was given as None and the
    object has no value under that name: a key that was not given at
    all is prepared as None without an exception. *)
Theorem prepare_kwargs_raises_for_a_given_None {D V : Type}
  (argspec : ArgSpec D) (kwargs : gmap string (option V))
  (self : string -> option V) (keys : list string) :
  kwargs_keys argspec = inr keys ->
  (exists e, _prepare_kwargs argspec kwargs self = inl e)
  <-> exists key,
        key ∈ keys /\ kwargs !! key = Some None
        /\ self (attribute_of key) = None.
Proof.
  intros Hkeys. unfold _prepare_kwargs. rewrite Hkeys.
  apply prepare_inl.
Qed.

(** The calls of [mft.py] give no keyword: nothing is prepared for the
    body parsers, and for [_parse_next_attribute] the header of the
    object, None when there is none. *)
Lemma prepared_kwargs_are_the_late_keywords_witness :
  _prepare_kwargs next_attribute_argspec ∅
    (fun name => if String.eqb name "header" then Some 7 else None)
  = inr {["header" := Some 7]}
  /\ _prepare_kwargs body_parser_argspec
       {["stream" := Some 1; "header" := Some 2]}
       (fun _ => Some 7)
     = inr (∅ : gmap string (option Z))
  /\ exists values,
       defaults next_attribute_argspec = Some values
       /\ let keys :=
            slice_from (Z.of_nat (length (args next_attribute_argspec))
                        - Z.of_nat (length values) + 1)
              (args next_attribute_argspec) in
          dom ({["header" := Some 7]} : gmap string (option Z))
          = list_to_set keys
          /\ forall key, key ∈ keys ->
               ({["header" := Some 7]} : gmap string (option Z)) !! key
               = Some (prepared_value ∅
                         (fun name =>
                            if String.eqb name "header" then Some 7 else None)
                         key).
Proof.
  split; [reflexivity|]. split; [reflexivity|].
  apply (prepared_kwargs_are_the_late_keywords next_attribute_argspec ∅
           (fun name => if String.eqb name "header" then Some 7 else None)
           {["header" := Some 7]}).
  reflexivity.
Defined.

Lemma prepare_kwargs_raises_for_a_given_None_witness :
  _prepare_kwargs next_attribute_argspec
    ({["header" := None]} : gmap string (option Z)) (fun _ => None)
  = inl (NotProvided "header")
  /\ _prepare_kwargs next_attribute_argspec
       (∅ : gmap string (option Z)) (fun _ => None)
     = inr {["header" := None]}
  /\ ((exists e,
          _prepare_kwargs next_attribute_argspec
            ({["header" := None]} : gmap string (option Z)) (fun _ => None)
          = inl e)
      <-> exists key,
            key ∈ ["header"]
            /\ ({["header" := None]} : gmap string (option Z)) !! key
               = Some None
            /\ (fun _ : string => @None Z) (attribute_of key) = None).
Proof.
  split; [reflexivity|]. split; [reflexivity|].
  apply (prepare_kwargs_raises_for_a_given_None next_attribute_argspec
           ({["header" := None]} : gmap string (option Z)) (fun _ => None)
           ["header"]).
  reflexivity.
Defined.

End PrepareKwargsFacts.

(** * The records that [run] hands out *)

Module DirectivesFacts.

Import Directives.

Lemma take_add {A : Type} (n m : nat) (l : list A) :
  take (n + m) l = take n l ++ take m (drop n l).
Proof.
  revert l. induction n as [|n IH]; intros [|a l]; simpl;
    rewrite ?take_nil; try reflexivity.
  now rewrite IH.
Qed.

(** One [read] of the loop: behind the record [i] the file is at the
    end of that record, or at its own end. *)
Lemma read_record content (i : nat) :
  read (PyInt MFT_RECORD_SIZE)
    (mkBytesIO content
       (Z.min (Z.of_nat (length content)) (MFT_RECORD_SIZE * Z.of_nat i)))
  = Some (Ok (record_at content (Z.of_nat i)),
          mkBytesIO content
            (Z.min (Z.of_nat (length content))
               (MFT_RECORD_SIZE * Z.of_nat (S i)))).
Proof.
  unfold read, bytes_from, record_at, MFT_RECORD_SIZE.
  cbn [getvalue position].
  change (1024 <? 0) with false. cbv iota.
  destruct ((Z.min _ _) <? 0) eqn:Hneg; [apply Z.ltb_lt in Hneg; lia|].
  assert (Hdata : take (Z.to_nat 1024)
                    (drop (Z.to_nat (Z.min (Z.of_nat (length content))
                                       (1024 * Z.of_nat i))) content)
                  = take (Z.to_nat 1024)
                      (drop (Z.to_nat (1024 * Z.of_nat i)) content)).
  { destruct (Z.le_gt_cases (Z.of_nat (length content)) (1024 * Z.of_nat i)).
    - rewrite Z.min_l by lia. rewrite !drop_ge by lia. reflexivity.
    - rewrite Z.min_r by lia. reflexivity. }
  rewrite Hdata. do 3 f_equal.
  rewrite length_take, length_drop. lia.
Qed.

(** The loop goes on until the count of records is reached, whatever
    the file holds. *)
Lemma read_records_up_to_count content count nodeidx (n : nat) :
  forall fuel (i : nat) record_count tasks,
    Z.of_nat n = count - record_count ->
    (n <= fuel)%nat ->
    read_records fuel count nodeidx (Z.of_nat i)
      (record_at content (Z.of_nat i)) record_count tasks
      (mkBytesIO content
         (Z.min (Z.of_nat (length content))
            (MFT_RECORD_SIZE * Z.of_nat (S i))))
    = Some (Ok (count,
                tasks
                ++ map (fun j => mkTask nodeidx (Z.of_nat j)
                                   (record_at content (Z.of_nat j)))
                     (seq i n)),
            mkBytesIO content
              (Z.min (Z.of_nat (length content))
                 (MFT_RECORD_SIZE * Z.of_nat (S (i + n))))).
Proof.
  induction n as [|n IH]; intros fuel i record_count tasks Hn Hfuel.
  - assert (record_count = count) as -> by lia.
    assert (Hlt : (count <? count) = false) by (apply Z.ltb_ge; lia).
    destruct fuel; simpl; rewrite Hlt; simpl; unfold ret;
      now rewrite app_nil_r, Nat.add_0_r.
  - destruct fuel as [|fuel]; [lia|].
    assert (Hlt : (record_count <? count) = true) by (apply Z.ltb_lt; lia).
    simpl read_records. rewrite Hlt. cbn [py_ne andb]. cbv zeta.
    rewrite (bind_Ok _ _ _ _ _ (read_record content (S i))).
    replace (Z.of_nat i + 1) with (Z.of_nat (S i)) by lia.
    rewrite (IH fuel (S i) (record_count + 1)) by lia.
    rewrite <- app_assoc. simpl.
    replace (S (i + S n)) with (S (S (i + n))) by lia. reflexivity.
Qed.

Lemma read_file_up_to_count content fuel count nodeidx record_count tasks :
  record_count <= count ->
  (Z.to_nat (count - record_count) <= fuel)%nat ->
  read_file fuel count nodeidx record_count tasks (mkBytesIO content 0)
  = Some (Ok (count,
              tasks
              ++ tasks_of nodeidx content (Z.to_nat (count - record_count))),
          mkBytesIO content
            (Z.min (Z.of_nat (length content))
               (MFT_RECORD_SIZE
                * Z.of_nat (S (Z.to_nat (count - record_count)))))).
Proof.
  intros Hle Hfuel. unfold read_file. cbv zeta.
  pose proof (read_record content 0) as Hread.
  change (MFT_RECORD_SIZE * Z.of_nat 0) with 0 in Hread.
  rewrite Z.min_r in Hread by lia.
  rewrite (bind_Ok _ _ _ _ _ Hread).
  change 0 with (Z.of_nat 0) at 1.
  rewrite (read_records_up_to_count content count nodeidx
             (Z.to_nat (count - record_count))) by lia.
  reflexivity.
Qed.

(** The records of a file, one behind the other, are the file. *)
Lemma tasks_of_concat nodeidx content n :
  mjoin (mft_record <$> tasks_of nodeidx content n)
  = take (Z.to_nat (MFT_RECORD_SIZE * Z.of_nat n)) content.
Proof.
  unfold tasks_of. induction n as [|n IH].
  - reflexivity.
  - rewrite seq_S, map_app, fmap_app, join_app, IH.
    cbn -[Z.to_nat Z.mul Z.of_nat take drop].
    rewrite app_nil_r. unfold record_at. rewrite <- take_add.
    f_equal. unfold MFT_RECORD_SIZE. lia.
Qed.

(** The loop of [run] over one file does not end at the end of the
    file: the file is read in mode [rb], the record that [read] returns
    at the end is the empty [bytes], which is not equal to the [str]
    ['']; the loop ends when [count] records have been handed out.  It
    hands out the records of 1024 bytes of the file, the last one
    shorter when the size of the file is no multiple of 1024, and
    behind them empty records up to the count. *)
Theorem records_are_read_up_to_count (content : list Z) (fuel : nat)
  (count nodeidx record_count : Z) (tasks : list Task) :
  record_count <= count ->
  (Z.to_nat (count - record_count) <= fuel)%nat ->
  exists file,
    read_file fuel count nodeidx record_count tasks (mkBytesIO content 0)
    = Some (Ok (count,
                tasks
                ++ tasks_of nodeidx content
                     (Z.to_nat (count - record_count))),
            file).
Proof.
  intros Hle Hfuel. eexists.
  now apply read_file_up_to_count.
Qed.

(** [run] reads the first file of the frontier and no other: the loop
    over that file ends only when [count] records are handed out, and
    [run] leaves its loop over the files as soon as that is so.  The
    other files are not opened. *)
Theorem only_the_first_node_is_read (abspath : string -> string)
  (isfile isdir : string -> bool) (glob : string -> list string)
  (open_rb : string -> option (list Z)) (fuel : nat)
  (sources : list string) (count : Z) (node : string) (rest : list string)
  (content : list Z) :
  get_frontier abspath isfile isdir glob sources = node :: rest ->
  open_rb node = Some content ->
  0 < count ->
  (Z.to_nat count <= fuel)%nat ->
  run abspath isfile isdir glob open_rb fuel true sources count true
  = Some (Finished (tasks_of 0 content (Z.to_nat count))).
Proof.
  intros Hfrontier Hopen Hcount Hfuel. unfold run. cbn [negb].
  rewrite Hfrontier. cbv zeta.
  assert (Hc : (count >? 0) = true) by (apply Z.gtb_lt; lia).
  rewrite Hc. cbn [length enumerate read_nodes andb].
  replace (Z.of_nat (S (length rest)) >? 0) with true
    by (symmetry; apply Z.gtb_lt; lia).
  rewrite Hopen. rewrite read_file_up_to_count by lia.
  rewrite Z.sub_0_r. cbn [app].
  replace (count >=? count) with true by (symmetry; apply Z.geb_le; lia).
  reflexivity.
Qed.

(** No byte of the file is lost or handed out twice: the records that
    the loop hands out for a file, one behind the other, are the bytes
    of the file up to 1024 times their number, and no record has more
    than 1024 bytes. *)
Theorem records_concatenate_to_the_file (content : list Z) (fuel : nat)
  (count nodeidx record_count : Z) :
  record_count <= count ->
  (Z.to_nat (count - record_count) <= fuel)%nat ->
  exists tasks file,
    read_file fuel count nodeidx record_count [] (mkBytesIO content 0)
    = Some (Ok (count, tasks), file)
    /\ mjoin (mft_record <$> tasks)
       = take (Z.to_nat (MFT_RECORD_SIZE * (count - record_count))) content
    /\ Forall (fun task =>
                 Z.of_nat (length (mft_record task)) <= MFT_RECORD_SIZE)
         tasks.
Proof.
  intros Hle Hfuel. eexists. eexists.
  split; [now apply read_file_up_to_count|]. cbn [app]. split.
  - rewrite tasks_of_concat. f_equal. unfold MFT_RECORD_SIZE. lia.
  - unfold tasks_of. apply Forall_forall. intros task Htask.
    apply list_elem_of_fmap_1 in Htask as (i & -> & _). cbn [mft_record].
    unfold record_at. rewrite length_take. unfold MFT_RECORD_SIZE. lia.
Qed.

Lemma records_are_read_up_to_count_witness :
  tasks_of 0 (repeat 7 1500) 3
  = [mkTask 0 0 (repeat 7 1024); mkTask 0 1 (repeat 7 476); mkTask 0 2 []]
  /\ exists file,
       read_file 3 3 0 0 [] (mkBytesIO (repeat 7 1500) 0)
       = Some (Ok (3, [] ++ tasks_of 0 (repeat 7 1500) (Z.to_nat (3 - 0))),
               file).
Proof.
  split; [by_decision|].
  apply (records_are_read_up_to_count (repeat 7 1500) 3 3 0 0 []).
  - lia.
  - vm_compute. lia.
Defined.

Lemma only_the_first_node_is_read_witness :
  run (fun p => p)
    (fun p => String.eqb p "a.mft" || String.eqb p "b.mft")
    (fun _ => false) (fun _ => [])
    (fun p => if String.eqb p "a.mft" then Some (repeat 7 1500) else None)
    3 true ["a.mft"; "b.mft"] 3 true
  = Some (Finished (tasks_of 0 (repeat 7 1500) (Z.to_nat 3))).
Proof.
  apply (only_the_first_node_is_read (fun p => p)
           (fun p => String.eqb p "a.mft" || String.eqb p "b.mft")
           (fun _ => false) (fun _ => [])
           (fun p => if String.eqb p "a.mft" then Some (repeat 7 1500)
                     else None)
           3 ["a.mft"; "b.mft"] 3 "a.mft" ["b.mft"] (repeat 7 1500)).
  - reflexivity.
  - reflexivity.
  - lia.
  - vm_compute. lia.
Defined.

Lemma records_concatenate_to_the_file_witness :
  exists tasks file,
    read_file 3 3 0 0 [] (mkBytesIO (repeat 7 1500) 0)
    = Some (Ok (3, tasks), file)
    /\ mjoin (mft_record <$> tasks)
       = take (Z.to_nat (MFT_RECORD_SIZE * (3 - 0))) (repeat 7 1500)
    /\ Forall (fun task =>
                 Z.of_nat (length (mft_record task)) <= MFT_RECORD_SIZE)
         tasks.
Proof.
  apply (records_concatenate_to_the_file (repeat 7 1500) 3 3 0 0).
  - lia.
  - vm_compute. lia.
Defined.

End DirectivesFacts.

(** * What the tasks write *)

Module TasksFacts.

Import Tasks.

(** A parsed entry holds the ten attribute lists under their lower-case
    keys and the header under [header]: it has no item [Header] and no
    item [Attributes]. *)
Lemma parsed_entry_has_no_capitalised_item st fuel raw e :
  parse st fuel (__init__ raw) = Some (Ok e) ->
  entry_getattr e "Header" = Raise AttributeError
  /\ entry_getattr e "Attributes" = Raise AttributeError.
Proof.
  intros H.
  destruct (parse_Ok_inv st _ _ _ H) as (h & s0 & s1 & s2 & _ & _ & Hscan & _).
  apply scan_attributes_appends in Hscan as [Hdom _].
  rewrite (proj1 (init_attributes raw)) in Hdom.
  assert (Hkeys : forall name, name ∉ attribute_keys ->
                    attributes e !! name = None).
  { intros name Hname. apply not_elem_of_dom. rewrite Hdom.
    now rewrite elem_of_list_to_set. }
  assert (Hnot : forall name,
             bool_decide (name ∈ attribute_keys) = false ->
             name ∉ attribute_keys).
  { intros name Hb Hin. apply bool_decide_eq_false in Hb. contradiction. }
  unfold entry_getattr.
  rewrite !Hkeys by (apply Hnot; reflexivity). split; reflexivity.
Qed.

(** [ParseCSVTask] never writes a row.  For the summary, a call that
    comes back raises: the exception of [parse], which its [except]
    raises again, or the AttributeError of [mft_entry.Header], which a
    parsed entry does not hold (its header is the item [header]).  For
    any other type of information the call does nothing. *)
Theorem csv_task_writes_nothing (st : Structs) (open_append : bool)
  (write : string -> bool)
  (summary_row : Z -> Z -> item -> MFTEntry -> result (list string))
  (fuel : nat) (nodeidx recordidx : Z) (info_type : string)
  (mft_record : list Z) (sep : string) (o : outcome) :
  ParseCSVTask_call st open_append write summary_row fuel nodeidx recordidx
    info_type mft_record sep = Some o ->
  written o = []
  /\ (info_type = "summary" -> exists e, raised o = Some e)
  /\ (info_type <> "summary" -> o = mkOutcome None [] 0).
Proof.
  unfold ParseCSVTask_call. cbv zeta.
  destruct (String.eqb info_type "summary") eqn:Htype.
  - apply String.eqb_eq in Htype.
    destruct (parse st fuel (__init__ mft_record)) as [[e|x]|] eqn:Hparse;
      try discriminate.
    + destruct (parsed_entry_has_no_capitalised_item st fuel _ e Hparse)
        as [Hheader _].
      rewrite Hheader. cbn. intros [= <-]. cbn. split; [reflexivity|].
      split; [eauto|]. intros Hne. contradiction.
    + intros [= <-]. cbn. split; [reflexivity|].
      split; [eauto|]. intros Hne. contradiction.
  - apply String.eqb_neq in Htype. intros [= <-]. cbn.
    split; [reflexivity|]. split; [intros He; contradiction|reflexivity].
Qed.

(** [ParseBODYTask] never writes a line.  When [parse] raises, the
    call logs the exception and comes back; when [parse] returns, the
    call raises the AttributeError of [mft_entry.Attributes], which a
    parsed entry does not hold. *)
Theorem body_task_writes_nothing (st : Structs) (open_append : bool)
  (write : string -> bool)
  (body_rows :
     Z -> Z -> list Z -> item -> MFTEntry -> result (list (list string)))
  (fuel : nat) (nodeidx recordidx : Z) (mft_record : list Z) (sep : string)
  (o : outcome) :
  ParseBODYTask_call st open_append write body_rows fuel nodeidx recordidx
    mft_record sep = Some o ->
  written o = []
  /\ match parse st fuel (__init__ mft_record) with
     | Some (Ok _) => o = mkOutcome (Some AttributeError) [] 0
     | _ => o = mkOutcome None [] 1
     end.
Proof.
  unfold ParseBODYTask_call. cbv zeta.
  destruct (parse st fuel (__init__ mft_record)) as [[e|x]|] eqn:Hparse;
    try discriminate.
  - destruct (parsed_entry_has_no_capitalised_item st fuel _ e Hparse)
      as [_ Hattributes].
    rewrite Hattributes. cbn. intros [= <-]. split; reflexivity.
  - cbn. intros [= <-]. split; reflexivity.
Qed.

(** [ParseJSONTask] never writes a line and never raises: a call that
    comes back has logged one error, for the exception of [parse] or
    for the AttributeError of [mft_entry.Attributes]. *)
Theorem json_task_writes_nothing (st : Structs) (open_append : bool)
  (write : string -> bool)
  (json_text : Z -> Z -> bool -> item -> MFTEntry -> result string)
  (fuel : nat) (nodeidx recordidx : Z) (mft_record : list Z) (pretty : bool)
  (o : outcome) :
  ParseJSONTask_call st open_append write json_text fuel nodeidx recordidx
    mft_record pretty = Some o ->
  o = mkOutcome None [] 1.
Proof.
  unfold ParseJSONTask_call. cbv zeta.
  destruct (parse st fuel (__init__ mft_record)) as [[e|x]|] eqn:Hparse;
    try discriminate.
  - destruct (parsed_entry_has_no_capitalised_item st fuel _ e Hparse)
      as [_ Hattributes].
    cbn [result_bind]. rewrite Hattributes. cbn. now intros [= <-].
  - cbn. now intros [= <-].
Qed.

Lemma csv_task_writes_nothing_witness :
  ParseCSVTask_call spec_structs true (fun _ => true)
    (fun _ _ _ _ => Ok ["row"]) 3 0 0 "summary" Example.well_formed_entry ","
  = Some (mkOutcome (Some AttributeError) [] 0)
  /\ written (mkOutcome (Some AttributeError) [] 0) = []
  /\ ("summary" = "summary" ->
      exists e, raised (mkOutcome (Some AttributeError) [] 0) = Some e)
  /\ ("summary" <> "summary" ->
      mkOutcome (Some AttributeError) [] 0 = mkOutcome None [] 0).
Proof.
  split; [by_decision|].
  apply (csv_task_writes_nothing spec_structs true (fun _ => true)
           (fun _ _ _ _ => Ok ["row"]) 3 0 0 "summary"
           Example.well_formed_entry ",").
  by_decision.
Defined.

Lemma body_task_writes_nothing_witness :
  ParseBODYTask_call spec_structs true (fun _ => true)
    (fun _ _ _ _ _ => Ok [["row"]]) 3 0 0 Example.well_formed_entry "|"
  = Some (mkOutcome (Some AttributeError) [] 0)
  /\ written (mkOutcome (Some AttributeError) [] 0) = []
  /\ match parse spec_structs 3 (__init__ Example.well_formed_entry) with
     | Some (Ok _) =>
         mkOutcome (Some AttributeError) [] 0
         = mkOutcome (Some AttributeError) [] 0
     | _ => mkOutcome (Some AttributeError) [] 0 = mkOutcome None [] 1
     end.
Proof.
  split; [by_decision|].
  apply (body_task_writes_nothing spec_structs true (fun _ => true)
           (fun _ _ _ _ _ => Ok [["row"]]) 3 0 0
           Example.well_formed_entry "|").
  by_decision.
Defined.

Lemma json_task_writes_nothing_witness :
  ParseJSONTask_call spec_structs true (fun _ => true)
    (fun _ _ _ _ _ => Ok "{}") 3 0 0 Example.well_formed_entry false
  = Some (mkOutcome None [] 1)
  /\ mkOutcome None [] 1 = mkOutcome None [] 1.
Proof.
  split; [by_decision|].
  apply (json_task_writes_nothing spec_structs true (fun _ => true)
           (fun _ _ _ _ _ => Ok "{}") 3 0 0 Example.well_formed_entry false).
  by_decision.
Defined.

End TasksFacts.

(** * The exceptions of [parse] and the length of a name *)

Section Exceptions.

Variable st : Structs.

(** The loop of [parse] raises the TypeError of unpacking None, or the
    AttributeError of [append] on an item that is no list. *)
Lemma scan_attributes_raises fuel eh self s e s' :
  scan_attributes st fuel eh self s = Some (Raise e, s') ->
  e = TypeError \/ e = AttributeError.
Proof.
  revert self s. induction fuel as [|n IH]; intros self s.
  - rewrite scan_attributes_O. destruct (_ <? _); discriminate.
  - rewrite scan_attributes_S. destruct (_ <? _); [|discriminate].
    destruct (scan_step st n eh s) as [[[[[[t|] d]|]|e0] s1]|] eqn:Hstep;
      try discriminate.
    + cbv zeta. destruct (negb _); [apply IH|].
      destruct d; [|apply IH].
      destruct (self !! _); [apply IH|]. intros [= <- _]. now right.
    + intros [= <- _]. now left.
    + unfold scan_step in Hstep.
      now apply parse_structure_never_raises in Hstep.
Qed.

Lemma code_units_length big_endian fuel data units :
  code_units big_endian fuel data = Ok units ->
  (2 * length units <= length data)%nat.
Proof.
  revert data units. induction fuel as [|n IH]; intros data units.
  - destruct data as [|b0 [|b1 rest]]; simpl; try discriminate;
      intros [= <-]; simpl; lia.
  - destruct data as [|b0 [|b1 rest]]; simpl; try discriminate.
    + intros [= <-]. simpl. lia.
    + destruct (code_units big_endian n rest) as [units'|] eqn:E;
        [|discriminate].
      intros [= <-]. apply IH in E. simpl. lia.
Qed.

Lemma code_points_length fuel units points :
  code_points fuel units = Ok points ->
  (length points <= length units)%nat.
Proof.
  revert units points. induction fuel as [|n IH]; intros units points.
  - destruct units; simpl; intros [= <-]; simpl; lia.
  - destruct units as [|u rest]; simpl.
    + intros [= <-]. simpl. lia.
    + destruct ((0xD800 <=? u) && (u <=? 0xDBFF)).
      * destruct rest as [|lo rest']; [discriminate|].
        destruct ((0xDC00 <=? lo) && (lo <=? 0xDFFF)); [|discriminate].
        destruct (code_points n rest') as [cps|] eqn:E; [|discriminate].
        intros [= <-]. apply IH in E. simpl. lia.
      * destruct ((0xDC00 <=? u) && (u <=? 0xDFFF)); [discriminate|].
        destruct (code_points n rest) as [cps|] eqn:E; [|discriminate].
        intros [= <-]. apply IH in E. simpl. lia.
Qed.

Lemma decode_UTF16_length data points :
  decode_UTF16 data = Ok points ->
  (2 * length points <= length data)%nat.
Proof.
  unfold decode_UTF16.
  match goal with
  | |- context [let '(_, _) := ?m in _] =>
      destruct m as [big_endian payload] eqn:E
  end.
  assert (Hle : (length payload <= length data)%nat).
  { revert E.
    repeat match goal with
           | |- context [match ?x with _ => _ end] => destruct x
           end;
      intros [= <- <-]; simpl; lia. }
  destruct (code_units _ _ payload) as [units|] eqn:Eunits; [|discriminate].
  intros Hp. apply code_units_length in Eunits.
  apply code_points_length in Hp. lia.
Qed.

End Exceptions.

(** [parse] raises three exceptions and no other: AttributeError,
    ValueError and TypeError.  What the structures, the timestamps and
    the names raise is caught by [parse_structure] and does not leave
    [parse]. *)
Theorem parse_raises_three_exceptions (st : Structs) (fuel : nat)
  (self : MFTEntry) (e : exn) :
  parse st fuel self = Some (Raise e) ->
  e = AttributeError \/ e = ValueError \/ e = TypeError.
Proof.
  unfold parse.
  destruct (parse_body st fuel self (get_stream self))
    as [[[[h lists]|e0] s]|] eqn:E; try discriminate.
  intros [= <-]. unfold parse_body in E. unfold bind at 1 in E.
  destruct (parse_structure _ _) as [[[parsed|e1] s0]|] eqn:Eh;
    try discriminate.
  2:{ now apply parse_structure_never_raises in Eh. }
  destruct parsed as [h|]; cbn [not_None] in E.
  2:{ injection E as <- _. now left. }
  unfold bind at 1, ret in E. unfold bind at 1, seek in E.
  destruct (_ <? 0).
  { injection E as <- _. right. now left. }
  unfold bind in E.
  destruct (scan_attributes st fuel h (attributes self) _)
    as [[[lists|e2] s2]|] eqn:Escan; try discriminate.
  injection E as <- _.
  destruct (scan_attributes_raises st _ _ _ _ _ _ Escan) as [->| ->]; auto.
Qed.

(** The name of a FILE_NAME attribute that is returned has at most
    FileNameLength characters.  It has fewer when the buffer ends
    within the name: the short [read] is no error. *)
Theorem file_name_is_at_most_its_length (st : Structs) (p : Z)
  (h : AttributeHeader) (s : BytesIO) (r : FileNameAttribute)
  (s' : BytesIO) :
  _parse_file_name st p h s = Some (Ok r, s') ->
  0 <= FileNameLength r ->
  Z.of_nat (length (FileName r)) <= FileNameLength r.
Proof.
  unfold _parse_file_name. intros E Hlen.
  apply bind_Ok_inv in E as (fn & s1 & _ & E).
  apply bind_Ok_inv in E as (create & s2 & _ & E).
  apply bind_Ok_inv in E as (modified & s3 & _ & E).
  apply bind_Ok_inv in E as (entry_modified & s4 & _ & E).
  apply bind_Ok_inv in E as (access & s5 & _ & E).
  apply bind_Ok_inv in E as (data & s6 & Eread & E).
  apply bind_Ok_inv in E as (name & s7 & Ename & E).
  injection E as <- _. unfold _clean_transform in *.
  cbn [FileName FileNameLength] in *.
  unfold of_result in Ename. injection Ename as Ename _.
  apply decode_UTF16_length in Ename.
  unfold read in Eread. injection Eread as <- _.
  destruct (FN_FileNameLength fn * 2 <? 0) eqn:Hneg;
    [apply Z.ltb_lt in Hneg; lia|].
  rewrite length_take in Ename. lia.
Qed.

Lemma parse_raises_three_exceptions_witness :
  parse spec_structs 1 (__init__ Example.truncated_attribute_entry)
  = Some (Raise TypeError)
  /\ (TypeError = AttributeError \/ TypeError = ValueError
      \/ TypeError = TypeError).
Proof.
  split; [by_decision|].
  apply (parse_raises_three_exceptions spec_structs 1
           (__init__ Example.truncated_attribute_entry)).
  by_decision.
Defined.

Lemma file_name_is_at_most_its_length_witness :
  _parse_file_name spec_structs 80 Example.file_name_header
    (mkBytesIO Example.cut_name_entry 80)
  = Some (Ok Example.cut_file_name, mkBytesIO Example.cut_name_entry 150)
  /\ Z.of_nat (length (FileName Example.cut_file_name))
     <= FileNameLength Example.cut_file_name.
Proof.
  split; [by_decision|].
  apply (file_name_is_at_most_its_length spec_structs 80
           Example.file_name_header (mkBytesIO Example.cut_name_entry 80)
           Example.cut_file_name (mkBytesIO Example.cut_name_entry 150)).
  - by_decision.
  - vm_compute. discriminate.
Defined.

(** * The mapping of an attribute list *)

Section AttributeList.

Variable st : Structs.

Lemma attribute_list_entries_filed fuel h entries s final s' :
  filed_by_type entries ->
  attribute_list_entries st fuel h entries s = Some (Ok final, s') ->
  filed_by_type final.
Proof.
  revert entries s. induction fuel as [|n IH]; intros entries s Hfiled E;
    simpl in E;
    apply bind_Ok_inv in E as (position_now & s1 & _ & E);
    apply bind_Ok_inv in E as (form & s2 & _ & E);
    destruct (position_now <? ValueLength form);
    try discriminate;
    try (injection E as <- _; exact Hfiled).
  apply bind_Ok_inv in E as (AL_original_position & s3 & _ & E).
  apply bind_Ok_inv in E as (step & s4 & _ & E).
  destruct step as [entry|]; [|injection E as <- _; exact Hfiled].
  apply bind_Ok_inv in E as (? & s5 & _ & E).
  apply IH in E; [exact E|]. clear E IH.
  intros key l.
  destruct (decide (key = lower (AttributeTypeCode entry))) as [->|Hne].
  - rewrite lookup_insert_eq. intros [= <-]. split.
    + intros Hnil. now apply app_eq_nil in Hnil as [_ Hnil].
    + apply Forall_app. split; [|now repeat constructor].
      destruct (entries !! lower (AttributeTypeCode entry)) as [l0|] eqn:Hl0;
        [|constructor].
      exact (proj2 (Hfiled _ _ Hl0)).
  - rewrite lookup_insert_ne by congruence. apply Hfiled.
Qed.

End AttributeList.

(** The mapping that [_parse_attribute_list] returns files the entries
    by type: each of its keys is the type code, in lower case, of every
    entry in its list, and no key has an empty list. *)
Theorem attribute_list_is_filed_by_type (st : Structs) (fuel : nat) (p : Z)
  (h : AttributeHeader) (s : BytesIO)
  (m : gmap string (list AttributeListEntry)) (s' : BytesIO) :
  _parse_attribute_list st fuel p h s = Some (Ok m, s') ->
  filed_by_type m.
Proof.
  unfold _parse_attribute_list. intros E.
  apply bind_Ok_inv in E as (entries & s1 & E & Eret).
  injection Eret as <- _. unfold _clean_transform.
  apply (attribute_list_entries_filed st fuel h ∅ s entries s1); [|exact E].
  intros key l Hl. now rewrite lookup_empty in Hl.
Qed.

Lemma attribute_list_is_filed_by_type_witness :
  _parse_attribute_list spec_structs 5 80 Example.six_entries_header
    (mkBytesIO (Example.attribute_list_entry_with 32) 80)
  = Some (Ok Example.four_entries,
          mkBytesIO (Example.attribute_list_entry_with 32) 208)
  /\ filed_by_type Example.four_entries.
Proof.
  split; [by_decision|].
  apply (attribute_list_is_filed_by_type spec_structs 5 80
           Example.six_entries_header
           (mkBytesIO (Example.attribute_list_entry_with 32) 80)
           Example.four_entries
           (mkBytesIO (Example.attribute_list_entry_with 32) 208)).
  by_decision.
Defined.
